(** * Venue interaction store (stores/venueInteractionStore.ts)

    A shallow embedding of the zustand store that tracks check-ins and likes
    per venue, together with the part of the ECMAScript [Date] object the
    store relies on, and proofs of the properties stated for it.

    Conventions of the embedding:
    - a JavaScript number that the store only ever counts with is a [Z];
    - a time value is a [Z] of milliseconds since the epoch, a [Date] object
      is an [option Z] where [None] is the Invalid Date (time value NaN);
    - the local time zone is a constant offset [tz] in milliseconds (no
      daylight-saving transitions);
    - the wall clock is an argument [now] of every function that evaluates
      [new Date()]; one synchronous store action sees one clock reading;
    - [Date.parse] recognises the format [toISOString] writes, which is the
      only format the store itself ever stores; every other string has no
      time value;
    - an entry of the persisted [interactions] array may be a hole
      ([null]/[undefined]), which the source filters with [filter(Boolean)];
      it is [None] here;
    - an object used as a map from slot labels to counts is an association
      list in insertion order, its keys being plain labels;
    - every store function wraps its body in [try]/[catch]; nothing in the
      modelled part throws (the [Date] constructor yields an Invalid Date on
      an unreadable string, it raises nothing), so the [catch] branches are
      never taken and every action is a total function of the store;
    - the notifications a recorded visit or like sends to other stores, and
      the remote-sync stub, do not touch [interactions] and are left out.

    The file also covers the local part of the user profile store
    (stores/userProfileStore.ts) and the debounced XP award that links the
    two stores; their conventions are stated where they are defined. *)

From Stdlib Require Import ZArith List String Ascii Bool Lia.
From Stdlib Require Import Permutation Sorting.Sorted.
Import ListNotations.
Open Scope Z_scope.

(** ** ECMAScript time values and the Date object *)

Module JSDate.

Definition msPerDay : Z := 86400000.
Definition msPerHour : Z := 3600000.
Definition msPerMinute : Z := 60000.
Definition msPerSecond : Z := 1000.
Definition maxTime : Z := 8640000000000000.

Definition Date : Type := option Z.

Definition valid_time (t : Z) : Prop := - maxTime <= t <= maxTime.

Definition TimeClip (t : Z) : Date :=
  if Z.abs t <=? maxTime then Some t else None.

Definition Day (t : Z) : Z := t / msPerDay.
Definition TimeWithinDay (t : Z) : Z := t mod msPerDay.

Definition DaysInYear (y : Z) : Z :=
  if negb (y mod 4 =? 0) then 365
  else if negb (y mod 100 =? 0) then 366
  else if negb (y mod 400 =? 0) then 365
  else 366.

Definition DayFromYear (y : Z) : Z :=
  365 * (y - 1970) + (y - 1969) / 4 - (y - 1901) / 100 + (y - 1601) / 400.

(** [YearFromTime t] is the largest [y] with [DayFromYear y <= Day t]; it is
    found by stepping up from a year that is certainly not too late. *)
Fixpoint year_search (fuel : nat) (y d : Z) : Z :=
  match fuel with
  | O => y
  | S f => if d <? DayFromYear (y + 1) then y else year_search f (y + 1) d
  end.

Definition YearFromDay (d : Z) : Z :=
  year_search (Z.to_nat (Z.abs d / 100000 + 4))
              (1970 + (if 0 <=? d then d / 366 else d / 365)) d.

Definition YearFromTime (t : Z) : Z := YearFromDay (Day t).
Definition InLeapYear (t : Z) : Z := DaysInYear (YearFromTime t) - 365.
Definition DayWithinYear (t : Z) : Z := Day t - DayFromYear (YearFromTime t).

(** Day number, within its year, of the first day of month [m] (0-based). *)
Definition month_start (leap m : Z) : Z :=
  if m =? 0 then 0 else if m =? 1 then 31
  else if m =? 2 then 59 + leap else if m =? 3 then 90 + leap
  else if m =? 4 then 120 + leap else if m =? 5 then 151 + leap
  else if m =? 6 then 181 + leap else if m =? 7 then 212 + leap
  else if m =? 8 then 243 + leap else if m =? 9 then 273 + leap
  else if m =? 10 then 304 + leap else if m =? 11 then 334 + leap
  else 365 + leap.

Definition month_of_day (leap d : Z) : Z :=
  if d <? 31 then 0 else if d <? 59 + leap then 1
  else if d <? 90 + leap then 2 else if d <? 120 + leap then 3
  else if d <? 151 + leap then 4 else if d <? 181 + leap then 5
  else if d <? 212 + leap then 6 else if d <? 243 + leap then 7
  else if d <? 273 + leap then 8 else if d <? 304 + leap then 9
  else if d <? 334 + leap then 10 else 11.

Definition MonthFromTime (t : Z) : Z :=
  month_of_day (InLeapYear t) (DayWithinYear t).

Definition DateFromTime (t : Z) : Z :=
  DayWithinYear t - month_start (InLeapYear t) (MonthFromTime t) + 1.

Definition HourFromTime (t : Z) : Z := (t / msPerHour) mod 24.
Definition MinFromTime (t : Z) : Z := (t / msPerMinute) mod 60.
Definition SecFromTime (t : Z) : Z := (t / msPerSecond) mod 60.
Definition msFromTime (t : Z) : Z := t mod msPerSecond.

Definition MakeTime (hour min sec ms : Z) : Z :=
  hour * msPerHour + min * msPerMinute + sec * msPerSecond + ms.

Definition MakeDay (year month date : Z) : Z :=
  let ym := year + month / 12 in
  let mn := month mod 12 in
  DayFromYear ym + month_start (DaysInYear ym - 365) mn + date - 1.

Definition MakeDate (day time : Z) : Z := day * msPerDay + time.

(** *** Date.prototype.toISOString *)

Definition digit (d : Z) : ascii := ascii_of_nat (48 + Z.to_nat d).

Fixpoint pad (w : nat) (n : Z) : string :=
  match w with
  | O => EmptyString
  | S w' => String (digit ((n / 10 ^ Z.of_nat w') mod 10)) (pad w' n)
  end.

Definition year_string (y : Z) : string :=
  if (0 <=? y) && (y <=? 9999) then pad 4 y
  else String.append (if 0 <=? y then "+"%string else "-"%string)
                     (pad 6 (Z.abs y)).

Definition toISOString (t : Z) : string :=
  (year_string (YearFromTime t) ++ "-" ++ pad 2 (MonthFromTime t + 1) ++ "-"
   ++ pad 2 (DateFromTime t) ++ "T" ++ pad 2 (HourFromTime t) ++ ":"
   ++ pad 2 (MinFromTime t) ++ ":" ++ pad 2 (SecFromTime t) ++ "."
   ++ pad 3 (msFromTime t) ++ "Z")%string.

(** *** Date.parse, on the ECMAScript date-time string format *)

Definition digit_val (c : ascii) : option Z :=
  let n := Z.of_nat (nat_of_ascii c) - 48 in
  if (0 <=? n) && (n <=? 9) then Some n else None.

Fixpoint take_num (w : nat) (acc : Z) (s : string) : option (Z * string) :=
  match w with
  | O => Some (acc, s)
  | S w' =>
      match s with
      | String c s' =>
          match digit_val c with
          | Some d => take_num w' (acc * 10 + d) s'
          | None => None
          end
      | EmptyString => None
      end
  end.

Definition expect (c : ascii) (s : string) : option string :=
  match s with
  | String x s' => if Ascii.eqb x c then Some s' else None
  | EmptyString => None
  end.

Definition take_year (s : string) : option (Z * string) :=
  match s with
  | String c s' =>
      if Ascii.eqb c "+" then take_num 6 0 s'
      else if Ascii.eqb c "-" then
        match take_num 6 0 s' with
        | Some (y, r) => if y =? 0 then None else Some (- y, r)
        | None => None
        end
      else take_num 4 0 s
  | EmptyString => None
  end.

Notation "'let*' p ':=' e 'in' k" :=
  (match e with Some p => k | None => None end)
  (at level 10, p pattern, e at level 200, k at level 200, only parsing).

Definition in_range (lo x hi : Z) : bool := (lo <=? x) && (x <=? hi).

Definition Date_parse (s : string) : Date :=
  let* (y, s) := take_year s in
  let* s := expect "-" s in
  let* (mo, s) := take_num 2 0 s in
  let* s := expect "-" s in
  let* (d, s) := take_num 2 0 s in
  let* s := expect "T" s in
  let* (h, s) := take_num 2 0 s in
  let* s := expect ":" s in
  let* (mi, s) := take_num 2 0 s in
  let* s := expect ":" s in
  let* (sec, s) := take_num 2 0 s in
  let* s := expect "." s in
  let* (ms, s) := take_num 3 0 s in
  let* s := expect "Z" s in
  if (s =? "")%string && in_range 1 mo 12 && in_range 1 d 31
     && (in_range 0 h 23 || ((h =? 24) && (mi =? 0) && (sec =? 0) && (ms =? 0)))
     && in_range 0 mi 59 && in_range 0 sec 59
  then TimeClip (MakeDate (MakeDay y (mo - 1) d) (MakeTime h mi sec ms))
  else None.

(** *** The Date object: comparison and the local-time methods *)

(** [a >= b] and [a < b] on Date objects compare the time values; every
    comparison with NaN is false. *)
Definition date_ge (a b : Date) : bool :=
  match a, b with Some x, Some y => y <=? x | _, _ => false end.

Definition date_lt (a b : Date) : bool :=
  match a, b with Some x, Some y => x <? y | _, _ => false end.

Section LocalZone.

Variable tz : Z.

Definition LocalTime (t : Z) : Z := t + tz.
Definition UTC (t : Z) : Z := t - tz.

Definition getHours (d : Date) : option Z :=
  option_map (fun t => HourFromTime (LocalTime t)) d.

Definition getDate (d : Date) : option Z :=
  option_map (fun t => DateFromTime (LocalTime t)) d.

(** [d.setHours(hour, min, sec, ms)] *)
Definition setHours4 (d : Date) (hour min sec ms : Z) : Date :=
  match d with
  | Some t =>
      TimeClip (UTC (MakeDate (Day (LocalTime t)) (MakeTime hour min sec ms)))
  | None => None
  end.

(** [d.setHours(hour)], where [hour] may be NaN *)
Definition setHours (d : Date) (hour : option Z) : Date :=
  match d, hour with
  | Some t, Some h =>
      let l := LocalTime t in
      TimeClip (UTC (MakeDate (Day l)
        (MakeTime h (MinFromTime l) (SecFromTime l) (msFromTime l))))
  | _, _ => None
  end.

(** [d.setDate(date)], where [date] may be NaN *)
Definition setDate (d : Date) (date : option Z) : Date :=
  match d, date with
  | Some t, Some dt =>
      let l := LocalTime t in
      TimeClip (UTC (MakeDate (MakeDay (YearFromTime l) (MonthFromTime l) dt)
                              (TimeWithinDay l)))
  | _, _ => None
  end.

End LocalZone.

End JSDate.

Import JSDate.

(** ** JavaScript values the store handles *)

(** A non-empty string is truthy; [undefined] and the empty string are not. *)
Definition truthy (s : string) : bool := negb (s =? "")%string.

Definition truthy_opt (s : option string) : bool :=
  match s with Some x => truthy x | None => false end.

(** [a || b] on strings, on optional strings and on numbers (0 is falsy). *)
Definition str_or (a b : string) : string := if truthy a then a else b.

Definition opt_or (a b : option string) : option string :=
  if truthy_opt a then a else b.

Definition num_or (a b : Z) : Z := if a =? 0 then b else a.

(** What a call of a store action hands back to its caller. *)
Inductive jsvalue : Type :=
| undefined
| boolean (b : bool).

(** [Array.prototype.sort] is stable: with a consistent comparator the result
    is the sorted arrangement that keeps equal elements in their order, which
    is what insertion from the right computes. *)
Fixpoint sort_insert {A : Type} (cmp : A -> A -> Z) (x : A) (l : list A) : list A :=
  match l with
  | [] => [x]
  | y :: t => if cmp x y <=? 0 then x :: y :: t else y :: sort_insert cmp x t
  end.

Definition sort {A : Type} (cmp : A -> A -> Z) (l : list A) : list A :=
  fold_right (sort_insert cmp) [] l.


(** ** The store's data *)

Record VenueInteraction : Type := {
  venueId : string;
  count : Z;
  lastReset : string;
  lastInteraction : string;
  arrivalTime : option string;
  likes : Z;
  timestamp : string;
  lastLikeReset : string;
  dailyLikesUsed : Z;
  likeTimeSlot : option string
}.

Record VenueInteractionState : Type := {
  interactions : list (option VenueInteraction)
}.

Definition RESET_HOUR : Z := 5.
Definition LIKE_RESET_HOUR : Z := 4.
Definition LIKE_RESET_MINUTE : Z := 59.
Definition INTERACTION_COOLDOWN_HOURS : Z := 2.
Definition DAILY_LIKE_LIMIT : Z := 1.

(** The store created by [create]: no interactions. *)
Definition initialState : VenueInteractionState := {| interactions := [] |}.

(** [get] and [set] of the store, as a state monad. *)
Definition Store (A : Type) : Type :=
  VenueInteractionState -> A * VenueInteractionState.

Definition ret {A : Type} (a : A) : Store A := fun st => (a, st).

Definition bind {A B : Type} (m : Store A) (k : A -> Store B) : Store B :=
  fun st => let (a, st') := m st in k a st'.

Definition get : Store VenueInteractionState := fun st => (st, st).

Definition set (f : VenueInteractionState -> VenueInteractionState) : Store unit :=
  fun st => (tt, f st).

Notation "x <- m ;; k" := (bind m (fun x => k))
  (at level 61, m at next level, right associativity).
Notation "m ;; k" := (bind m (fun _ => k))
  (at level 61, right associativity).

(** [Boolean] on an array entry, and the predicate [i => i && i.venueId === venueId]. *)
Definition Boolean (i : option VenueInteraction) : bool :=
  match i with Some _ => true | None => false end.

Definition is_venue (v : string) (i : option VenueInteraction) : bool :=
  match i with Some r => (venueId r =? v)%string | None => false end.

(** [interactions.find(i => i && i.venueId === venueId)] *)
Definition find_venue (v : string) (l : list (option VenueInteraction))
  : option VenueInteraction :=
  match find (is_venue v) l with Some i => i | None => None end.

Section Store.

(** The local time zone offset, in milliseconds. *)
Variable tz : Z.

(** *** The time-window predicates *)

Definition shouldReset (now : Z) (lastReset : string) : bool :=
  let lastResetDate := Date_parse lastReset in
  let now : Date := Some now in
  let resetTime := setHours4 tz now RESET_HOUR 0 0 0 in
  date_ge now resetTime && date_lt lastResetDate resetTime.

Definition shouldResetLikes (now : Z) (lastLikeReset : string) : bool :=
  let lastResetDate := Date_parse lastLikeReset in
  let now : Date := Some now in
  let resetTime := setHours4 tz now LIKE_RESET_HOUR LIKE_RESET_MINUTE 0 0 in
  if date_ge now resetTime && date_lt lastResetDate resetTime then true
  else if date_lt now resetTime then
    let yesterdayResetTime :=
      setDate tz resetTime (option_map (fun d => d - 1) (getDate tz resetTime)) in
    date_lt lastResetDate yesterdayResetTime
  else false.

Definition canInteractWithVenue (now : Z) (lastInteraction : option string) : bool :=
  match lastInteraction with
  | None => true
  | Some s =>
      if negb (truthy s) then true
      else
        let lastInteractionDate := Date_parse s in
        let now : Date := Some now in
        let cooldownTime :=
          setHours tz lastInteractionDate
            (option_map (fun h => h + INTERACTION_COOLDOWN_HOURS)
                        (getHours tz lastInteractionDate)) in
        date_ge now cooldownTime
  end.

(** *** resetInteractionsIfNeeded *)

Definition needs_reset (now : Z) (i : option VenueInteraction) : bool :=
  match i with Some i => shouldReset now (lastReset i) | None => false end.

Definition needs_like_reset (now : Z) (i : option VenueInteraction) : bool :=
  match i with
  | Some i => shouldResetLikes now (str_or (lastLikeReset i) (lastReset i))
  | None => false
  end.

(** The function mapped over the entries when some window has elapsed. *)
Definition reset_entry (now : Z) (i : option VenueInteraction)
  : option VenueInteraction :=
  match i with
  | None => None
  | Some i =>
      let shouldResetInteraction := shouldReset now (lastReset i) in
      let shouldResetLikesForVenue :=
        shouldResetLikes now (str_or (lastLikeReset i) (lastReset i)) in
      Some {| venueId := venueId i;
              count := if shouldResetInteraction then 0 else count i;
              lastReset :=
                if shouldResetInteraction then toISOString now else lastReset i;
              lastInteraction := lastInteraction i;
              arrivalTime :=
                if shouldResetInteraction then None else arrivalTime i;
              likes := likes i;
              timestamp := timestamp i;
              lastLikeReset :=
                if shouldResetLikesForVenue then toISOString now
                else str_or (lastLikeReset i) (lastReset i);
              dailyLikesUsed :=
                if shouldResetLikesForVenue then 0
                else num_or (dailyLikesUsed i) 0;
              likeTimeSlot :=
                if shouldResetLikesForVenue then None else likeTimeSlot i |}
  end.

Definition resetInteractionsIfNeeded (now : Z) : Store unit :=
  set (fun state =>
    let needsReset := existsb (needs_reset now) (interactions state) in
    let needsLikeReset := existsb (needs_like_reset now) (interactions state) in
    if needsReset || needsLikeReset then
      {| interactions :=
           filter Boolean
             (map (reset_entry now) (filter Boolean (interactions state))) |}
    else state).

(** The array [resetInteractionsIfNeeded] leaves in the store. *)
Definition reset_pass (now : Z) (l : list (option VenueInteraction))
  : list (option VenueInteraction) :=
  if existsb (needs_reset now) l || existsb (needs_like_reset now) l
  then filter Boolean (map (reset_entry now) (filter Boolean l))
  else l.

(** *** Eligibility *)

Definition canInteract (now : Z) (venueId : string) : Store bool :=
  if negb (truthy venueId) then ret false
  else
    resetInteractionsIfNeeded now ;;
    st <- get ;;
    let interaction := find_venue venueId (interactions st) in
    ret (canInteractWithVenue now (option_map lastInteraction interaction)).

Definition canLikeVenue (now : Z) (venueId : string) : Store bool :=
  if negb (truthy venueId) then ret false
  else
    resetInteractionsIfNeeded now ;;
    st <- get ;;
    match find_venue venueId (interactions st) with
    | None => ret true
    | Some interaction =>
        let shouldResetLikesForVenue :=
          shouldResetLikes now
            (str_or (lastLikeReset interaction) (lastReset interaction)) in
        let dailyLikesUsed :=
          if shouldResetLikesForVenue then 0
          else num_or (dailyLikesUsed interaction) 0 in
        ret (dailyLikesUsed <? DAILY_LIKE_LIMIT)
    end.

(** *** Recording a visit and a like

    The actions also notify other stores (experience points, achievements)
    and call the remote-sync stub; none of that touches [interactions]. *)

Definition forceUpdate : Store unit := set (fun state => state).

Definition visit_entry (v : string) (arrival : option string) (now : string)
    (i : option VenueInteraction) : option VenueInteraction :=
  match i with
  | None => None
  | Some r =>
      if (venueId r =? v)%string then
        Some {| venueId := venueId r;
                count := count r + 1;
                lastReset := lastReset r;
                lastInteraction := now;
                arrivalTime := opt_or arrival (arrivalTime r);
                likes := likes r;
                timestamp := now;
                lastLikeReset := lastLikeReset r;
                dailyLikesUsed := dailyLikesUsed r;
                likeTimeSlot := likeTimeSlot r |}
      else Some r
  end.

Definition incrementInteraction (now : Z) (venueId : string)
    (arrivalTime : option string) : Store jsvalue :=
  if negb (truthy venueId) then ret undefined
  else
    resetInteractionsIfNeeded now ;;
    ok <- canInteract now venueId ;;
    if negb ok then ret undefined
    else
      let now := toISOString now in
      set (fun state =>
        match find_venue venueId (interactions state) with
        | Some existingInteraction =>
            {| interactions :=
                 filter Boolean
                   (map (visit_entry venueId arrivalTime now) (interactions state)) |}
        | None =>
            {| interactions :=
                 filter Boolean (interactions state) ++
                 [Some {| venueId := venueId;
                          count := 1;
                          lastReset := now;
                          lastInteraction := now;
                          arrivalTime := arrivalTime;
                          likes := 0;
                          timestamp := now;
                          lastLikeReset := now;
                          dailyLikesUsed := 0;
                          likeTimeSlot := None |}] |}
        end) ;;
      ret undefined.

Definition like_entry (v timeSlot now : string) (shouldResetLikesForVenue : bool)
    (dailyLikesUsed' : Z) (i : option VenueInteraction) : option VenueInteraction :=
  match i with
  | None => None
  | Some r =>
      if (venueId r =? v)%string then
        Some {| venueId := venueId r;
                count := count r;
                lastReset := lastReset r;
                lastInteraction := lastInteraction r;
                arrivalTime := arrivalTime r;
                likes := likes r + 1;
                timestamp := now;
                lastLikeReset :=
                  if shouldResetLikesForVenue then now else lastLikeReset r;
                dailyLikesUsed := dailyLikesUsed' + 1;
                likeTimeSlot := Some timeSlot |}
      else Some r
  end.

Definition likeVenue (now : Z) (venueId timeSlot : string) : Store jsvalue :=
  if negb (truthy venueId) || negb (truthy timeSlot) then ret undefined
  else
    ok <- canLikeVenue now venueId ;;
    if negb ok then ret undefined
    else
      let nowS := toISOString now in
      set (fun state =>
        match find_venue venueId (interactions state) with
        | Some existingInteraction =>
            let shouldResetLikesForVenue :=
              shouldResetLikes now (lastLikeReset existingInteraction) in
            let dailyLikesUsed :=
              if shouldResetLikesForVenue then 0
              else dailyLikesUsed existingInteraction in
            {| interactions :=
                 filter Boolean
                   (map (like_entry venueId timeSlot nowS
                           shouldResetLikesForVenue dailyLikesUsed)
                        (interactions state)) |}
        | None =>
            {| interactions :=
                 filter Boolean (interactions state) ++
                 [Some {| venueId := venueId;
                          count := 0;
                          lastReset := nowS;
                          lastInteraction := "";
                          arrivalTime := None;
                          likes := 1;
                          timestamp := nowS;
                          lastLikeReset := nowS;
                          dailyLikesUsed := 1;
                          likeTimeSlot := Some timeSlot |}] |}
        end) ;;
      forceUpdate ;;
      ret undefined.

(** *** Queries *)

Definition getInteractionCount (now : Z) (venueId : string) : Store Z :=
  if negb (truthy venueId) then ret 0
  else
    resetInteractionsIfNeeded now ;;
    st <- get ;;
    match find_venue venueId (interactions st) with
    | Some interaction => ret (count interaction)
    | None => ret 0
    end.

End Store.

Definition getLikeCount (venueId : string) (st : VenueInteractionState) : Z :=
  if negb (truthy venueId) then 0
  else
    match find_venue venueId (interactions st) with
    | Some interaction => likes interaction
    | None => 0
    end.

Definition getTotalLikes (st : VenueInteractionState) : Z :=
  fold_left
    (fun total interaction =>
       total + num_or (match interaction with Some i => likes i | None => 0 end) 0)
    (filter Boolean (interactions st)) 0.

Definition has_venueId (i : option VenueInteraction) : bool :=
  match i with Some r => truthy (venueId r) | None => false end.

Definition venue_likes (i : option VenueInteraction) : list (string * Z) :=
  match i with Some r => [(venueId r, num_or (likes r) 0)] | None => [] end.

(** The comparator [(a, b) => b.likes - a.likes]. *)
Definition by_likes (a b : string * Z) : Z := snd b - snd a.

Definition getMostPopularVenues (st : VenueInteractionState) : list (string * Z) :=
  firstn 10
    (sort by_likes
       (flat_map venue_likes (filter has_venueId (interactions st)))).





(** *** Further queries *)

Definition is_visited_bar (i : option VenueInteraction) : bool :=
  match i with
  | Some r => truthy (venueId r) && ((0 <? likes r) || (0 <? count r))
  | None => false
  end.

Definition getTotalBarsVisited (st : VenueInteractionState) : Z :=
  Z.of_nat (List.length (filter is_visited_bar (interactions st))).

Definition getAllInteractionsForVenue (venueId : string) (st : VenueInteractionState)
  : list (option VenueInteraction) :=
  if negb (truthy venueId) then []
  else filter (is_venue venueId) (interactions st).






(** The rows of [getDetailedTimeSlotData]. *)
Module SlotRow.

Record t : Type := {
  time : string;
  visits : Z;
  likes : Z;
  isCurrentHour : bool;
  isPeak : bool
}.

End SlotRow.

Definition TIME_SLOTS : list string :=
  ["19:00"; "19:30"; "20:00"; "20:30"; "21:00"; "21:30";
   "22:00"; "22:30"; "23:00"; "23:30"; "00:00"; "00:30";
   "01:00"; "01:30"; "02:00"]%string.

(** The half-hour label of the local time of [now]:
    [currentHour.toString().padStart(2, '0')], a colon, and "30" or "00". *)
Definition currentTimeSlot (tz now : Z) : string :=
  String.append (pad 2 (HourFromTime (LocalTime tz now)))
    (String.append ":"
       (if 30 <=? MinFromTime (LocalTime tz now) then "30"%string else "00"%string)).

(** [i && i.arrivalTime === timeSlot] *)
Definition arrives_at (timeSlot : string) (i : option VenueInteraction) : bool :=
  match i with
  | Some r =>
      match arrivalTime r with
      | Some s => (s =? timeSlot)%string
      | None => false
      end
  | None => false
  end.

Definition slot_row (current : string) (venueInteractions : list (option VenueInteraction))
    (timeSlot : string) : SlotRow.t :=
  if negb (truthy timeSlot) then
    {| SlotRow.time := ""; SlotRow.visits := 0; SlotRow.likes := 0;
       SlotRow.isCurrentHour := false; SlotRow.isPeak := false |}
  else
    let slotInteractions := filter (arrives_at timeSlot) venueInteractions in
    {| SlotRow.time := timeSlot;
       SlotRow.visits :=
         fold_left
           (fun sum i => sum + num_or (match i with Some r => count r | None => 0 end) 0)
           slotInteractions 0;
       SlotRow.likes :=
         fold_left
           (fun sum i => sum + num_or (match i with Some r => likes r | None => 0 end) 0)
           slotInteractions 0;
       SlotRow.isCurrentHour := (timeSlot =? current)%string;
       SlotRow.isPeak := false |}.

(** [slot && slot.time] *)
Definition has_time (slot : SlotRow.t) : bool := truthy (SlotRow.time slot).

(** [topSlots.some(top => top && top.time === slot.time && top.visits > 0)] *)
Definition in_top (topSlots : list SlotRow.t) (slot : SlotRow.t) : bool :=
  existsb
    (fun top => (SlotRow.time top =? SlotRow.time slot)%string
                && (0 <? SlotRow.visits top))
    topSlots.

(** The rows are built once; the sorted copy shares them, and the loop that
    sets [isPeak] reads only [time] and [visits] of the shared rows. *)
Definition mark_peak (topSlots : list SlotRow.t) (slot : SlotRow.t) : SlotRow.t :=
  if has_time slot then
    {| SlotRow.time := SlotRow.time slot;
       SlotRow.visits := SlotRow.visits slot;
       SlotRow.likes := SlotRow.likes slot;
       SlotRow.isCurrentHour := SlotRow.isCurrentHour slot;
       SlotRow.isPeak := in_top topSlots slot |}
  else slot.

Definition getDetailedTimeSlotData (tz now : Z) (venueId : string)
    (st : VenueInteractionState) : list SlotRow.t :=
  if negb (truthy venueId) then []
  else
    let venueInteractions := filter (is_venue venueId) (interactions st) in
    let timeSlotData :=
      map (slot_row (currentTimeSlot tz now) venueInteractions) TIME_SLOTS in
    let sortedByVisits :=
      sort (fun a b => SlotRow.visits b - SlotRow.visits a)
        (filter has_time timeSlotData) in
    let topSlots := firstn 3 sortedByVisits in
    filter has_time (map (mark_peak topSlots) timeSlotData).

(** ** Sequences of store actions at arbitrary clock readings *)

Inductive Call : Type :=
| CallIncrementInteraction (venueId : string) (arrivalTime : option string)
| CallLikeVenue (venueId timeSlot : string)
| CallResetInteractionsIfNeeded
| CallCanInteract (venueId : string)
| CallCanLikeVenue (venueId : string)
| CallGetInteractionCount (venueId : string).

Definition perform (tz now : Z) (c : Call) (st : VenueInteractionState)
  : VenueInteractionState :=
  match c with
  | CallIncrementInteraction v a => snd (incrementInteraction tz now v a st)
  | CallLikeVenue v s => snd (likeVenue tz now v s st)
  | CallResetInteractionsIfNeeded => snd (resetInteractionsIfNeeded tz now st)
  | CallCanInteract v => snd (canInteract tz now v st)
  | CallCanLikeVenue v => snd (canLikeVenue tz now v st)
  | CallGetInteractionCount v => snd (getInteractionCount tz now v st)
  end.

Definition run (tz : Z) (calls : list (Z * Call)) (st : VenueInteractionState)
  : VenueInteractionState :=
  fold_left (fun st c => perform tz (fst c) (snd c) st) calls st.

(** ** The user profile store (stores/userProfileStore.ts)

    The part of the store that lives in its local state: the profile, and
    the actions that read and update it.  The calls to the remote database
    and to the achievement store do not touch the profile and are left out.
    An [async] action runs up to its first [await] at once; an action that
    awaits [updateProfile] and then [awardXP] is the composition of the two
    local updates, each with its own clock reading, as long as the remote
    call settles and no other action runs in between. *)

Module Profile.

Module Friend.

Record t : Type := {
  id : string;
  username : string;
  phone : string;
  email : option string;
  xp : Z;
  nights_out : Z;
  bars_hit : Z;
  rank_title : string;
  created_at : string
}.

End Friend.

Module FriendRequest.

Record t : Type := {
  id : string;
  from_user_id : string;
  from_username : string;
  from_user_rank : string;
  created_at : string
}.

End FriendRequest.

Inductive XPType : Type :=
| visit_new_bar | participate_event | bring_friend | complete_night_out
| special_achievement | live_music | featured_drink | bar_game | photo_taken
| shots | beers | beer_towers | funnels | shotguns | pool_games | dart_games
| drunk_scale_submission | like_bar | check_in.

Module XPActivity.

Record t : Type := {
  id : string;
  type : XPType;
  xpAwarded : Z;
  timestamp : string;
  description : string
}.

End XPActivity.

Record UserProfile : Type := {
  id : string;
  username : string;
  phone : string;
  email : option string;
  xp : Z;
  nights_out : Z;
  bars_hit : Z;
  drunk_scale_ratings : list Z;
  last_night_out_date : option string;
  last_drunk_scale_date : option string;
  profile_picture : option string;
  friends : list Friend.t;
  friend_requests : list FriendRequest.t;
  xp_activities : list XPActivity.t;
  visited_bars : list string;
  total_shots : Z;
  total_beers : Z;
  total_beer_towers : Z;
  total_funnels : Z;
  total_shotguns : Z;
  pool_games_won : Z;
  dart_games_won : Z;
  photos_taken : Z;
  has_completed_onboarding : bool;
  created_at : string;
  updated_at : string
}.

(** [{...profile, field: value}], for the fields the actions write. *)
Definition with_xp (v : Z) (p : UserProfile) : UserProfile :=
  {| id := id p; username := username p; phone := phone p; email := email p;
     xp := v; nights_out := nights_out p; bars_hit := bars_hit p;
     drunk_scale_ratings := drunk_scale_ratings p;
     last_night_out_date := last_night_out_date p;
     last_drunk_scale_date := last_drunk_scale_date p;
     profile_picture := profile_picture p; friends := friends p;
     friend_requests := friend_requests p; xp_activities := xp_activities p;
     visited_bars := visited_bars p; total_shots := total_shots p;
     total_beers := total_beers p; total_beer_towers := total_beer_towers p;
     total_funnels := total_funnels p; total_shotguns := total_shotguns p;
     pool_games_won := pool_games_won p; dart_games_won := dart_games_won p;
     photos_taken := photos_taken p;
     has_completed_onboarding := has_completed_onboarding p;
     created_at := created_at p; updated_at := updated_at p |}.

Definition with_xp_activities (v : list XPActivity.t) (p : UserProfile) : UserProfile :=
  {| id := id p; username := username p; phone := phone p; email := email p;
     xp := xp p; nights_out := nights_out p; bars_hit := bars_hit p;
     drunk_scale_ratings := drunk_scale_ratings p;
     last_night_out_date := last_night_out_date p;
     last_drunk_scale_date := last_drunk_scale_date p;
     profile_picture := profile_picture p; friends := friends p;
     friend_requests := friend_requests p; xp_activities := v;
     visited_bars := visited_bars p; total_shots := total_shots p;
     total_beers := total_beers p; total_beer_towers := total_beer_towers p;
     total_funnels := total_funnels p; total_shotguns := total_shotguns p;
     pool_games_won := pool_games_won p; dart_games_won := dart_games_won p;
     photos_taken := photos_taken p;
     has_completed_onboarding := has_completed_onboarding p;
     created_at := created_at p; updated_at := updated_at p |}.

Definition with_visited_bars (v : list string) (p : UserProfile) : UserProfile :=
  {| id := id p; username := username p; phone := phone p; email := email p;
     xp := xp p; nights_out := nights_out p; bars_hit := bars_hit p;
     drunk_scale_ratings := drunk_scale_ratings p;
     last_night_out_date := last_night_out_date p;
     last_drunk_scale_date := last_drunk_scale_date p;
     profile_picture := profile_picture p; friends := friends p;
     friend_requests := friend_requests p; xp_activities := xp_activities p;
     visited_bars := v; total_shots := total_shots p;
     total_beers := total_beers p; total_beer_towers := total_beer_towers p;
     total_funnels := total_funnels p; total_shotguns := total_shotguns p;
     pool_games_won := pool_games_won p; dart_games_won := dart_games_won p;
     photos_taken := photos_taken p;
     has_completed_onboarding := has_completed_onboarding p;
     created_at := created_at p; updated_at := updated_at p |}.

Definition with_bars_hit (v : Z) (p : UserProfile) : UserProfile :=
  {| id := id p; username := username p; phone := phone p; email := email p;
     xp := xp p; nights_out := nights_out p; bars_hit := v;
     drunk_scale_ratings := drunk_scale_ratings p;
     last_night_out_date := last_night_out_date p;
     last_drunk_scale_date := last_drunk_scale_date p;
     profile_picture := profile_picture p; friends := friends p;
     friend_requests := friend_requests p; xp_activities := xp_activities p;
     visited_bars := visited_bars p; total_shots := total_shots p;
     total_beers := total_beers p; total_beer_towers := total_beer_towers p;
     total_funnels := total_funnels p; total_shotguns := total_shotguns p;
     pool_games_won := pool_games_won p; dart_games_won := dart_games_won p;
     photos_taken := photos_taken p;
     has_completed_onboarding := has_completed_onboarding p;
     created_at := created_at p; updated_at := updated_at p |}.

Definition with_photos_taken (v : Z) (p : UserProfile) : UserProfile :=
  {| id := id p; username := username p; phone := phone p; email := email p;
     xp := xp p; nights_out := nights_out p; bars_hit := bars_hit p;
     drunk_scale_ratings := drunk_scale_ratings p;
     last_night_out_date := last_night_out_date p;
     last_drunk_scale_date := last_drunk_scale_date p;
     profile_picture := profile_picture p; friends := friends p;
     friend_requests := friend_requests p; xp_activities := xp_activities p;
     visited_bars := visited_bars p; total_shots := total_shots p;
     total_beers := total_beers p; total_beer_towers := total_beer_towers p;
     total_funnels := total_funnels p; total_shotguns := total_shotguns p;
     pool_games_won := pool_games_won p; dart_games_won := dart_games_won p;
     photos_taken := v;
     has_completed_onboarding := has_completed_onboarding p;
     created_at := created_at p; updated_at := updated_at p |}.

Definition with_pool_games_won (v : Z) (p : UserProfile) : UserProfile :=
  {| id := id p; username := username p; phone := phone p; email := email p;
     xp := xp p; nights_out := nights_out p; bars_hit := bars_hit p;
     drunk_scale_ratings := drunk_scale_ratings p;
     last_night_out_date := last_night_out_date p;
     last_drunk_scale_date := last_drunk_scale_date p;
     profile_picture := profile_picture p; friends := friends p;
     friend_requests := friend_requests p; xp_activities := xp_activities p;
     visited_bars := visited_bars p; total_shots := total_shots p;
     total_beers := total_beers p; total_beer_towers := total_beer_towers p;
     total_funnels := total_funnels p; total_shotguns := total_shotguns p;
     pool_games_won := v; dart_games_won := dart_games_won p;
     photos_taken := photos_taken p;
     has_completed_onboarding := has_completed_onboarding p;
     created_at := created_at p; updated_at := updated_at p |}.

Definition with_dart_games_won (v : Z) (p : UserProfile) : UserProfile :=
  {| id := id p; username := username p; phone := phone p; email := email p;
     xp := xp p; nights_out := nights_out p; bars_hit := bars_hit p;
     drunk_scale_ratings := drunk_scale_ratings p;
     last_night_out_date := last_night_out_date p;
     last_drunk_scale_date := last_drunk_scale_date p;
     profile_picture := profile_picture p; friends := friends p;
     friend_requests := friend_requests p; xp_activities := xp_activities p;
     visited_bars := visited_bars p; total_shots := total_shots p;
     total_beers := total_beers p; total_beer_towers := total_beer_towers p;
     total_funnels := total_funnels p; total_shotguns := total_shotguns p;
     pool_games_won := pool_games_won p; dart_games_won := v;
     photos_taken := photos_taken p;
     has_completed_onboarding := has_completed_onboarding p;
     created_at := created_at p; updated_at := updated_at p |}.

Definition with_nights_out (v : Z) (p : UserProfile) : UserProfile :=
  {| id := id p; username := username p; phone := phone p; email := email p;
     xp := xp p; nights_out := v; bars_hit := bars_hit p;
     drunk_scale_ratings := drunk_scale_ratings p;
     last_night_out_date := last_night_out_date p;
     last_drunk_scale_date := last_drunk_scale_date p;
     profile_picture := profile_picture p; friends := friends p;
     friend_requests := friend_requests p; xp_activities := xp_activities p;
     visited_bars := visited_bars p; total_shots := total_shots p;
     total_beers := total_beers p; total_beer_towers := total_beer_towers p;
     total_funnels := total_funnels p; total_shotguns := total_shotguns p;
     pool_games_won := pool_games_won p; dart_games_won := dart_games_won p;
     photos_taken := photos_taken p;
     has_completed_onboarding := has_completed_onboarding p;
     created_at := created_at p; updated_at := updated_at p |}.

Definition with_last_night_out_date (v : option string) (p : UserProfile) : UserProfile :=
  {| id := id p; username := username p; phone := phone p; email := email p;
     xp := xp p; nights_out := nights_out p; bars_hit := bars_hit p;
     drunk_scale_ratings := drunk_scale_ratings p; last_night_out_date := v;
     last_drunk_scale_date := last_drunk_scale_date p;
     profile_picture := profile_picture p; friends := friends p;
     friend_requests := friend_requests p; xp_activities := xp_activities p;
     visited_bars := visited_bars p; total_shots := total_shots p;
     total_beers := total_beers p; total_beer_towers := total_beer_towers p;
     total_funnels := total_funnels p; total_shotguns := total_shotguns p;
     pool_games_won := pool_games_won p; dart_games_won := dart_games_won p;
     photos_taken := photos_taken p;
     has_completed_onboarding := has_completed_onboarding p;
     created_at := created_at p; updated_at := updated_at p |}.

Definition with_drunk_scale_ratings (v : list Z) (p : UserProfile) : UserProfile :=
  {| id := id p; username := username p; phone := phone p; email := email p;
     xp := xp p; nights_out := nights_out p; bars_hit := bars_hit p;
     drunk_scale_ratings := v; last_night_out_date := last_night_out_date p;
     last_drunk_scale_date := last_drunk_scale_date p;
     profile_picture := profile_picture p; friends := friends p;
     friend_requests := friend_requests p; xp_activities := xp_activities p;
     visited_bars := visited_bars p; total_shots := total_shots p;
     total_beers := total_beers p; total_beer_towers := total_beer_towers p;
     total_funnels := total_funnels p; total_shotguns := total_shotguns p;
     pool_games_won := pool_games_won p; dart_games_won := dart_games_won p;
     photos_taken := photos_taken p;
     has_completed_onboarding := has_completed_onboarding p;
     created_at := created_at p; updated_at := updated_at p |}.

Definition with_last_drunk_scale_date (v : option string) (p : UserProfile) : UserProfile :=
  {| id := id p; username := username p; phone := phone p; email := email p;
     xp := xp p; nights_out := nights_out p; bars_hit := bars_hit p;
     drunk_scale_ratings := drunk_scale_ratings p;
     last_night_out_date := last_night_out_date p;
     last_drunk_scale_date := v; profile_picture := profile_picture p;
     friends := friends p; friend_requests := friend_requests p;
     xp_activities := xp_activities p; visited_bars := visited_bars p;
     total_shots := total_shots p; total_beers := total_beers p;
     total_beer_towers := total_beer_towers p;
     total_funnels := total_funnels p; total_shotguns := total_shotguns p;
     pool_games_won := pool_games_won p; dart_games_won := dart_games_won p;
     photos_taken := photos_taken p;
     has_completed_onboarding := has_completed_onboarding p;
     created_at := created_at p; updated_at := updated_at p |}.

Definition with_profile_picture (v : option string) (p : UserProfile) : UserProfile :=
  {| id := id p; username := username p; phone := phone p; email := email p;
     xp := xp p; nights_out := nights_out p; bars_hit := bars_hit p;
     drunk_scale_ratings := drunk_scale_ratings p;
     last_night_out_date := last_night_out_date p;
     last_drunk_scale_date := last_drunk_scale_date p; profile_picture := v;
     friends := friends p; friend_requests := friend_requests p;
     xp_activities := xp_activities p; visited_bars := visited_bars p;
     total_shots := total_shots p; total_beers := total_beers p;
     total_beer_towers := total_beer_towers p;
     total_funnels := total_funnels p; total_shotguns := total_shotguns p;
     pool_games_won := pool_games_won p; dart_games_won := dart_games_won p;
     photos_taken := photos_taken p;
     has_completed_onboarding := has_completed_onboarding p;
     created_at := created_at p; updated_at := updated_at p |}.

Record UserProfileState : Type := {
  profile : option UserProfile;
  isLoading : bool;
  isUpdating : bool;
  profileReady : bool
}.

Definition XP_VALUES (type : XPType) : Z :=
  match type with
  | visit_new_bar => 15
  | participate_event => 50
  | bring_friend => 30
  | complete_night_out => 20
  | special_achievement => 75
  | live_music => 40
  | featured_drink => 20
  | bar_game => 35
  | photo_taken => 10
  | shots => 5
  | beers => 5
  | beer_towers => 15
  | funnels => 10
  | shotguns => 10
  | pool_games => 15
  | dart_games => 15
  | drunk_scale_submission => 25
  | like_bar => 5
  | check_in => 10
  end.

(** [a === b] and [a !== b] on numbers that may be NaN. *)
Definition strict_eq (a b : option Z) : bool :=
  match a, b with Some x, Some y => x =? y | _, _ => false end.

Definition strict_neq (a b : option Z) : bool := negb (strict_eq a b).

(** The actions of the store that work on the local profile only. *)
Inductive Action : Type :=
| AwardXP (now : Z) (activityId : string) (type : XPType)
    (description : string) (venueId : option string)
| IncrementNightsOut (now later : Z) (activityId : string)
| IncrementBarsHit (later : Z) (activityId : string)
| IncrementPhotosTaken (later : Z) (activityId : string)
| AddDrunkScaleRating (now later : Z) (activityId description : string)
    (rating : Z)
| CheckAndResetDrunkScaleIfNeeded (now : Z)
| CanSubmitDrunkScale (now : Z)
| SetProfilePicture (uri : string)
| SetProfileReady (ready : bool).

Section LocalZone.

Variable tz : Z.

Definition getFullYear (d : Date) : option Z :=
  option_map (fun t => YearFromTime (LocalTime tz t)) d.

Definition getMonth (d : Date) : option Z :=
  option_map (fun t => MonthFromTime (LocalTime tz t)) d.

Definition isSameDay (date1 date2 : string) : bool :=
  let d1 := Date_parse date1 in
  let d2 := Date_parse date2 in
  strict_eq (getFullYear d1) (getFullYear d2)
  && strict_eq (getMonth d1) (getMonth d2)
  && strict_eq (getDate tz d1) (getDate tz d2).

Definition hasPassedMidnight (now : Z) (lastSubmissionDate : option string) : bool :=
  if negb (truthy_opt lastSubmissionDate) then true
  else
    let lastSubmission :=
      Date_parse (match lastSubmissionDate with Some s => s | None => "" end) in
    let now : Date := Some now in
    if strict_neq (getDate tz lastSubmission) (getDate tz now)
       || strict_neq (getMonth lastSubmission) (getMonth now)
       || strict_neq (getFullYear lastSubmission) (getFullYear now)
    then true
    else false.

(** The local part of [updateProfile]: [updates] is the object spread over
    the current profile. *)
Definition updateProfile (updates : UserProfile -> UserProfile)
    (st : UserProfileState) : UserProfileState :=
  match profile st with
  | None => st
  | Some _ =>
      {| profile := option_map updates (profile st);
         isLoading := isLoading st;
         isUpdating := isUpdating st;
         profileReady := profileReady st |}
  end.

Definition setProfileReady (ready : bool) (st : UserProfileState) : UserProfileState :=
  {| profile := profile st;
     isLoading := isLoading st;
     isUpdating := isUpdating st;
     profileReady := ready |}.

Definition setProfilePicture (uri : string) (st : UserProfileState) : UserProfileState :=
  updateProfile (with_profile_picture (Some uri)) st.

(** [awardXP], at the clock reading [now] and with the random [activityId]. *)
Definition awardXP (now : Z) (activityId : string) (type : XPType)
    (description : string) (venueId : option string) (st : UserProfileState)
  : UserProfileState :=
  match profile st with
  | None => st
  | Some profile =>
      let xpAmount := XP_VALUES type in
      if xpAmount =? 0 then st
      else
        let newActivity :=
          {| XPActivity.id := activityId;
             XPActivity.type := type;
             XPActivity.xpAwarded := xpAmount;
             XPActivity.timestamp := toISOString now;
             XPActivity.description := description |} in
        let currentXPActivities := xp_activities profile in
        let updates (p : UserProfile) :=
          with_xp_activities (currentXPActivities ++ [newActivity])
            (with_xp (num_or (xp profile) 0 + xpAmount) p) in
        let updates :=
          match type with
          | visit_new_bar =>
              match venueId with
              | Some venue =>
                  if truthy venue
                     && negb (existsb (String.eqb venue) (visited_bars profile))
                  then
                    fun p =>
                      with_bars_hit (num_or (bars_hit profile) 0 + 1)
                        (with_visited_bars (visited_bars profile ++ [venue])
                           (updates p))
                  else updates
              | None => updates
              end
          | photo_taken =>
              fun p => with_photos_taken (num_or (photos_taken profile) 0 + 1) (updates p)
          | pool_games =>
              fun p => with_pool_games_won (num_or (pool_games_won profile) 0 + 1) (updates p)
          | dart_games =>
              fun p => with_dart_games_won (num_or (dart_games_won profile) 0 + 1) (updates p)
          | _ => updates
          end in
        updateProfile updates st
  end.

Definition canIncrementNightsOut (now : Z) (st : UserProfileState) : bool :=
  match profile st with
  | None => true
  | Some profile =>
      let today := toISOString now in
      match last_night_out_date profile with
      | None => true
      | Some last => negb (truthy last) || negb (isSameDay last today)
      end
  end.

(** [incrementNightsOut], called at [now]; the XP is awarded at [later]. *)
Definition incrementNightsOut (now later : Z) (activityId : string)
    (st : UserProfileState) : UserProfileState :=
  match profile st with
  | None => st
  | Some profile =>
      let today := toISOString now in
      if match last_night_out_date profile with
         | None => true
         | Some last => negb (truthy last) || negb (isSameDay last today)
         end
      then
        let newNightsOut := nights_out profile + 1 in
        let st :=
          updateProfile
            (fun p => with_last_night_out_date (Some today)
                        (with_nights_out newNightsOut p)) st in
        awardXP later activityId complete_night_out "Completed a night out" None st
      else st
  end.

Definition incrementBarsHit (later : Z) (activityId : string)
    (st : UserProfileState) : UserProfileState :=
  match profile st with
  | None => st
  | Some profile =>
      let newBarsHit := num_or (bars_hit profile) 0 + 1 in
      let st := updateProfile (with_bars_hit newBarsHit) st in
      awardXP later activityId visit_new_bar "Visited a new bar" None st
  end.

Definition incrementPhotosTaken (later : Z) (activityId : string)
    (st : UserProfileState) : UserProfileState :=
  match profile st with
  | None => st
  | Some profile =>
      let newPhotosTaken := num_or (photos_taken profile) 0 + 1 in
      let st := updateProfile (with_photos_taken newPhotosTaken) st in
      awardXP later activityId photo_taken "Took a photo" None st
  end.

(** [addDrunkScaleRating]; [description] stands for the text
    [Submitted drunk scale rating: ${rating}/5]. *)
Definition addDrunkScaleRating (now later : Z) (activityId description : string)
    (rating : Z) (st : UserProfileState) : UserProfileState :=
  match profile st with
  | None => st
  | Some profile =>
      let today := toISOString now in
      let currentRatings := drunk_scale_ratings profile in
      let st :=
        updateProfile
          (fun p => with_last_drunk_scale_date (Some today)
                      (with_drunk_scale_ratings (currentRatings ++ [rating]) p)) st in
      awardXP later activityId drunk_scale_submission description None st
  end.

Definition checkAndResetDrunkScaleIfNeeded (now : Z) (st : UserProfileState)
  : UserProfileState :=
  match profile st with
  | None => st
  | Some profile =>
      if hasPassedMidnight now (last_drunk_scale_date profile)
      then updateProfile (with_last_drunk_scale_date None) st
      else st
  end.

Definition canSubmitDrunkScale (now : Z) (st : UserProfileState)
  : bool * UserProfileState :=
  match profile st with
  | None => (true, st)
  | Some profile =>
      let st := checkAndResetDrunkScaleIfNeeded now st in
      (hasPassedMidnight now (last_drunk_scale_date profile), st)
  end.

(** One call of an action of the store; [CanSubmitDrunkScale] is listed for
    the update it makes. *)
Definition perform (a : Action) (st : UserProfileState) : UserProfileState :=
  match a with
  | AwardXP now activityId type description venueId =>
      awardXP now activityId type description venueId st
  | IncrementNightsOut now later activityId =>
      incrementNightsOut now later activityId st
  | IncrementBarsHit later activityId => incrementBarsHit later activityId st
  | IncrementPhotosTaken later activityId =>
      incrementPhotosTaken later activityId st
  | AddDrunkScaleRating now later activityId description rating =>
      addDrunkScaleRating now later activityId description rating st
  | CheckAndResetDrunkScaleIfNeeded now => checkAndResetDrunkScaleIfNeeded now st
  | CanSubmitDrunkScale now => snd (canSubmitDrunkScale now st)
  | SetProfilePicture uri => setProfilePicture uri st
  | SetProfileReady ready => setProfileReady ready st
  end.

Definition run (l : list Action) (st : UserProfileState) : UserProfileState :=
  fold_left (fun st a => perform a st) l st.

End LocalZone.

(** The local day number of a time value. *)
Definition local_day (tz t : Z) : Z := Day (t + tz).

(** The XP recorded by a list of activities. *)
Definition xp_recorded (l : list XPActivity.t) : Z :=
  fold_right (fun a s => XPActivity.xpAwarded a + s) 0 l.

(** [venueId] names a bar that the profile has not yet listed. *)
Definition new_venue (venueId : option string) (p : UserProfile) : bool :=
  match venueId with
  | Some v => truthy v && negb (existsb (String.eqb v) (visited_bars p))
  | None => false
  end.

(** The visited bars are listed once each and are all counted in
    [bars_hit]. *)
Definition visited_ok (st : UserProfileState) : Prop :=
  match profile st with
  | Some p =>
      NoDup (visited_bars p)
      /\ Z.of_nat (List.length (visited_bars p)) <= bars_hit p
  | None => True
  end.

(** [st'] has the activities of [st] and then [l]; its XP is higher by what
    [l] records. *)
Definition awarded (l : list XPActivity.t) (st st' : UserProfileState) : Prop :=
  match profile st, profile st' with
  | Some p, Some p' =>
      xp_activities p' = xp_activities p ++ l
      /\ xp p' = xp p + xp_recorded l
  | None, None => l = []
  | _, _ => False
  end.

(** Every activity of [l] records a positive amount of XP. *)
Definition positive_awards (l : list XPActivity.t) : Prop :=
  Forall (fun a => 0 < XPActivity.xpAwarded a) l.

(** A profile for the examples: a new user. *)
Definition new_profile : UserProfile :=
  {| id := "u1"; username := "guest"; phone := ""; email := None; xp := 0;
     nights_out := 0; bars_hit := 0; drunk_scale_ratings := [];
     last_night_out_date := None; last_drunk_scale_date := None;
     profile_picture := None; friends := []; friend_requests := [];
     xp_activities := []; visited_bars := []; total_shots := 0;
     total_beers := 0; total_beer_towers := 0; total_funnels := 0;
     total_shotguns := 0; pool_games_won := 0; dart_games_won := 0;
     photos_taken := 0; has_completed_onboarding := false;
     created_at := ""; updated_at := "" |}.

Definition new_state : UserProfileState :=
  {| profile := Some new_profile; isLoading := false; isUpdating := false;
     profileReady := true |}.

End Profile.

(** ** Debounced calls (debounce, debouncedAwardXP)

    [debounce func wait] keeps one timer in its variable [timeout].  A call
    clears the timer and sets a new one, due [wait] milliseconds later, whose
    callback holds the arguments of that call; the timer runs [func] on them
    when the event loop next handles timers with the clock at or past the due
    time.  [Elapse now env] is such a turn of the event loop, [env] being what
    [func] draws from its surroundings when it runs (the clock, random
    identifiers). *)

Module Debounce.

Section Debounce.

Context {Args Env State : Type}.
Variable func : Env -> Args -> State -> State.
Variable wait : Z.

(** The pending timer: its due time and the arguments of its callback. *)
Definition Timer : Type := option (Z * Args).

Inductive Event : Type :=
| Invoke (now : Z) (args : Args)
| Elapse (now : Z) (env : Env).

Definition time_of (e : Event) : Z :=
  match e with Invoke now _ => now | Elapse now _ => now end.

Definition step (e : Event) (s : Timer * State) : Timer * State :=
  match e with
  | Invoke now args => (Some (now + wait, args), snd s)
  | Elapse now env =>
      match fst s with
      | Some (due, args) =>
          if due <=? now then (None, func env args (snd s)) else s
      | None => s
      end
  end.

Definition run (trace : list Event) (s : Timer * State) : Timer * State :=
  fold_left (fun s e => step e s) trace s.

(** The events of [trace] happen at clock readings that do not go back,
    from [t] on. *)
Fixpoint in_order (t : Z) (trace : list Event) : Prop :=
  match trace with
  | [] => True
  | e :: trace => t <= time_of e /\ in_order (time_of e) trace
  end.

(** Every call of [trace] comes less than [wait] after the call before it,
    the last call before [trace] being at [t]. *)
Fixpoint burst (t : Z) (trace : list Event) : Prop :=
  match trace with
  | [] => True
  | Invoke now _ :: trace => now < t + wait /\ burst now trace
  | Elapse _ _ :: trace => burst t trace
  end.

(** The time and the arguments of the last call, [(t, a)] if [trace] has
    none. *)
Fixpoint last_call (t : Z) (a : Args) (trace : list Event) : Z * Args :=
  match trace with
  | [] => (t, a)
  | Invoke now args :: trace => last_call now args trace
  | Elapse _ _ :: trace => last_call t a trace
  end.

End Debounce.

End Debounce.

(** The function that [debouncedAwardXP] runs when its timer fires, the
    profile store being registered; [aid1] and [aid2] are the random
    identifiers of the two activities. *)
Definition debouncedAwardXP_fire (now : Z) (aid1 aid2 : string)
    (venueId : string) (isNewBar : bool) (st : Profile.UserProfileState)
  : Profile.UserProfileState :=
  let profile := Profile.profile st in
  let st :=
    Profile.awardXP now aid1 Profile.check_in "Checked in at venue"
      (Some venueId) st in
  if isNewBar
     || negb (match profile with
              | Some p => existsb (String.eqb venueId) (Profile.visited_bars p)
              | None => false
              end)
  then
    Profile.awardXP now aid2 Profile.visit_new_bar "Visited a new bar"
      (Some venueId) st
  else st.

(** [debouncedAwardXP] is [debounce] of that function with 300 ms. *)
Definition debouncedAwardXP_wait : Z := 300.

Definition debouncedAwardXP_func (env : Z * (string * string))
    (args : string * bool) (st : Profile.UserProfileState)
  : Profile.UserProfileState :=
  debouncedAwardXP_fire (fst env) (fst (snd env)) (snd (snd env))
    (fst args) (snd args) st.

(** ** Predicates used in the statements *)

(** The daily like quota of an entry is within its bounds. *)
Definition quota_ok (i : option VenueInteraction) : Prop :=
  match i with
  | Some r => 0 <= dailyLikesUsed r <= DAILY_LIKE_LIMIT
  | None => True
  end.

(** [canLikeVenue] reads the like window from [lastLikeReset || lastReset],
    [likeVenue] from [lastLikeReset] alone; on this entry both agree. *)
Definition like_window_agrees (tz now : Z) (i : option VenueInteraction) : Prop :=
  match i with
  | Some r =>
      shouldResetLikes tz now (str_or (lastLikeReset r) (lastReset r))
      = shouldResetLikes tz now (lastLikeReset r)
  | None => True
  end.

(** No window of the entry has elapsed at [now]. *)
Definition settled (tz now : Z) (i : option VenueInteraction) : Prop :=
  needs_reset tz now i = false /\ needs_like_reset tz now i = false.

(** The instant at which the local day of [now] reaches [hour]:[min]. *)
Definition boundary (tz now hour min : Z) : Z :=
  Day (now + tz) * msPerDay + (hour * msPerHour + min * msPerMinute) - tz.

(** Today's visit-reset boundary (05:00:00 local) and today's like-reset
    boundary (04:59:00 local), for the local day of [now]. *)
Definition visitBoundary (tz now : Z) : Z := boundary tz now RESET_HOUR 0.

Definition likeBoundary (tz now : Z) : Z :=
  boundary tz now LIKE_RESET_HOUR LIKE_RESET_MINUTE.

(** The first like-reset boundary after the instant [t]. *)
Definition nextLikeBoundary (tz t : Z) : Z :=
  if likeBoundary tz t <=? t then likeBoundary tz t + msPerDay
  else likeBoundary tz t.

(** Among entries with equal likes the one with the smaller venue
    identifier comes first. *)
Definition ties_by_identifier (l : list (string * Z)) : Prop :=
  forall i j a b,
    nth_error l i = Some a -> nth_error l j = Some b ->
    snd a = snd b -> (fst a <? fst b)%string = true -> (i < j)%nat.

(** [a] has at least as many likes as [b]. *)
Definition more_likes (a b : string * Z) : Prop := snd b <= snd a.

(** The venues with an identifier and their likes, in the order of the store. *)
Definition venues_in_store (st : VenueInteractionState) : list (string * Z) :=
  flat_map venue_likes (filter has_venueId (interactions st)).


(** The visits that the entries [l] record for the arrival slot [slot]. *)
Fixpoint slot_visits (slot : string) (l : list (option VenueInteraction)) : Z :=
  match l with
  | [] => 0
  | Some r :: l' =>
      match arrivalTime r with
      | Some s => if (s =? slot)%string then count r + slot_visits slot l'
                  else slot_visits slot l'
      | None => slot_visits slot l'
      end
  | None :: l' => slot_visits slot l'
  end.


(** The fields of an entry that no window reset writes. *)
Definition kept_fields (i : option VenueInteraction)
  : option (string * Z * string * string) :=
  option_map (fun r => (venueId r, likes r, lastInteraction r, timestamp r)) i.

(** ** Invariants of the store *)

(** The venue identifiers of the entries, in the order of the store. *)
Definition entry_id (i : option VenueInteraction) : list string :=
  match i with Some r => [venueId r] | None => [] end.

Definition venue_ids (l : list (option VenueInteraction)) : list string :=
  flat_map entry_id l.

(** One entry per venue, and no entry under the empty identifier. *)
Definition well_keyed (st : VenueInteractionState) : Prop :=
  NoDup (venue_ids (interactions st)) /\
  Forall (fun id => truthy id = true) (venue_ids (interactions st)).

(** Counts are not negative, and an arrival slot is only kept with a
    positive visit count. *)
Definition counts_ok (i : option VenueInteraction) : Prop :=
  match i with
  | Some r =>
      0 <= count r /\ 0 <= likes r /\
      (truthy_opt (arrivalTime r) = true -> 0 < count r)
  | None => True
  end.

(** A string [new Date] reads as a date. *)
Definition readable (s : string) : Prop := Date_parse s <> None.

(** Every timestamp of the entry is readable; [lastInteraction] may also be
    the empty string of an entity that was liked but never visited. *)
Definition stamps_ok (i : option VenueInteraction) : Prop :=
  match i with
  | Some r =>
      readable (lastReset r) /\ readable (lastLikeReset r) /\
      readable (timestamp r) /\
      (lastInteraction r = ""%string \/ readable (lastInteraction r))
  | None => True
  end.

(** The entities with a non-empty identifier and at least one like. *)
Definition is_liked_bar (i : option VenueInteraction) : bool :=
  match i with
  | Some r => truthy (venueId r) && (0 <? likes r)
  | None => false
  end.




(** The likes of the entries [l] whose arrival slot is [slot]. *)
Fixpoint slot_arrival_likes (slot : string) (l : list (option VenueInteraction)) : Z :=
  match l with
  | [] => 0
  | Some r :: l' =>
      match arrivalTime r with
      | Some s => if (s =? slot)%string then likes r + slot_arrival_likes slot l'
                  else slot_arrival_likes slot l'
      | None => slot_arrival_likes slot l'
      end
  | None :: l' => slot_arrival_likes slot l'
  end.

(** The rows before the peaks are marked, and the three rows ranked first. *)
Definition rows_of (current : string) (entries : list (option VenueInteraction))
    (slots : list string) : list SlotRow.t :=
  map (slot_row current entries) slots.

Definition top_of (rows : list SlotRow.t) : list SlotRow.t :=
  firstn 3 (sort (fun a b => SlotRow.visits b - SlotRow.visits a)
              (filter has_time rows)).

(** ** Sample stores *)

(** 2024-11-02T18:55:23.456Z and 2024-11-02T04:30:00.000Z *)
Definition T0 : Z := 1730573723456.
Definition T_early : Z := 1730521800000.

Definition sample_entry (v : string) (c : Z) (slot : option string) (l : Z)
  : option VenueInteraction :=
  Some {| venueId := v; count := c; lastReset := toISOString T0;
          lastInteraction := toISOString T0; arrivalTime := slot; likes := l;
          timestamp := toISOString T0; lastLikeReset := toISOString T0;
          dailyLikesUsed := 0; likeTimeSlot := None |}.

(** A store whose entry for "bar1" carries an unreadable [lastInteraction]. *)
Definition corrupt_store : VenueInteractionState :=
  {| interactions :=
       [Some {| venueId := "bar1"; count := 1; lastReset := toISOString T0;
                lastInteraction := "corrupted"; arrivalTime := None; likes := 0;
                timestamp := toISOString T0; lastLikeReset := toISOString T0;
                dailyLikesUsed := 0; likeTimeSlot := None |}] |}.

(** A store in which "bar1" has 3 visits at 22:00, 3 at 21:00, 2 at 20:00. *)
Definition tied_store : VenueInteractionState :=
  {| interactions :=
       [sample_entry "bar1" 3 (Some "22:00"%string) 0;
        sample_entry "bar1" 3 (Some "21:00"%string) 0;
        sample_entry "bar1" 2 (Some "20:00"%string) 0] |}.

(** * Facts about the Date model *)

Module JSDateFacts.

Lemma leap_step4 y :
  (y + 1 - 1969) / 4 = (y - 1969) / 4 + (if y mod 4 =? 0 then 1 else 0).
Proof. destruct (Z.eqb_spec (y mod 4) 0); Z.to_euclidean_division_equations; lia. Qed.

Lemma leap_step100 y :
  (y + 1 - 1901) / 100 = (y - 1901) / 100 + (if y mod 100 =? 0 then 1 else 0).
Proof. destruct (Z.eqb_spec (y mod 100) 0); Z.to_euclidean_division_equations; lia. Qed.

Lemma leap_step400 y :
  (y + 1 - 1601) / 400 = (y - 1601) / 400 + (if y mod 400 =? 0 then 1 else 0).
Proof. destruct (Z.eqb_spec (y mod 400) 0); Z.to_euclidean_division_equations; lia. Qed.

Lemma mod_of_multiple y a b : 0 < a -> 0 < b -> y mod (a * b) = 0 -> y mod b = 0.
Proof.
  intros Ha Hb H. pose proof (Z.div_mod y (a * b) ltac:(lia)) as E. rewrite H in E.
  replace y with (a * (y / (a * b)) * b) at 1 by lia. apply Z.mod_mul. lia.
Qed.

Lemma DayFromYear_succ y : DayFromYear (y + 1) = DayFromYear y + DaysInYear y.
Proof.
  unfold DayFromYear, DaysInYear.
  rewrite leap_step4, leap_step100, leap_step400.
  pose proof (mod_of_multiple y 25 4 ltac:(lia) ltac:(lia)) as H1.
  pose proof (mod_of_multiple y 4 100 ltac:(lia) ltac:(lia)) as H2.
  change (25 * 4) with 100 in H1. change (4 * 100) with 400 in H2.
  destruct (Z.eqb_spec (y mod 4) 0), (Z.eqb_spec (y mod 100) 0),
    (Z.eqb_spec (y mod 400) 0); cbn [negb]; lia.
Qed.

Lemma DaysInYear_range y : DaysInYear y = 365 \/ DaysInYear y = 366.
Proof.
  unfold DaysInYear.
  destruct (y mod 4 =? 0), (y mod 100 =? 0), (y mod 400 =? 0); cbn; auto.
Qed.

Lemma DayFromYear_mono a b : a <= b -> DayFromYear a <= DayFromYear b.
Proof.
  intros H. replace b with (a + Z.of_nat (Z.to_nat (b - a))) by lia.
  induction (Z.to_nat (b - a)) as [|n IH].
  - replace (a + Z.of_nat 0) with a by lia. lia.
  - replace (a + Z.of_nat (S n)) with (a + Z.of_nat n + 1) by lia.
    rewrite DayFromYear_succ.
    destruct (DaysInYear_range (a + Z.of_nat n)); lia.
Qed.

Lemma year_search_spec fuel : forall y d,
  DayFromYear y <= d -> d < DayFromYear (y + Z.of_nat fuel) ->
  DayFromYear (year_search fuel y d) <= d < DayFromYear (year_search fuel y d + 1).
Proof.
  induction fuel as [|f IH]; intros y d Hlo Hhi.
  - replace (y + Z.of_nat 0) with y in Hhi by lia. lia.
  - cbn [year_search]. destruct (Z.ltb_spec d (DayFromYear (y + 1))).
    + lia.
    + apply IH; [lia|].
      replace (y + 1 + Z.of_nat f) with (y + Z.of_nat (S f)) by lia. exact Hhi.
Qed.

Lemma year_lower d :
  DayFromYear (1970 + (if 0 <=? d then d / 366 else d / 365)) <= d.
Proof.
  unfold DayFromYear.
  destruct (Z.leb_spec 0 d); Z.to_euclidean_division_equations; lia.
Qed.

Lemma year_upper d :
  d < DayFromYear (1970 + (if 0 <=? d then d / 366 else d / 365)
                   + (Z.abs d / 100000 + 4)).
Proof.
  unfold DayFromYear.
  destruct (Z.leb_spec 0 d); Z.to_euclidean_division_equations; lia.
Qed.

(** [YearFromDay d] is the year that contains day [d]. *)
Lemma YearFromDay_spec d :
  DayFromYear (YearFromDay d) <= d < DayFromYear (YearFromDay d + 1).
Proof.
  unfold YearFromDay. apply year_search_spec.
  - apply year_lower.
  - rewrite Z2Nat.id by (Z.to_euclidean_division_equations; lia).
    apply year_upper.
Qed.

Lemma DayWithinYear_range t :
  0 <= DayWithinYear t < DaysInYear (YearFromTime t).
Proof.
  unfold DayWithinYear, YearFromTime.
  pose proof (YearFromDay_spec (Day t)) as H.
  rewrite DayFromYear_succ in H. lia.
Qed.

Lemma InLeapYear_range t : InLeapYear t = 0 \/ InLeapYear t = 1.
Proof. unfold InLeapYear. destruct (DaysInYear_range (YearFromTime t)); lia. Qed.

Lemma month_of_day_spec leap d :
  (leap = 0 \/ leap = 1) -> 0 <= d < 365 + leap ->
  0 <= month_of_day leap d <= 11 /\
  1 <= d - month_start leap (month_of_day leap d) + 1 <= 31.
Proof.
  intros Hl Hd. unfold month_of_day.
  destruct Hl; subst leap;
  repeat match goal with
         | |- context [?a <? ?b] => destruct (Z.ltb_spec a b)
         end;
  match goal with
  | |- context [month_start ?l ?m] =>
      let v := eval vm_compute in (month_start l m) in
      change (month_start l m) with v
  end; lia.
Qed.

Lemma MonthFromTime_range t : 0 <= MonthFromTime t <= 11.
Proof.
  unfold MonthFromTime.
  apply month_of_day_spec; [apply InLeapYear_range|].
  pose proof (DayWithinYear_range t). unfold InLeapYear. lia.
Qed.

Lemma DateFromTime_range t : 1 <= DateFromTime t <= 31.
Proof.
  unfold DateFromTime, MonthFromTime.
  apply month_of_day_spec; [apply InLeapYear_range|].
  pose proof (DayWithinYear_range t). unfold InLeapYear. lia.
Qed.

(** [MakeDay] inverts the calendar fields, also for a shifted day of month. *)
Lemma MakeDay_fields t k :
  MakeDay (YearFromTime t) (MonthFromTime t) (DateFromTime t + k) = Day t + k.
Proof.
  pose proof (MonthFromTime_range t) as Hm.
  unfold MakeDay.
  rewrite (Z.div_small (MonthFromTime t) 12) by lia.
  rewrite (Z.mod_small (MonthFromTime t) 12) by lia.
  rewrite Z.add_0_r.
  unfold DateFromTime, DayWithinYear, InLeapYear. lia.
Qed.

Lemma MakeTime_fields t :
  MakeTime (HourFromTime t) (MinFromTime t) (SecFromTime t) (msFromTime t)
  = TimeWithinDay t.
Proof.
  unfold MakeTime, HourFromTime, MinFromTime, SecFromTime, msFromTime,
    TimeWithinDay, msPerHour, msPerMinute, msPerSecond, msPerDay.
  Z.to_euclidean_division_equations; lia.
Qed.

Lemma MakeDate_Day t : MakeDate (Day t) (TimeWithinDay t) = t.
Proof.
  unfold MakeDate, Day, TimeWithinDay, msPerDay.
  Z.to_euclidean_division_equations; lia.
Qed.

Lemma TimeClip_valid t : valid_time t -> TimeClip t = Some t.
Proof.
  unfold valid_time, TimeClip. intros H.
  destruct (Z.leb_spec (Z.abs t) maxTime); [reflexivity | lia].
Qed.

Lemma TimeClip_Some t u : TimeClip t = Some u -> u = t.
Proof. unfold TimeClip. destruct (Z.abs t <=? maxTime); congruence. Qed.

(** *** Decimal fields *)

Lemma digit_val_digit d : 0 <= d <= 9 -> digit_val (digit d) = Some d.
Proof.
  intros H.
  assert (d = 0 \/ d = 1 \/ d = 2 \/ d = 3 \/ d = 4 \/ d = 5 \/ d = 6 \/ d = 7
          \/ d = 8 \/ d = 9) as C by lia.
  repeat (destruct C as [C | C]; [subst d; reflexivity|]). subst d; reflexivity.
Qed.

Lemma digit_not_sign d c :
  0 <= d <= 9 -> c = "+"%char \/ c = "-"%char -> Ascii.eqb (digit d) c = false.
Proof.
  intros H Hc.
  assert (d = 0 \/ d = 1 \/ d = 2 \/ d = 3 \/ d = 4 \/ d = 5 \/ d = 6 \/ d = 7
          \/ d = 8 \/ d = 9) as C by lia.
  destruct Hc; subst c;
    repeat (destruct C as [C | C]; [subst d; reflexivity|]); subst d; reflexivity.
Qed.

Lemma take_num_pad w : forall n acc rest,
  0 <= n ->
  take_num w acc (pad w n ++ rest)
  = Some (acc * 10 ^ Z.of_nat w + n mod 10 ^ Z.of_nat w, rest).
Proof.
  induction w as [|w IH]; intros n acc rest Hn.
  - cbn. rewrite Z.mod_1_r. do 2 f_equal. lia.
  - cbn [pad String.append take_num].
    assert (0 < 10 ^ Z.of_nat w) as Hp by (apply Z.pow_pos_nonneg; lia).
    rewrite digit_val_digit
      by (pose proof (Z.mod_pos_bound (n / 10 ^ Z.of_nat w) 10); lia).
    rewrite IH by exact Hn. do 2 f_equal.
    rewrite Nat2Z.inj_succ, Z.pow_succ_r by lia.
    rewrite (Z.mul_comm 10), Z.rem_mul_r by lia. lia.
Qed.

Lemma take_num_pad0 w n rest :
  0 <= n < 10 ^ Z.of_nat w -> take_num w 0 (pad w n ++ rest) = Some (n, rest).
Proof.
  intros H. rewrite take_num_pad by lia. rewrite Z.mod_small by lia.
  reflexivity.
Qed.

Lemma take_year_year_string y rest :
  -999999 <= y <= 999999 ->
  take_year (year_string y ++ rest) = Some (y, rest).
Proof.
  intros Hy. unfold year_string.
  destruct (Z.leb_spec 0 y) as [Hpos | Hneg]; cbn [andb].
  - destruct (Z.leb_spec y 9999) as [Hsmall | Hbig].
    + change (take_year (pad 4 y ++ rest))
        with (take_year (String (digit ((y / 10 ^ 3) mod 10)) (pad 3 y ++ rest))).
      cbn [take_year].
      rewrite !digit_not_sign
        by (auto; pose proof (Z.mod_pos_bound (y / 10 ^ 3) 10); lia).
      change (String (digit ((y / 10 ^ 3) mod 10)) (pad 3 y ++ rest))
        with (pad 4 y ++ rest)%string.
      apply take_num_pad0. cbn. lia.
    + cbn [String.append take_year Ascii.eqb Bool.eqb].
      rewrite take_num_pad0 by (cbn; lia). f_equal. f_equal. lia.
  - cbn [String.append take_year Ascii.eqb Bool.eqb].
    rewrite take_num_pad0 by (cbn; lia).
    destruct (Z.eqb_spec (Z.abs y) 0); [lia|]. f_equal. f_equal. lia.
Qed.

Lemma year_of_valid_time t :
  valid_time t -> -999999 <= YearFromTime t <= 999999.
Proof.
  unfold valid_time, maxTime, YearFromTime. intros H.
  pose proof (YearFromDay_spec (Day t)) as Hy.
  assert (-100000000 <= Day t <= 100000000) as Hd
    by (unfold Day, msPerDay; Z.to_euclidean_division_equations; lia).
  assert (DayFromYear (-999999) < -100000000) as Hlo by reflexivity.
  assert (100000000 < DayFromYear 999999) as Hhi by reflexivity.
  split.
  - destruct (Z.le_gt_cases (-999999) (YearFromDay (Day t))); [assumption|].
    pose proof (DayFromYear_mono (YearFromDay (Day t) + 1) (-999999) ltac:(lia)).
    lia.
  - destruct (Z.le_gt_cases (YearFromDay (Day t)) 999999); [assumption|].
    pose proof (DayFromYear_mono 999999 (YearFromDay (Day t)) ltac:(lia)).
    lia.
Qed.

(** *** [Date.parse] reads back what [toISOString] writes *)

Theorem Date_parse_toISOString t :
  valid_time t -> Date_parse (toISOString t) = Some t.
Proof.
  intros Hv. unfold toISOString, Date_parse.
  pose proof (MonthFromTime_range t) as Hm.
  pose proof (DateFromTime_range t) as Hd.
  assert (0 <= HourFromTime t < 24) as Hh by (apply Z.mod_pos_bound; lia).
  assert (0 <= MinFromTime t < 60) as Hmi by (apply Z.mod_pos_bound; lia).
  assert (0 <= SecFromTime t < 60) as Hs by (apply Z.mod_pos_bound; lia).
  assert (0 <= msFromTime t < 1000) as Hms by (apply Z.mod_pos_bound; reflexivity).
  rewrite take_year_year_string by (apply year_of_valid_time; exact Hv).
  cbn [String.append expect]. rewrite !Ascii.eqb_refl.
  rewrite take_num_pad0 by (cbn; lia).
  cbn [String.append expect]. rewrite !Ascii.eqb_refl.
  rewrite take_num_pad0 by (cbn; lia).
  cbn [String.append expect]. rewrite !Ascii.eqb_refl.
  rewrite take_num_pad0 by (cbn; lia).
  cbn [String.append expect]. rewrite !Ascii.eqb_refl.
  rewrite take_num_pad0 by (cbn; lia).
  cbn [String.append expect]. rewrite !Ascii.eqb_refl.
  rewrite take_num_pad0 by (cbn; lia).
  cbn [String.append expect]. rewrite !Ascii.eqb_refl.
  rewrite take_num_pad0 by (cbn; lia).
  cbn [String.append expect]. rewrite !Ascii.eqb_refl.
  unfold in_range.
  replace (MonthFromTime t + 1 - 1) with (MonthFromTime t) by lia.
  pose proof (MakeDay_fields t 0) as Hday. rewrite Z.add_0_r in Hday.
  rewrite Z.add_0_r in Hday. rewrite Hday, MakeTime_fields, MakeDate_Day.
  rewrite TimeClip_valid by exact Hv.
  repeat match goal with
         | |- context [?a <=? ?b] => destruct (Z.leb_spec a b); try lia
         end.
  reflexivity.
Qed.

Lemma toISOString_truthy t : truthy (toISOString t) = true.
Proof.
  unfold toISOString, year_string.
  destruct ((0 <=? YearFromTime t) && (YearFromTime t <=? 9999));
    [|destruct (0 <=? YearFromTime t)]; reflexivity.
Qed.

Lemma Date_parse_empty : Date_parse "" = None.
Proof. reflexivity. Qed.

End JSDateFacts.

Import JSDateFacts.

(** *** The local-time setters, in terms of time values *)

Lemma setHours_getHours_plus tz t k :
  setHours tz (Some t) (option_map (fun h => h + k) (getHours tz (Some t)))
  = TimeClip (t + k * msPerHour).
Proof.
  cbn [getHours option_map setHours]. f_equal.
  unfold UTC, LocalTime.
  pose proof (MakeTime_fields (t + tz)) as Ht.
  pose proof (MakeDate_Day (t + tz)) as Hd.
  unfold MakeDate, MakeTime in *. lia.
Qed.

Lemma setDate_getDate_minus_1 tz t :
  setDate tz (Some t) (option_map (fun d => d - 1) (getDate tz (Some t)))
  = TimeClip (t - msPerDay).
Proof.
  cbn [getDate option_map setDate]. f_equal.
  unfold UTC, LocalTime.
  replace (DateFromTime (t + tz) - 1) with (DateFromTime (t + tz) + -1) by lia.
  rewrite MakeDay_fields.
  pose proof (MakeDate_Day (t + tz)) as Hd.
  unfold MakeDate in *. lia.
Qed.

Lemma setHours4_boundary tz now hour min :
  setHours4 tz (Some now) hour min 0 0 = TimeClip (boundary tz now hour min).
Proof.
  cbn [setHours4]. f_equal.
  unfold UTC, LocalTime, boundary, MakeDate, MakeTime. lia.
Qed.

Lemma boundary_near tz now hour min :
  0 <= hour * msPerHour + min * msPerMinute < msPerDay ->
  now - msPerDay < boundary tz now hour min <= now + msPerDay.
Proof.
  unfold boundary, Day, msPerDay, msPerHour, msPerMinute. intros H.
  Z.to_euclidean_division_equations; lia.
Qed.

(** *** The time-window predicates, in terms of time values *)

Lemma shouldReset_eq tz now s :
  shouldReset tz now s =
  match TimeClip (visitBoundary tz now), Date_parse s with
  | Some b, Some l => (b <=? now) && (l <? b)
  | _, _ => false
  end.
Proof.
  unfold shouldReset. rewrite setHours4_boundary. fold (visitBoundary tz now).
  destruct (TimeClip (visitBoundary tz now)), (Date_parse s); cbn;
    try reflexivity.
  apply andb_false_r.
Qed.

Lemma shouldResetLikes_eq tz now s :
  shouldResetLikes tz now s =
  match TimeClip (likeBoundary tz now), Date_parse s with
  | Some b, Some l =>
      if b <=? now then l <? b
      else match TimeClip (b - msPerDay) with
           | Some y => l <? y
           | None => false
           end
  | _, _ => false
  end.
Proof.
  unfold shouldResetLikes. rewrite setHours4_boundary.
  fold (likeBoundary tz now).
  destruct (TimeClip (likeBoundary tz now)) as [b|]; [|reflexivity].
  rewrite setDate_getDate_minus_1.
  destruct (Date_parse s) as [l|]; cbn [date_ge date_lt].
  - destruct (Z.leb_spec b now); cbn [andb].
    + destruct (l <? b) eqn:E; [reflexivity|].
      destruct (Z.ltb_spec now b); [lia | reflexivity].
    + destruct (Z.ltb_spec now b); [|lia].
      destruct (TimeClip (b - msPerDay)); reflexivity.
  - rewrite andb_false_r. destruct (now <? b); [|reflexivity].
    destruct (TimeClip (b - msPerDay)); reflexivity.
Qed.

Lemma shouldReset_malformed tz now s :
  Date_parse s = None -> shouldReset tz now s = false.
Proof.
  intros H. rewrite shouldReset_eq, H.
  destruct (TimeClip (visitBoundary tz now)); reflexivity.
Qed.

Lemma shouldResetLikes_malformed tz now s :
  Date_parse s = None -> shouldResetLikes tz now s = false.
Proof.
  intros H. rewrite shouldResetLikes_eq, H.
  destruct (TimeClip (likeBoundary tz now)); reflexivity.
Qed.

(** A reset stamped with the current clock reading is not due again. *)
Lemma shouldReset_now tz now :
  valid_time now -> shouldReset tz now (toISOString now) = false.
Proof.
  intros Hv. rewrite shouldReset_eq, Date_parse_toISOString by exact Hv.
  destruct (TimeClip (visitBoundary tz now)) as [b|]; [|reflexivity].
  destruct (Z.leb_spec b now), (Z.ltb_spec now b); cbn; try reflexivity; lia.
Qed.

Lemma shouldResetLikes_now tz now :
  valid_time now -> shouldResetLikes tz now (toISOString now) = false.
Proof.
  intros Hv. rewrite shouldResetLikes_eq, Date_parse_toISOString by exact Hv.
  destruct (TimeClip (likeBoundary tz now)) as [b|] eqn:Eb; [|reflexivity].
  apply TimeClip_Some in Eb. subst b.
  pose proof (boundary_near tz now LIKE_RESET_HOUR LIKE_RESET_MINUTE
                ltac:(cbv; split; congruence)) as Hn.
  fold (likeBoundary tz now) in Hn.
  destruct (Z.leb_spec (likeBoundary tz now) now).
  - destruct (Z.ltb_spec now (likeBoundary tz now)); [lia | reflexivity].
  - destruct (TimeClip (likeBoundary tz now - msPerDay)) as [y|] eqn:Ey;
      [|reflexivity].
    apply TimeClip_Some in Ey. subst y.
    destruct (Z.ltb_spec now (likeBoundary tz now - msPerDay)); [lia | reflexivity].
Qed.

(** * Facts about the store *)

Lemma num_or_0 a : num_or a 0 = a.
Proof. unfold num_or. destruct (Z.eqb_spec a 0); congruence. Qed.

Lemma truthy_false s : truthy s = false -> s = ""%string.
Proof.
  unfold truthy. destruct (String.eqb_spec s ""); [auto | discriminate].
Qed.

Lemma str_or_truthy a b : truthy a = true -> str_or a b = a.
Proof. unfold str_or. intros ->. reflexivity. Qed.

Lemma str_or_empty b : str_or "" b = b.
Proof. reflexivity. Qed.

(** *** Arrays with holes *)

Lemma filter_Boolean_idem (l : list (option VenueInteraction)) :
  filter Boolean (filter Boolean l) = filter Boolean l.
Proof.
  induction l as [|[r|] l IH]; cbn; [reflexivity | f_equal; exact IH | exact IH].
Qed.

Lemma filter_Boolean_map f (l : list (option VenueInteraction)) :
  (forall i, Boolean (f i) = Boolean i) ->
  filter Boolean (map f (filter Boolean l)) = map f (filter Boolean l).
Proof.
  intros Hf. induction l as [|[r|] l IH]; cbn; [reflexivity | | exact IH].
  rewrite Hf. cbn. f_equal. exact IH.
Qed.

Lemma filter_Boolean_map_all f (l : list (option VenueInteraction)) :
  (forall i, Boolean (f i) = Boolean i) ->
  filter Boolean (map f l) = map f (filter Boolean l).
Proof.
  intros Hf. induction l as [|[r|] l IH]; cbn; [reflexivity | | ].
  - rewrite Hf. cbn. f_equal. exact IH.
  - rewrite Hf. cbn. exact IH.
Qed.

Lemma Forall_filter_Boolean (P : option VenueInteraction -> Prop) l :
  Forall P l -> Forall P (filter Boolean l).
Proof.
  intros H. apply Forall_forall. intros x Hx.
  apply filter_In in Hx. destruct Hx as [Hx _].
  revert x Hx. apply Forall_forall. exact H.
Qed.

Lemma find_venue_cons v i l :
  find_venue v (i :: l) =
  if is_venue v i then i else find_venue v l.
Proof. unfold find_venue. cbn. destruct (is_venue v i); reflexivity. Qed.

Lemma find_venue_filter_Boolean v l :
  find_venue v (filter Boolean l) = find_venue v l.
Proof.
  induction l as [|[r|] l IH]; cbn [filter Boolean]; [reflexivity | | ].
  - rewrite !find_venue_cons, IH. reflexivity.
  - rewrite find_venue_cons. cbn. exact IH.
Qed.

Lemma find_venue_map v f l :
  (forall i, is_venue v (f i) = is_venue v i) ->
  find_venue v (map f l) =
  match find_venue v l with Some r => f (Some r) | None => None end.
Proof.
  intros Hf. induction l as [|i l IH]; [reflexivity|].
  cbn [map]. rewrite !find_venue_cons, Hf.
  destruct i as [r|]; cbn [is_venue].
  - destruct (venueId r =? v)%string; [reflexivity | exact IH].
  - exact IH.
Qed.

Lemma find_venue_app v l1 l2 :
  find_venue v (l1 ++ l2) =
  match find_venue v l1 with Some r => Some r | None => find_venue v l2 end.
Proof.
  induction l1 as [|i l1 IH]; [reflexivity|].
  cbn [app]. rewrite !find_venue_cons.
  destruct i as [r|]; cbn [is_venue]; [|exact IH].
  destruct (venueId r =? v)%string; [reflexivity | exact IH].
Qed.

Lemma find_venue_In v l r :
  find_venue v l = Some r -> In (Some r) l /\ venueId r = v.
Proof.
  induction l as [|i l IH]; [discriminate|].
  rewrite find_venue_cons. destruct i as [r'|]; cbn [is_venue].
  - destruct (String.eqb_spec (venueId r') v).
    + intros [= ->]. split; [left; reflexivity | assumption].
    + intros H. destruct (IH H). split; [right|]; assumption.
  - intros H. destruct (IH H). split; [right|]; assumption.
Qed.

(** *** The entry maps keep holes and venue identifiers *)

Section EntryMaps.

Variables tz now : Z.

Lemma Boolean_reset_entry i : Boolean (reset_entry tz now i) = Boolean i.
Proof. destruct i; reflexivity. Qed.

Lemma is_venue_reset_entry v i :
  is_venue v (reset_entry tz now i) = is_venue v i.
Proof. destruct i; reflexivity. Qed.

Lemma Boolean_visit_entry v a s i : Boolean (visit_entry v a s i) = Boolean i.
Proof.
  destruct i as [r|]; [|reflexivity]. cbn.
  destruct (venueId r =? v)%string; reflexivity.
Qed.

Lemma is_venue_visit_entry w v a s i :
  is_venue w (visit_entry v a s i) = is_venue w i.
Proof.
  destruct i as [r|]; [|reflexivity]. cbn.
  destruct (venueId r =? v)%string; reflexivity.
Qed.

Lemma Boolean_like_entry v ts s b u i :
  Boolean (like_entry v ts s b u i) = Boolean i.
Proof.
  destruct i as [r|]; [|reflexivity]. cbn.
  destruct (venueId r =? v)%string; reflexivity.
Qed.

Lemma is_venue_like_entry w v ts s b u i :
  is_venue w (like_entry v ts s b u i) = is_venue w i.
Proof.
  destruct i as [r|]; [|reflexivity]. cbn.
  destruct (venueId r =? v)%string; reflexivity.
Qed.

(** *** What the actions leave in the store *)

Lemma resetInteractionsIfNeeded_eq st :
  resetInteractionsIfNeeded tz now st = (tt, {| interactions := reset_pass tz now (interactions st) |}).
Proof.
  unfold resetInteractionsIfNeeded, set, reset_pass. f_equal.
  destruct (existsb (needs_reset tz now) (interactions st)
            || existsb (needs_like_reset tz now) (interactions st));
    [reflexivity | destruct st; reflexivity].
Qed.

End EntryMaps.

Section Actions.

Variables tz now : Z.

Lemma canInteract_eq v st :
  truthy v = true ->
  canInteract tz now v st =
  (canInteractWithVenue tz now
     (option_map lastInteraction
        (find_venue v (reset_pass tz now (interactions st)))),
   {| interactions := reset_pass tz now (interactions st) |}).
Proof.
  intros Hv. unfold canInteract, bind, get, ret. rewrite Hv. cbn [negb].
  rewrite resetInteractionsIfNeeded_eq. reflexivity.
Qed.

Lemma canLikeVenue_eq v st :
  truthy v = true ->
  canLikeVenue tz now v st =
  (match find_venue v (reset_pass tz now (interactions st)) with
   | None => true
   | Some r =>
       (if shouldResetLikes tz now (str_or (lastLikeReset r) (lastReset r))
        then 0 else num_or (dailyLikesUsed r) 0) <? DAILY_LIKE_LIMIT
   end,
   {| interactions := reset_pass tz now (interactions st) |}).
Proof.
  intros Hv. unfold canLikeVenue, bind, get, ret. rewrite Hv. cbn [negb].
  rewrite resetInteractionsIfNeeded_eq. cbn [interactions].
  destruct (find_venue v (reset_pass tz now (interactions st))); reflexivity.
Qed.

Lemma getInteractionCount_eq v st :
  truthy v = true ->
  getInteractionCount tz now v st =
  (match find_venue v (reset_pass tz now (interactions st)) with
   | Some r => count r
   | None => 0
   end,
   {| interactions := reset_pass tz now (interactions st) |}).
Proof.
  intros Hv. unfold getInteractionCount, bind, get, ret. rewrite Hv. cbn [negb].
  rewrite resetInteractionsIfNeeded_eq. cbn [interactions].
  destruct (find_venue v (reset_pass tz now (interactions st))); reflexivity.
Qed.

(** *** The reset pass *)

Lemma reset_entry_quota i : quota_ok i -> quota_ok (reset_entry tz now i).
Proof.
  destruct i as [r|]; [|trivial]. cbn. rewrite num_or_0.
  destruct (shouldResetLikes tz now _); unfold DAILY_LIKE_LIMIT; lia.
Qed.

Lemma reset_pass_quota l : Forall quota_ok l -> Forall quota_ok (reset_pass tz now l).
Proof.
  intros H. unfold reset_pass.
  destruct (existsb _ l || existsb _ l); [|exact H].
  apply Forall_filter_Boolean, Forall_map, Forall_filter_Boolean.
  revert H. apply Forall_impl. exact reset_entry_quota.
Qed.

Lemma reset_entry_agrees i : like_window_agrees tz now (reset_entry tz now i).
Proof.
  destruct i as [r|]; [|exact I]. cbn.
  destruct (shouldResetLikes tz now (str_or (lastLikeReset r) (lastReset r))) eqn:E.
  - rewrite str_or_truthy by apply toISOString_truthy. reflexivity.
  - destruct (truthy (str_or (lastLikeReset r) (lastReset r))) eqn:Et.
    + rewrite str_or_truthy by exact Et. reflexivity.
    + apply truthy_false in Et. rewrite Et, str_or_empty.
      assert (lastReset r = ""%string) as Hr.
      { unfold str_or in Et. destruct (truthy (lastLikeReset r)) eqn:El; [|exact Et].
        rewrite Et in El. discriminate. }
      rewrite Hr, shouldReset_malformed by reflexivity.
      reflexivity.
Qed.

Lemma unsettled_agrees i :
  needs_like_reset tz now i = false -> like_window_agrees tz now i.
Proof.
  destruct i as [r|]; [|intros; exact I]. cbn. intros H. rewrite H.
  destruct (truthy (lastLikeReset r)) eqn:El.
  - rewrite str_or_truthy in H by exact El. congruence.
  - apply truthy_false in El. rewrite El.
    symmetry. apply shouldResetLikes_malformed. reflexivity.
Qed.

Lemma reset_pass_agrees l : Forall (like_window_agrees tz now) (reset_pass tz now l).
Proof.
  unfold reset_pass.
  destruct (existsb (needs_reset tz now) l || existsb (needs_like_reset tz now) l) eqn:E.
  - apply Forall_filter_Boolean, Forall_map, Forall_forall.
    intros i _. apply reset_entry_agrees.
  - apply orb_false_elim in E. destruct E as [_ E].
    apply Forall_forall. intros i Hi. apply unsettled_agrees.
    destruct (needs_like_reset tz now i) eqn:En; [|reflexivity].
    enough (existsb (needs_like_reset tz now) l = true) by congruence.
    apply existsb_exists. exists i. split; assumption.
Qed.

End Actions.

Section Recording.

Variables tz now : Z.

Lemma likeVenue_eq v ts st :
  truthy v = true -> truthy ts = true ->
  likeVenue tz now v ts st =
  (undefined,
   let l1 := reset_pass tz now (interactions st) in
   match find_venue v l1 with
   | None =>
       {| interactions :=
            filter Boolean l1 ++
            [Some {| venueId := v; count := 0;
                     lastReset := toISOString now; lastInteraction := "";
                     arrivalTime := None; likes := 1;
                     timestamp := toISOString now;
                     lastLikeReset := toISOString now;
                     dailyLikesUsed := 1; likeTimeSlot := Some ts |}] |}
   | Some e =>
       if (if shouldResetLikes tz now (str_or (lastLikeReset e) (lastReset e))
           then 0 else num_or (dailyLikesUsed e) 0) <? DAILY_LIKE_LIMIT
       then
         {| interactions :=
              filter Boolean
                (map (like_entry v ts (toISOString now)
                        (shouldResetLikes tz now (lastLikeReset e))
                        (if shouldResetLikes tz now (lastLikeReset e)
                         then 0 else dailyLikesUsed e)) l1) |}
       else {| interactions := l1 |}
   end).
Proof.
  intros Hv Hts. unfold likeVenue. rewrite Hv, Hts. cbn [negb orb].
  unfold bind. rewrite canLikeVenue_eq by exact Hv. cbn zeta.
  destruct (find_venue v (reset_pass tz now (interactions st))) as [e|] eqn:Ef.
  - destruct ((if shouldResetLikes tz now (str_or (lastLikeReset e) (lastReset e))
               then 0 else num_or (dailyLikesUsed e) 0) <? DAILY_LIKE_LIMIT);
      cbn [negb]; [|reflexivity].
    unfold set, forceUpdate, ret. cbn [interactions]. rewrite Ef. reflexivity.
  - cbn [negb]. unfold set, forceUpdate, ret. cbn [interactions]. rewrite Ef.
    reflexivity.
Qed.

Lemma likeVenue_rejects_empty v ts st :
  truthy v = false \/ truthy ts = false ->
  likeVenue tz now v ts st = (undefined, st).
Proof.
  intros H. unfold likeVenue.
  destruct H as [-> | ->]; [|rewrite orb_true_r]; reflexivity.
Qed.

Lemma incrementInteraction_eq v a st :
  truthy v = true ->
  incrementInteraction tz now v a st =
  (undefined,
   let l2 := reset_pass tz now (reset_pass tz now (interactions st)) in
   if canInteractWithVenue tz now (option_map lastInteraction (find_venue v l2))
   then
     match find_venue v l2 with
     | Some e =>
         {| interactions :=
              filter Boolean (map (visit_entry v a (toISOString now)) l2) |}
     | None =>
         {| interactions :=
              filter Boolean l2 ++
              [Some {| venueId := v; count := 1;
                       lastReset := toISOString now;
                       lastInteraction := toISOString now;
                       arrivalTime := a; likes := 0;
                       timestamp := toISOString now;
                       lastLikeReset := toISOString now;
                       dailyLikesUsed := 0; likeTimeSlot := None |}] |}
     end
   else {| interactions := l2 |}).
Proof.
  intros Hv. unfold incrementInteraction. rewrite Hv. cbn [negb].
  unfold bind. rewrite resetInteractionsIfNeeded_eq.
  rewrite canInteract_eq by exact Hv. cbn [interactions]. cbn zeta.
  destruct (canInteractWithVenue tz now _); cbn [negb]; [|reflexivity].
  unfold set, ret. cbn [interactions].
  destruct (find_venue v _); reflexivity.
Qed.

Lemma incrementInteraction_rejects_empty v a st :
  truthy v = false -> incrementInteraction tz now v a st = (undefined, st).
Proof. intros H. unfold incrementInteraction. rewrite H. reflexivity. Qed.

(** *** The like quota is preserved by every action *)

Lemma likeVenue_quota v ts st :
  Forall quota_ok (interactions st) ->
  Forall quota_ok (interactions (snd (likeVenue tz now v ts st))).
Proof.
  intros H.
  destruct (truthy v) eqn:Hv;
    [|rewrite likeVenue_rejects_empty by auto; exact H].
  destruct (truthy ts) eqn:Hts;
    [|rewrite likeVenue_rejects_empty by auto; exact H].
  rewrite likeVenue_eq by assumption. cbn [snd]. cbn zeta.
  pose proof (reset_pass_quota tz now _ H) as Hq.
  pose proof (reset_pass_agrees tz now (interactions st)) as Ha.
  destruct (find_venue v (reset_pass tz now (interactions st))) as [e|] eqn:Ef.
  - apply find_venue_In in Ef. destruct Ef as [Hin _].
    pose proof (proj1 (Forall_forall _ _) Hq _ Hin) as Hqe.
    pose proof (proj1 (Forall_forall _ _) Ha _ Hin) as Hae.
    cbn in Hqe, Hae. rewrite Hae, num_or_0.
    destruct (Z.ltb_spec
                (if shouldResetLikes tz now (lastLikeReset e)
                 then 0 else dailyLikesUsed e) DAILY_LIKE_LIMIT) as [Hlt | Hge];
      cbn [interactions]; [|exact Hq].
    apply Forall_filter_Boolean, Forall_map.
    revert Hq. apply Forall_impl. intros [r|] Hr; [|exact I].
    cbn. destruct (venueId r =? v)%string; [|exact Hr]. cbn.
    unfold DAILY_LIKE_LIMIT in *.
    destruct (shouldResetLikes tz now (lastLikeReset e)); lia.
  - cbn [interactions]. apply Forall_app. split.
    + apply Forall_filter_Boolean. exact Hq.
    + constructor; [|constructor]. cbn. unfold DAILY_LIKE_LIMIT. lia.
Qed.

Lemma incrementInteraction_quota v a st :
  Forall quota_ok (interactions st) ->
  Forall quota_ok (interactions (snd (incrementInteraction tz now v a st))).
Proof.
  intros H.
  destruct (truthy v) eqn:Hv;
    [|rewrite incrementInteraction_rejects_empty by auto; exact H].
  rewrite incrementInteraction_eq by assumption. cbn [snd]. cbn zeta.
  pose proof (reset_pass_quota tz now _ (reset_pass_quota tz now _ H)) as Hq.
  destruct (canInteractWithVenue tz now _); [|exact Hq].
  destruct (find_venue v _); cbn [interactions].
  - apply Forall_filter_Boolean, Forall_map.
    revert Hq. apply Forall_impl. intros [r|] Hr; [|exact I].
    cbn. destruct (venueId r =? v)%string; exact Hr.
  - apply Forall_app. split.
    + apply Forall_filter_Boolean. exact Hq.
    + constructor; [|constructor]. cbn. unfold DAILY_LIKE_LIMIT. lia.
Qed.

Lemma perform_quota c st :
  Forall quota_ok (interactions st) ->
  Forall quota_ok (interactions (perform tz now c st)).
Proof.
  intros H. destruct c as [v a | v ts | | v | v | v]; cbn [perform].
  - apply incrementInteraction_quota, H.
  - apply likeVenue_quota, H.
  - rewrite resetInteractionsIfNeeded_eq. apply reset_pass_quota, H.
  - destruct (truthy v) eqn:Hv.
    + rewrite canInteract_eq by exact Hv. apply reset_pass_quota, H.
    + unfold canInteract. rewrite Hv. exact H.
  - destruct (truthy v) eqn:Hv.
    + rewrite canLikeVenue_eq by exact Hv. apply reset_pass_quota, H.
    + unfold canLikeVenue. rewrite Hv. exact H.
  - destruct (truthy v) eqn:Hv.
    + rewrite getInteractionCount_eq by exact Hv. apply reset_pass_quota, H.
    + unfold getInteractionCount. rewrite Hv. exact H.
Qed.

End Recording.

(** [likeVenue] records nothing beyond the pending resets when
    [canLikeVenue] answers false. *)
Lemma likeVenue_gated tz now v ts st :
  truthy v = true -> truthy ts = true ->
  fst (canLikeVenue tz now v st) = false ->
  snd (likeVenue tz now v ts st) = snd (canLikeVenue tz now v st).
Proof.
  intros Hv Hts. rewrite likeVenue_eq, canLikeVenue_eq by assumption.
  cbn [fst snd]. cbn zeta.
  destruct (find_venue v (reset_pass tz now (interactions st))) as [e|];
    [|discriminate].
  intros ->. reflexivity.
Qed.

(** C1: the daily like quota stays within [0, DAILY_LIKE_LIMIT].  Whatever
    store actions are called, in whatever order and at whatever clock
    readings, every entry of the store keeps
    [0 <= dailyLikesUsed <= DAILY_LIKE_LIMIT] if every entry had it before;
    [likeVenue] raises [dailyLikesUsed] only when [canLikeVenue] found it
    below the limit after the pending like-window reset. *)
Theorem C1_daily_likes_within_limit tz calls st :
  Forall quota_ok (interactions st) ->
  Forall quota_ok (interactions (run tz calls st)).
Proof.
  unfold run. revert st.
  induction calls as [|[now c] calls IH]; intros st H; [exact H|].
  cbn [fold_left fst snd]. apply IH, perform_quota, H.
Qed.

Lemma C1_daily_likes_within_limit_witness :
  Forall quota_ok (interactions initialState) /\
  Forall quota_ok
    (interactions
       (run 0 [(T0, CallLikeVenue "bar1" "21:00");
               (T0 + 500, CallLikeVenue "bar1" "21:30");
               (T0 + 1000, CallIncrementInteraction "bar1" (Some "21:30"));
               (T0 + msPerDay, CallLikeVenue "bar1" "22:00")]%string
            initialState)).
Proof.
  assert (Forall quota_ok (interactions initialState)) as H by constructor.
  split; [exact H|].
  apply (C1_daily_likes_within_limit 0). exact H.
Defined.

(** *** The reset pass settles every entry *)

Section ResetPass.

Variables tz now : Z.

Lemma reset_entry_settled i :
  valid_time now -> settled tz now (reset_entry tz now i).
Proof.
  intros Hv. destruct i as [r|]; [|split; reflexivity]. split; cbn.
  - destruct (shouldReset tz now (lastReset r)) eqn:E;
      [apply shouldReset_now, Hv | exact E].
  - destruct (shouldResetLikes tz now (str_or (lastLikeReset r) (lastReset r))) eqn:E.
    + rewrite str_or_truthy by apply toISOString_truthy.
      apply shouldResetLikes_now, Hv.
    + destruct (truthy (str_or (lastLikeReset r) (lastReset r))) eqn:Et.
      * rewrite str_or_truthy by exact Et. exact E.
      * apply truthy_false in Et. rewrite Et, str_or_empty.
        assert (lastReset r = ""%string) as Hr.
        { unfold str_or in Et.
          destruct (truthy (lastLikeReset r)) eqn:El; [|exact Et].
          rewrite Et in El. discriminate. }
        rewrite Hr, shouldReset_malformed by reflexivity.
        apply shouldResetLikes_malformed. reflexivity.
Qed.

Lemma settled_no_reset l :
  Forall (settled tz now) l ->
  existsb (needs_reset tz now) l || existsb (needs_like_reset tz now) l = false.
Proof.
  intros H. apply orb_false_intro.
  - induction H as [|i l [Hi _] _ IH]; [reflexivity|].
    cbn. rewrite Hi, IH. reflexivity.
  - induction H as [|i l [_ Hi] _ IH]; [reflexivity|].
    cbn. rewrite Hi, IH. reflexivity.
Qed.

Lemma no_reset_settled l :
  existsb (needs_reset tz now) l || existsb (needs_like_reset tz now) l = false ->
  Forall (settled tz now) l.
Proof.
  intros H. apply orb_false_elim in H. destruct H as [H1 H2].
  apply Forall_forall. intros i Hi. split.
  - destruct (needs_reset tz now i) eqn:E; [|reflexivity].
    rewrite <- H1. symmetry. apply existsb_exists. exists i. auto.
  - destruct (needs_like_reset tz now i) eqn:E; [|reflexivity].
    rewrite <- H2. symmetry. apply existsb_exists. exists i. auto.
Qed.

Lemma reset_pass_settled l :
  valid_time now -> Forall (settled tz now) (reset_pass tz now l).
Proof.
  intros Hv. unfold reset_pass.
  destruct (existsb (needs_reset tz now) l || existsb (needs_like_reset tz now) l) eqn:E.
  - apply Forall_filter_Boolean, Forall_map, Forall_forall.
    intros i _. apply reset_entry_settled, Hv.
  - apply no_reset_settled, E.
Qed.

Lemma reset_pass_of_settled l :
  Forall (settled tz now) l -> reset_pass tz now l = l.
Proof.
  intros H. unfold reset_pass. rewrite settled_no_reset by exact H. reflexivity.
Qed.

Lemma reset_pass_idempotent l :
  valid_time now ->
  reset_pass tz now (reset_pass tz now l) = reset_pass tz now l.
Proof. intros Hv. apply reset_pass_of_settled, reset_pass_settled, Hv. Qed.

End ResetPass.

(** C3: [resetInteractionsIfNeeded] is idempotent.  For every store and
    every clock reading [now], running the reset pass a second time at the
    same [now] leaves the store exactly as the first run left it. *)
Theorem C3_resetInteractionsIfNeeded_idempotent tz now st :
  valid_time now ->
  snd (resetInteractionsIfNeeded tz now (snd (resetInteractionsIfNeeded tz now st)))
  = snd (resetInteractionsIfNeeded tz now st).
Proof.
  intros Hv. rewrite !resetInteractionsIfNeeded_eq. cbn [snd interactions].
  f_equal. apply reset_pass_idempotent, Hv.
Qed.

Lemma C3_resetInteractionsIfNeeded_idempotent_witness :
  valid_time (T0 + msPerDay) /\
  snd (resetInteractionsIfNeeded 0 (T0 + msPerDay)
         (snd (resetInteractionsIfNeeded 0 (T0 + msPerDay)
                 {| interactions := [sample_entry "bar1" 2 (Some "21:00"%string) 1] |})))
  = snd (resetInteractionsIfNeeded 0 (T0 + msPerDay)
           {| interactions := [sample_entry "bar1" 2 (Some "21:00"%string) 1] |}).
Proof.
  assert (valid_time (T0 + msPerDay)) as Hv by (cbv; split; discriminate).
  split; [exact Hv|].
  apply (C3_resetInteractionsIfNeeded_idempotent 0 (T0 + msPerDay)). exact Hv.
Defined.

(** *** Looking an entity up after a reset pass *)

Section Lookup.

Variables tz now : Z.

Lemma find_venue_reset_pass v l :
  find_venue v (reset_pass tz now l) =
  match find_venue v l with
  | None => None
  | Some r =>
      if existsb (needs_reset tz now) l || existsb (needs_like_reset tz now) l
      then reset_entry tz now (Some r) else Some r
  end.
Proof.
  unfold reset_pass.
  destruct (existsb (needs_reset tz now) l || existsb (needs_like_reset tz now) l).
  - rewrite find_venue_filter_Boolean.
    rewrite find_venue_map by apply is_venue_reset_entry.
    rewrite find_venue_filter_Boolean. reflexivity.
  - destruct (find_venue v l); reflexivity.
Qed.

Lemma lastInteraction_reset_pass v l :
  option_map lastInteraction (find_venue v (reset_pass tz now l))
  = option_map lastInteraction (find_venue v l).
Proof.
  rewrite find_venue_reset_pass. destruct (find_venue v l) as [r|]; [|reflexivity].
  destruct (existsb _ l || existsb _ l); reflexivity.
Qed.

Lemma likes_reset_pass v l :
  option_map likes (find_venue v (reset_pass tz now l))
  = option_map likes (find_venue v l).
Proof.
  rewrite find_venue_reset_pass. destruct (find_venue v l) as [r|]; [|reflexivity].
  destruct (existsb _ l || existsb _ l); reflexivity.
Qed.

Lemma find_venue_reset_pass_None v l :
  find_venue v l = None -> find_venue v (reset_pass tz now l) = None.
Proof. intros H. rewrite find_venue_reset_pass, H. reflexivity. Qed.

Lemma settled_visit_entry v a s i :
  settled tz now i -> settled tz now (visit_entry v a s i).
Proof.
  destruct i as [r|]; [|trivial]. cbn [visit_entry].
  destruct (venueId r =? v)%string; trivial.
Qed.

(** *** The cooldown, in terms of time values *)

Lemma canInteractWithVenue_stamp T :
  valid_time T ->
  canInteractWithVenue tz now (Some (toISOString T)) =
  match TimeClip (T + INTERACTION_COOLDOWN_HOURS * msPerHour) with
  | Some c => c <=? now
  | None => false
  end.
Proof.
  intros Hv. unfold canInteractWithVenue.
  rewrite toISOString_truthy. cbn [negb].
  rewrite Date_parse_toISOString by exact Hv.
  rewrite setHours_getHours_plus. reflexivity.
Qed.

Lemma canInteractWithVenue_malformed s :
  truthy s = true -> Date_parse s = None ->
  canInteractWithVenue tz now (Some s) = false.
Proof.
  intros Ht Hp. unfold canInteractWithVenue. rewrite Ht, Hp. reflexivity.
Qed.

Lemma canInteractWithVenue_absent s :
  truthy_opt s = false -> canInteractWithVenue tz now s = true.
Proof.
  destruct s as [s|]; [|reflexivity]. cbn. intros ->. reflexivity.
Qed.

End Lookup.





(** C9, as stated, at a visit reported with an empty venue identifier: the
    caller is not handed the boolean [false]; the action has no result. *)
Lemma C9_no_boolean_result_counterexample :
  fst (incrementInteraction 0 T0 "" None initialState) <> boolean false /\
  fst (likeVenue 0 T0 "" "21:00" initialState) <> boolean false /\
  fst (likeVenue 0 T0 "bar1" "" initialState) <> boolean false.
Proof. repeat split; discriminate. Qed.

(** C9, amended: a call of [incrementInteraction] with an empty venue
    identifier, and a call of [likeVenue] with an empty venue identifier or
    an empty time slot, records nothing: the store is unchanged, the call
    completes normally and hands back no value ([undefined], the actions are
    declared [void]), not a boolean. *)
Theorem C9_empty_arguments_not_recorded tz now v ts a st :
  incrementInteraction tz now "" a st = (undefined, st) /\
  likeVenue tz now "" ts st = (undefined, st) /\
  likeVenue tz now v "" st = (undefined, st).
Proof.
  split; [|split].
  - apply incrementInteraction_rejects_empty. reflexivity.
  - apply likeVenue_rejects_empty. left. reflexivity.
  - apply likeVenue_rejects_empty. right. reflexivity.
Qed.

(** C10: liking does not start the visit cooldown.  For an entity without
    an entry, [likeVenue] creates an entry whose visit count is 0 and whose
    [lastInteraction] is the empty string, and from then on [canInteract]
    answers true for the entity at every clock reading. *)
Theorem C10_like_leaves_visit_open tz now v ts st :
  truthy v = true -> truthy ts = true ->
  find_venue v (interactions st) = None ->
  let st' := snd (likeVenue tz now v ts st) in
  (exists r, find_venue v (interactions st') = Some r /\
             count r = 0 /\ lastInteraction r = ""%string) /\
  forall now', fst (canInteract tz now' v st') = true.
Proof.
  intros Hv Hts Hnone. cbv zeta.
  rewrite likeVenue_eq by assumption. cbn [snd]. cbn zeta.
  rewrite find_venue_reset_pass_None by exact Hnone. cbn [interactions].
  match goal with
  | |- context [filter Boolean ?l ++ [Some ?r]] =>
      assert (find_venue v (filter Boolean l ++ [Some r]) = Some r) as Hfind
  end.
  { rewrite find_venue_app, find_venue_filter_Boolean.
    rewrite find_venue_reset_pass_None by exact Hnone.
    rewrite find_venue_cons. cbn [is_venue venueId].
    rewrite String.eqb_refl. reflexivity. }
  split.
  - eexists. split; [exact Hfind|]. split; reflexivity.
  - intros now'. rewrite canInteract_eq by exact Hv. cbn [fst interactions].
    rewrite lastInteraction_reset_pass, Hfind. reflexivity.
Qed.

Lemma C10_like_leaves_visit_open_witness :
  truthy "bar2" = true /\ truthy "21:00" = true /\
  find_venue "bar2" (interactions initialState) = None /\
  let st' := snd (likeVenue 0 T0 "bar2" "21:00" initialState) in
  (exists r, find_venue "bar2" (interactions st') = Some r /\
             count r = 0 /\ lastInteraction r = ""%string) /\
  forall now', fst (canInteract 0 now' "bar2" st') = true.
Proof.
  split; [reflexivity|]. split; [reflexivity|]. split; [reflexivity|].
  apply (C10_like_leaves_visit_open 0 T0 "bar2" "21:00" initialState);
    reflexivity.
Defined.

(** C5 at an unreadable [lastInteraction]: the cooldown check answers false,
    not true, at every clock reading, so the entity of [corrupt_store] can
    never be visited again; the two window predicates do answer false on
    the unreadable string, and the cooldown check answers true when the
    timestamp is absent or empty. *)
Theorem C5_unreadable_lastInteraction_blocks tz now :
  canInteractWithVenue tz now (Some "corrupted"%string) = false /\
  fst (canInteract tz now "bar1" corrupt_store) = false /\
  shouldReset tz now "corrupted" = false /\
  shouldResetLikes tz now "corrupted" = false /\
  canInteractWithVenue tz now None = true /\
  canInteractWithVenue tz now (Some ""%string) = true.
Proof.
  split; [reflexivity|]. split.
  - rewrite canInteract_eq by reflexivity. cbn [fst].
    rewrite lastInteraction_reset_pass. reflexivity.
  - split; [apply shouldReset_malformed; reflexivity|].
    split; [apply shouldResetLikes_malformed; reflexivity|].
    split; reflexivity.
Qed.

(** *** What a reset pass keeps *)

Lemma kept_fields_reset_entry tz now i :
  kept_fields (reset_entry tz now i) = kept_fields i.
Proof. destruct i; reflexivity. Qed.

Lemma kept_fields_reset_pass tz now l :
  map kept_fields (filter Boolean (reset_pass tz now l))
  = map kept_fields (filter Boolean l).
Proof.
  unfold reset_pass.
  destruct (existsb _ l || existsb _ l); [|reflexivity].
  rewrite filter_Boolean_idem.
  rewrite filter_Boolean_map by apply Boolean_reset_entry.
  rewrite map_map. apply map_ext. intros i. apply kept_fields_reset_entry.
Qed.

Lemma total_likes_kept_fields (l l' : list (option VenueInteraction)) :
  map kept_fields l = map kept_fields l' ->
  forall acc,
    fold_left (fun total i =>
                 total + num_or (match i with Some r => likes r | None => 0 end) 0)
      l acc
    = fold_left (fun total i =>
                 total + num_or (match i with Some r => likes r | None => 0 end) 0)
      l' acc.
Proof.
  revert l'. induction l as [|i l IH]; intros [|i' l'] H acc;
    try discriminate; [reflexivity|].
  cbn [map] in H. injection H as Hi Hl. cbn [fold_left].
  rewrite (IH l' Hl).
  destruct i as [r|], i' as [r'|]; try discriminate; [|reflexivity].
  cbn in Hi. injection Hi as _ Hlikes _ _. rewrite Hlikes. reflexivity.
Qed.

(** C8: a reset pass never touches the cumulative likes nor the venue
    identifier.  For every store and clock reading, [getLikeCount] of every
    entity and [getTotalLikes] are the same before and after
    [resetInteractionsIfNeeded], and so are the venue identifier, the likes,
    [lastInteraction] and [timestamp] of every entry, in order; only the
    visit count, the arrival slot, the daily likes used, the like slot and the
    two reset timestamps can differ. *)
Theorem C8_reset_keeps_likes tz now st :
  let st' := snd (resetInteractionsIfNeeded tz now st) in
  (forall v, getLikeCount v st' = getLikeCount v st) /\
  getTotalLikes st' = getTotalLikes st /\
  map kept_fields (filter Boolean (interactions st'))
  = map kept_fields (filter Boolean (interactions st)).
Proof.
  cbv zeta. rewrite resetInteractionsIfNeeded_eq. cbn [snd].
  split; [|split].
  - intros v. unfold getLikeCount. cbn [interactions].
    destruct (truthy v); [|reflexivity]. cbn [negb].
    pose proof (likes_reset_pass tz now v (interactions st)) as H.
    destruct (find_venue v (reset_pass tz now (interactions st))),
      (find_venue v (interactions st)); cbn in H; congruence.
  - unfold getTotalLikes. cbn [interactions].
    apply total_likes_kept_fields, kept_fields_reset_pass.
  - apply kept_fields_reset_pass.
Qed.



(** *** Sorting *)

Lemma sort_insert_perm {A} (cmp : A -> A -> Z) x l :
  Permutation (sort_insert cmp x l) (x :: l).
Proof.
  induction l as [|y l IH]; cbn; [reflexivity|].
  destruct (cmp x y <=? 0); [reflexivity|].
  rewrite IH. apply perm_swap.
Qed.

Lemma sort_perm {A} (cmp : A -> A -> Z) l : Permutation (sort cmp l) l.
Proof.
  induction l as [|x l IH]; cbn; [reflexivity|].
  fold (sort cmp l). rewrite sort_insert_perm, IH. reflexivity.
Qed.

Lemma sort_insert_by_likes_sorted x l :
  StronglySorted more_likes l -> StronglySorted more_likes (sort_insert by_likes x l).
Proof.
  induction 1 as [|y l Hs IH Hy]; cbn; [repeat constructor|].
  unfold by_likes at 1. destruct (Z.leb_spec (snd y - snd x) 0) as [Hle | Hgt].
  - constructor; [constructor; assumption|].
    constructor; [unfold more_likes; lia|].
    revert Hy. apply Forall_impl. unfold more_likes. intros; lia.
  - constructor; [exact IH|].
    refine (Permutation_Forall (Permutation_sym (sort_insert_perm _ _ _)) _).
    constructor; [unfold more_likes; lia | exact Hy].
Qed.

Lemma sort_by_likes_sorted l : StronglySorted more_likes (sort by_likes l).
Proof.
  induction l as [|x l IH]; cbn; [constructor|].
  apply sort_insert_by_likes_sorted, IH.
Qed.

Lemma sort_insert_by_likes_stable k x l :
  filter (fun e : string * Z => snd e =? k) (sort_insert by_likes x l)
  = filter (fun e : string * Z => snd e =? k) (x :: l).
Proof.
  induction l as [|y l IH]; [reflexivity|]. cbn [sort_insert].
  unfold by_likes at 1. destruct (Z.leb_spec (snd y - snd x) 0) as [Hle | Hgt];
    [reflexivity|].
  cbn [filter] in *. rewrite IH.
  destruct (Z.eqb_spec (snd x) k), (Z.eqb_spec (snd y) k); try reflexivity. lia.
Qed.

Lemma sort_by_likes_stable k l :
  filter (fun e : string * Z => snd e =? k) (sort by_likes l)
  = filter (fun e : string * Z => snd e =? k) l.
Proof.
  induction l as [|x l IH]; [reflexivity|]. cbn [sort fold_right].
  fold (sort by_likes l). rewrite sort_insert_by_likes_stable.
  cbn [filter]. rewrite IH. reflexivity.
Qed.

(** C7, as stated, at a store that holds venue "b" before venue "a", one
    like each: "b" is listed first; the tie is not broken by identifier. *)
Lemma C7_ties_not_by_identifier_counterexample :
  getMostPopularVenues
    {| interactions := [sample_entry "b" 0 None 1; sample_entry "a" 0 None 1] |}
  = [("b"%string, 1); ("a"%string, 1)] /\
  ~ ties_by_identifier
      (getMostPopularVenues
         {| interactions := [sample_entry "b" 0 None 1; sample_entry "a" 0 None 1] |}).
Proof.
  assert (getMostPopularVenues
            {| interactions := [sample_entry "b" 0 None 1; sample_entry "a" 0 None 1] |}
          = [("b"%string, 1); ("a"%string, 1)]) as E by reflexivity.
  split; [exact E|]. rewrite E. intros H.
  specialize (H 1%nat 0%nat ("a"%string, 1) ("b"%string, 1)
                eq_refl eq_refl eq_refl eq_refl).
  inversion H.
Qed.

(** C7, amended: [getMostPopularVenues] returns the first ten of the venues
    that have an identifier, ordered by like count descending; venues with
    equal like counts appear in the order in which the store holds them
    (the sort is stable and compares likes only), which makes the result
    determined by the store. *)
Theorem C7_most_popular_by_likes_stable st :
  exists ranked,
    getMostPopularVenues st = firstn 10 ranked /\
    Permutation ranked (venues_in_store st) /\
    StronglySorted more_likes ranked /\
    forall k,
      filter (fun e : string * Z => snd e =? k) ranked
      = filter (fun e : string * Z => snd e =? k) (venues_in_store st).
Proof.
  exists (sort by_likes (venues_in_store st)).
  split; [reflexivity|]. split; [apply sort_perm|].
  split; [apply sort_by_likes_sorted|].
  intros k. apply sort_by_likes_stable.
Qed.

(** *** The object of slot counts *)









(** *** Sorting strings *)










(** * The scenarios of the specification, evaluated *)

(** A visit at [T0] with slot "20:00" is counted; a second one 30 minutes
    later is not; one 2 hours and 1 minute later is. *)
Example visit_scenario :
  let st1 := snd (incrementInteraction 0 T0 "bar1" (Some "20:00"%string) initialState) in
  let st2 := snd (incrementInteraction 0 (T0 + 30 * msPerMinute) "bar1" None st1) in
  let st3 :=
    snd (incrementInteraction 0 (T0 + 2 * msPerHour + msPerMinute) "bar1" None st2) in
  fst (getInteractionCount 0 T0 "bar1" st1) = 1 /\
  fst (getInteractionCount 0 (T0 + 30 * msPerMinute) "bar1" st2) = 1 /\
  fst (getInteractionCount 0 (T0 + 2 * msPerHour + msPerMinute) "bar1" st3) = 2.
Proof. vm_compute. repeat split. Qed.

(** With a limit of one like per day, a second like before the 04:59
    boundary is not recorded, one after the boundary is. *)
Example like_scenario :
  let st1 := snd (likeVenue 0 T0 "bar1" "21:00" initialState) in
  let st2 := snd (likeVenue 0 (T0 + msPerHour) "bar1" "21:30" st1) in
  let st3 := snd (likeVenue 0 (T0 + msPerDay) "bar1" "22:00" st2) in
  getLikeCount "bar1" st1 = 1 /\ getLikeCount "bar1" st2 = 1 /\
  getLikeCount "bar1" st3 = 2 /\
  option_map dailyLikesUsed (find_venue "bar1" (interactions st3)) = Some 1.
Proof. vm_compute. repeat split. Qed.

(** * Further properties of the store *)

(** ** Reading through the reset pass *)

Section Reads.

Variables tz now : Z.

Lemma count_reset_pass v l :
  option_map count (find_venue v (reset_pass tz now l))
  = option_map (fun r => if shouldReset tz now (lastReset r) then 0 else count r)
      (find_venue v l).
Proof.
  rewrite find_venue_reset_pass.
  destruct (find_venue v l) as [r|] eqn:Ef; [|reflexivity].
  destruct (existsb (needs_reset tz now) l || existsb (needs_like_reset tz now) l)
    eqn:E; [reflexivity|].
  apply no_reset_settled in E. apply find_venue_In in Ef. destruct Ef as [Hin _].
  destruct (proj1 (Forall_forall _ _) E _ Hin) as [Hr _]. cbn in Hr.
  cbn. rewrite Hr. reflexivity.
Qed.

Lemma quota_left_reset_pass v l :
  option_map
    (fun r => if shouldResetLikes tz now (str_or (lastLikeReset r) (lastReset r))
              then 0 else num_or (dailyLikesUsed r) 0)
    (find_venue v (reset_pass tz now l))
  = option_map
      (fun r => if shouldResetLikes tz now (str_or (lastLikeReset r) (lastReset r))
                then 0 else dailyLikesUsed r)
      (find_venue v l).
Proof.
  rewrite find_venue_reset_pass.
  destruct (find_venue v l) as [r|] eqn:Ef; [|reflexivity].
  destruct (existsb (needs_reset tz now) l || existsb (needs_like_reset tz now) l)
    eqn:E.
  - pose proof (reset_entry_agrees tz now (Some r)) as Ha.
    cbn [reset_entry like_window_agrees] in Ha. cbn [reset_entry option_map].
    rewrite Ha. cbn.
    destruct (shouldResetLikes tz now (str_or (lastLikeReset r) (lastReset r)))
      eqn:Es.
    + destruct (shouldResetLikes tz now (toISOString now)); reflexivity.
    + rewrite Es, !num_or_0. reflexivity.
  - cbn. rewrite num_or_0. reflexivity.
Qed.

End Reads.

(** X1: what the three reading actions answer depends on the entity's own
    entry only, as the store holds it before the call; the reset pass they
    run first changes nothing in the answer beyond zeroing an elapsed
    window.  [getInteractionCount] is 0 for an empty identifier or an unknown
    entity and otherwise the visit count, or 0 if the visit window has
    elapsed; [canLikeVenue] is false for an empty identifier, true for an
    unknown entity and otherwise whether the likes used in the current
    window are below the limit; [canInteract] is false for an empty
    identifier and otherwise the cooldown check on the entry's
    [lastInteraction]. *)
Theorem reads_depend_on_own_entry tz now v st :
  fst (getInteractionCount tz now v st)
  = (if truthy v then
       match find_venue v (interactions st) with
       | Some r => if shouldReset tz now (lastReset r) then 0 else count r
       | None => 0
       end
     else 0) /\
  fst (canLikeVenue tz now v st)
  = (if truthy v then
       match find_venue v (interactions st) with
       | Some r =>
           (if shouldResetLikes tz now (str_or (lastLikeReset r) (lastReset r))
            then 0 else dailyLikesUsed r) <? DAILY_LIKE_LIMIT
       | None => true
       end
     else false) /\
  fst (canInteract tz now v st)
  = (if truthy v then
       canInteractWithVenue tz now
         (option_map lastInteraction (find_venue v (interactions st)))
     else false).
Proof.
  destruct (truthy v) eqn:Hv.
  - rewrite getInteractionCount_eq, canLikeVenue_eq, canInteract_eq by exact Hv.
    cbn [fst]. split; [|split].
    + pose proof (count_reset_pass tz now v (interactions st)) as H.
      destruct (find_venue v (reset_pass tz now (interactions st))),
        (find_venue v (interactions st)); cbn in H; congruence.
    + pose proof (quota_left_reset_pass tz now v (interactions st)) as H.
      destruct (find_venue v (reset_pass tz now (interactions st))),
        (find_venue v (interactions st)); cbn in H; congruence.
    + rewrite lastInteraction_reset_pass. reflexivity.
  - unfold getInteractionCount, canLikeVenue, canInteract. rewrite Hv.
    repeat split.
Qed.

(** ** The visit window *)

(** X2: [shouldReset] on a readable [lastReset].  It answers true exactly
    when [now] is at or after today's 05:00:00 local boundary and the last
    reset predates that boundary.  There is no comparison with yesterday's
    boundary: asked before 05:00 it answers false however old the last reset
    is. *)
Theorem shouldReset_window tz now s l :
  Date_parse s = Some l ->
  valid_time (visitBoundary tz now) ->
  (shouldReset tz now s = true <->
   visitBoundary tz now <= now /\ l < visitBoundary tz now) /\
  (now < visitBoundary tz now -> shouldReset tz now s = false).
Proof.
  intros Hs Hb. rewrite shouldReset_eq, Hs, (TimeClip_valid _ Hb). split.
  - rewrite andb_true_iff, Z.leb_le, Z.ltb_lt. reflexivity.
  - intros H. destruct (Z.leb_spec (visitBoundary tz now) now); [lia | reflexivity].
Qed.

Lemma shouldReset_window_witness :
  Date_parse (toISOString (T_early - 3 * msPerDay)) = Some (T_early - 3 * msPerDay) /\
  valid_time (visitBoundary 0 T_early) /\
  (shouldReset 0 T_early (toISOString (T_early - 3 * msPerDay)) = true <->
   visitBoundary 0 T_early <= T_early /\
   T_early - 3 * msPerDay < visitBoundary 0 T_early) /\
  (T_early < visitBoundary 0 T_early ->
   shouldReset 0 T_early (toISOString (T_early - 3 * msPerDay)) = false).
Proof.
  assert (Date_parse (toISOString (T_early - 3 * msPerDay))
          = Some (T_early - 3 * msPerDay)) as H1 by (vm_compute; reflexivity).
  assert (valid_time (visitBoundary 0 T_early)) as H2 by (cbv; split; discriminate).
  split; [exact H1|]. split; [exact H2|].
  exact (shouldReset_window 0 T_early _ _ H1 H2).
Defined.

(** ** Recording a visit, in general *)

Section Visits.

Variables tz now : Z.

Lemma visited_state v a l e :
  find_venue v l = Some e ->
  find_venue v (filter Boolean (map (visit_entry v a (toISOString now)) l))
  = Some {| venueId := venueId e;
            count := count e + 1;
            lastReset := lastReset e;
            lastInteraction := toISOString now;
            arrivalTime := opt_or a (arrivalTime e);
            likes := likes e;
            timestamp := toISOString now;
            lastLikeReset := lastLikeReset e;
            dailyLikesUsed := dailyLikesUsed e;
            likeTimeSlot := likeTimeSlot e |}.
Proof.
  intros Ef. rewrite find_venue_filter_Boolean.
  rewrite find_venue_map by apply is_venue_visit_entry. rewrite Ef.
  apply find_venue_In in Ef. destruct Ef as [_ Ev].
  cbn [visit_entry]. rewrite Ev, String.eqb_refl. reflexivity.
Qed.

Lemma visit_keeps_settled v a s l :
  Forall (settled tz now) l ->
  Forall (settled tz now) (filter Boolean (map (visit_entry v a s) l)).
Proof.
  intros H. apply Forall_filter_Boolean, Forall_map.
  revert H. apply Forall_impl. intros i. apply settled_visit_entry.
Qed.

End Visits.

(** X3: what [incrementInteraction] does, at any clock reading.  When
    [canInteract] answers false the call leaves the store as
    [resetInteractionsIfNeeded] leaves it.  When it answers true the visit
    count the store reports for the entity rises by exactly one (from 0 to 1
    for an entity without an entry), the entity's [lastInteraction] becomes
    the clock reading, and a further call at the same clock reading is
    rejected. *)
Theorem incrementInteraction_effect tz now v a st :
  truthy v = true -> valid_time now ->
  valid_time (now + INTERACTION_COOLDOWN_HOURS * msPerHour) ->
  let st' := snd (incrementInteraction tz now v a st) in
  (fst (canInteract tz now v st) = false ->
   st' = snd (resetInteractionsIfNeeded tz now st)) /\
  (fst (canInteract tz now v st) = true ->
   fst (getInteractionCount tz now v st')
   = fst (getInteractionCount tz now v st) + 1 /\
   option_map lastInteraction (find_venue v (interactions st'))
   = Some (toISOString now) /\
   fst (canInteract tz now v st') = false).
Proof.
  intros Hv Hnow Hcool. cbv zeta.
  rewrite incrementInteraction_eq, canInteract_eq, resetInteractionsIfNeeded_eq
    by exact Hv.
  cbn [fst snd]. cbn zeta. rewrite reset_pass_idempotent by exact Hnow.
  set (l1 := reset_pass tz now (interactions st)).
  pose proof (reset_pass_settled tz now (interactions st) Hnow) as Hset.
  fold l1 in Hset.
  split; [intros ->; reflexivity|]. intros Hacc. rewrite Hacc.
  assert (forall st2 : VenueInteractionState,
            Forall (settled tz now) (interactions st2) ->
            option_map lastInteraction (find_venue v (interactions st2))
            = Some (toISOString now) ->
            fst (canInteract tz now v st2) = false) as Hagain.
  { intros st2 Hs2 Hl. rewrite canInteract_eq by exact Hv. cbn [fst].
    rewrite lastInteraction_reset_pass, Hl.
    rewrite canInteractWithVenue_stamp by exact Hnow.
    rewrite (TimeClip_valid _ Hcool).
    apply Z.leb_gt. unfold INTERACTION_COOLDOWN_HOURS, msPerHour. lia. }
  rewrite !getInteractionCount_eq by exact Hv. cbn [fst].
  fold l1. destruct (find_venue v l1) as [e|] eqn:Ef; cbn [interactions].
  - rewrite (reset_pass_of_settled tz now _ (visit_keeps_settled tz now v a _ l1 Hset)).
    rewrite (visited_state now v a l1 e Ef). cbn [count option_map lastInteraction].
    split; [reflexivity|]. split; [reflexivity|].
    apply Hagain; cbn [interactions].
    + apply visit_keeps_settled, Hset.
    + rewrite (visited_state now v a l1 e Ef). reflexivity.
  - assert (find_venue v
              (filter Boolean l1 ++
               [Some {| venueId := v; count := 1; lastReset := toISOString now;
                        lastInteraction := toISOString now; arrivalTime := a;
                        likes := 0; timestamp := toISOString now;
                        lastLikeReset := toISOString now; dailyLikesUsed := 0;
                        likeTimeSlot := None |}])
            = Some {| venueId := v; count := 1; lastReset := toISOString now;
                      lastInteraction := toISOString now; arrivalTime := a;
                      likes := 0; timestamp := toISOString now;
                      lastLikeReset := toISOString now; dailyLikesUsed := 0;
                      likeTimeSlot := None |}) as Hnew.
    { rewrite find_venue_app, find_venue_filter_Boolean, Ef, find_venue_cons.
      cbn [is_venue venueId]. rewrite String.eqb_refl. reflexivity. }
    assert (Forall (settled tz now)
              (filter Boolean l1 ++
               [Some {| venueId := v; count := 1; lastReset := toISOString now;
                        lastInteraction := toISOString now; arrivalTime := a;
                        likes := 0; timestamp := toISOString now;
                        lastLikeReset := toISOString now; dailyLikesUsed := 0;
                        likeTimeSlot := None |}])) as Hset'.
    { apply Forall_app. split; [apply Forall_filter_Boolean, Hset|].
      constructor; [|constructor]. split; cbn.
      - apply shouldReset_now, Hnow.
      - rewrite str_or_truthy by apply toISOString_truthy.
        apply shouldResetLikes_now, Hnow. }
    rewrite (reset_pass_of_settled tz now _ Hset'), Hnew.
    split; [reflexivity|]. split; [reflexivity|].
    apply Hagain; cbn [interactions]; [exact Hset' | rewrite Hnew; reflexivity].
Qed.

Lemma incrementInteraction_effect_witness :
  truthy "bar1" = true /\ valid_time T0 /\
  valid_time (T0 + INTERACTION_COOLDOWN_HOURS * msPerHour) /\
  let st' := snd (incrementInteraction 0 T0 "bar1" None initialState) in
  (fst (canInteract 0 T0 "bar1" initialState) = false ->
   st' = snd (resetInteractionsIfNeeded 0 T0 initialState)) /\
  (fst (canInteract 0 T0 "bar1" initialState) = true ->
   fst (getInteractionCount 0 T0 "bar1" st')
   = fst (getInteractionCount 0 T0 "bar1" initialState) + 1 /\
   option_map lastInteraction (find_venue "bar1" (interactions st'))
   = Some (toISOString T0) /\
   fst (canInteract 0 T0 "bar1" st') = false).
Proof.
  assert (valid_time T0) as H1 by (cbv; split; discriminate).
  assert (valid_time (T0 + INTERACTION_COOLDOWN_HOURS * msPerHour)) as H2
    by (cbv; split; discriminate).
  split; [reflexivity|]. split; [exact H1|]. split; [exact H2|].
  exact (incrementInteraction_effect 0 T0 "bar1" None initialState eq_refl H1 H2).
Defined.

(** ** Recording a like, in general *)

Lemma shouldResetLikes_stamp tz now t0 :
  valid_time t0 ->
  valid_time (likeBoundary tz now) ->
  valid_time (likeBoundary tz now - msPerDay) ->
  shouldResetLikes tz now (toISOString t0) = (nextLikeBoundary tz t0 <=? now).
Proof.
  intros Ht0 Hb Hy.
  rewrite shouldResetLikes_eq, (Date_parse_toISOString t0 Ht0).
  rewrite (TimeClip_valid _ Hb), (TimeClip_valid _ Hy).
  unfold nextLikeBoundary.
  destruct (Z.leb_spec (likeBoundary tz now) now),
    (Z.leb_spec (likeBoundary tz t0) t0);
    match goal with
    | |- (?a <? ?b) = (?c <=? ?d) =>
        destruct (Z.ltb_spec a b), (Z.leb_spec c d); try reflexivity; exfalso
    end;
    unfold likeBoundary, boundary, Day, msPerDay, msPerHour, msPerMinute,
      LIKE_RESET_HOUR, LIKE_RESET_MINUTE in *;
    Z.to_euclidean_division_equations; lia.
Qed.

Section Likes.

Variables tz now : Z.

Lemma liked_state v ts b u l e :
  find_venue v l = Some e ->
  find_venue v (filter Boolean (map (like_entry v ts (toISOString now) b u) l))
  = Some {| venueId := venueId e;
            count := count e;
            lastReset := lastReset e;
            lastInteraction := lastInteraction e;
            arrivalTime := arrivalTime e;
            likes := likes e + 1;
            timestamp := toISOString now;
            lastLikeReset := if b then toISOString now else lastLikeReset e;
            dailyLikesUsed := u + 1;
            likeTimeSlot := Some ts |}.
Proof.
  intros Ef. rewrite find_venue_filter_Boolean.
  rewrite find_venue_map by apply is_venue_like_entry. rewrite Ef.
  apply find_venue_In in Ef. destruct Ef as [_ Ev].
  cbn [like_entry]. rewrite Ev, String.eqb_refl. reflexivity.
Qed.

Lemma find_venue_reset_pass_Some v l r :
  find_venue v (reset_pass tz now l) = Some r ->
  exists r0, find_venue v l = Some r0 /\ likes r0 = likes r.
Proof.
  rewrite find_venue_reset_pass. destruct (find_venue v l) as [r0|]; [|discriminate].
  intros H. exists r0. split; [reflexivity|].
  destruct (existsb _ l || existsb _ l); cbn in H; injection H as <-; reflexivity.
Qed.

Lemma canLikeVenue_after v st :
  truthy v = true ->
  fst (canLikeVenue tz now v st)
  = match find_venue v (interactions st) with
    | Some r =>
        (if shouldResetLikes tz now (str_or (lastLikeReset r) (lastReset r))
         then 0 else dailyLikesUsed r) <? DAILY_LIKE_LIMIT
    | None => true
    end.
Proof.
  intros Hv. rewrite canLikeVenue_eq by exact Hv. cbn [fst].
  pose proof (quota_left_reset_pass tz now v (interactions st)) as H.
  destruct (find_venue v (reset_pass tz now (interactions st))),
    (find_venue v (interactions st)); cbn in H; congruence.
Qed.

End Likes.

(** X4: what [likeVenue] does, at any clock reading, on a store whose
    entries keep the daily quota.  When [canLikeVenue] answers false the call
    leaves the store as [resetInteractionsIfNeeded] leaves it.  When it
    answers true the cumulative like count of the entity rises by exactly
    one, the entity's like slot becomes the given time slot, and the day's
    quota is used up: [canLikeVenue] at the same clock reading answers
    false. *)
Theorem likeVenue_effect tz now v ts st :
  truthy v = true -> truthy ts = true -> valid_time now ->
  Forall quota_ok (interactions st) ->
  let st' := snd (likeVenue tz now v ts st) in
  (fst (canLikeVenue tz now v st) = false ->
   st' = snd (resetInteractionsIfNeeded tz now st)) /\
  (fst (canLikeVenue tz now v st) = true ->
   getLikeCount v st' = getLikeCount v st + 1 /\
   option_map likeTimeSlot (find_venue v (interactions st')) = Some (Some ts) /\
   fst (canLikeVenue tz now v st') = false).
Proof.
  intros Hv Hts Hnow Hq. cbv zeta.
  rewrite likeVenue_eq, (canLikeVenue_eq tz now v st), resetInteractionsIfNeeded_eq
    by assumption.
  cbn [fst snd]. cbn zeta.
  pose proof (reset_pass_quota tz now _ Hq) as Hq1.
  pose proof (reset_pass_agrees tz now (interactions st)) as Ha1.
  set (l1 := reset_pass tz now (interactions st)) in *.
  unfold getLikeCount. rewrite Hv. cbn [negb].
  destruct (find_venue v l1) as [e|] eqn:Ef.
  - destruct (find_venue_reset_pass_Some tz now v _ e Ef) as (r0 & Hr0 & Hlikes).
    rewrite Hr0, Hlikes.
    pose proof (find_venue_In _ _ _ Ef) as [Hin _].
    pose proof (proj1 (Forall_forall _ _) Hq1 _ Hin) as Hqe.
    pose proof (proj1 (Forall_forall _ _) Ha1 _ Hin) as Hae.
    cbn in Hqe, Hae. rewrite Hae, num_or_0.
    destruct (Z.ltb_spec
                (if shouldResetLikes tz now (lastLikeReset e)
                 then 0 else dailyLikesUsed e) DAILY_LIKE_LIMIT) as [Hlt | Hge].
    + split; [discriminate|]. intros _. cbn [interactions].
      rewrite (liked_state now v ts _ _ l1 e Ef). cbn [likes option_map likeTimeSlot].
      split; [reflexivity|]. split; [reflexivity|].
      rewrite canLikeVenue_after by exact Hv. cbn [interactions].
      rewrite (liked_state now v ts _ _ l1 e Ef).
      cbn [lastLikeReset lastReset dailyLikesUsed].
      apply Z.ltb_ge. unfold DAILY_LIKE_LIMIT in *.
      destruct (shouldResetLikes tz now (lastLikeReset e)) eqn:Es.
      * rewrite str_or_truthy by apply toISOString_truthy.
        rewrite shouldResetLikes_now by exact Hnow. lia.
      * rewrite Hae. lia.
    + split; [reflexivity | discriminate].
  - split; [discriminate|]. intros _.
    assert (find_venue v (interactions st) = None) as Hnone.
    { destruct (find_venue v (interactions st)) as [r0|] eqn:E0; [|reflexivity].
      unfold l1 in Ef. rewrite find_venue_reset_pass, E0 in Ef.
      destruct (existsb _ _ || existsb _ _); discriminate. }
    rewrite Hnone. cbn [interactions].
    match goal with
    | |- context [filter Boolean l1 ++ [Some ?r]] =>
        assert (find_venue v (filter Boolean l1 ++ [Some r]) = Some r) as Hnew
    end.
    { rewrite find_venue_app, find_venue_filter_Boolean, Ef, find_venue_cons.
      cbn [is_venue venueId]. rewrite String.eqb_refl. reflexivity. }
    rewrite Hnew. cbn [likes option_map likeTimeSlot].
    split; [reflexivity|]. split; [reflexivity|].
    rewrite canLikeVenue_after by exact Hv. cbn [interactions]. rewrite Hnew.
    cbn [lastLikeReset lastReset dailyLikesUsed].
    rewrite str_or_truthy by apply toISOString_truthy.
    rewrite shouldResetLikes_now by exact Hnow. reflexivity.
Qed.

Lemma likeVenue_effect_witness :
  truthy "bar1" = true /\ truthy "21:00" = true /\ valid_time T0 /\
  Forall quota_ok (interactions initialState) /\
  let st' := snd (likeVenue 0 T0 "bar1" "21:00" initialState) in
  (fst (canLikeVenue 0 T0 "bar1" initialState) = false ->
   st' = snd (resetInteractionsIfNeeded 0 T0 initialState)) /\
  (fst (canLikeVenue 0 T0 "bar1" initialState) = true ->
   getLikeCount "bar1" st' = getLikeCount "bar1" initialState + 1 /\
   option_map likeTimeSlot (find_venue "bar1" (interactions st'))
   = Some (Some "21:00"%string) /\
   fst (canLikeVenue 0 T0 "bar1" st') = false).
Proof.
  assert (valid_time T0) as H1 by (cbv; split; discriminate).
  assert (Forall quota_ok (interactions initialState)) as H2 by constructor.
  split; [reflexivity|]. split; [reflexivity|]. split; [exact H1|].
  split; [exact H2|].
  exact (likeVenue_effect 0 T0 "bar1" "21:00" initialState eq_refl eq_refl H1 H2).
Defined.

(** X5: one like per entity and like window.  After the first like of an
    entity, recorded at [T], [canLikeVenue] answers true again exactly from
    the first 04:59:00 local boundary after [T] on; a second [likeVenue]
    before that boundary leaves the cumulative like count at 1, one at or
    after it raises the count to 2. *)
Theorem like_quota_window tz T now v ts ts' st :
  truthy v = true -> truthy ts = true -> truthy ts' = true ->
  valid_time T ->
  find_venue v (interactions st) = None ->
  valid_time (likeBoundary tz now) ->
  valid_time (likeBoundary tz now - msPerDay) ->
  let st1 := snd (likeVenue tz T v ts st) in
  fst (canLikeVenue tz now v st1) = (nextLikeBoundary tz T <=? now) /\
  getLikeCount v (snd (likeVenue tz now v ts' st1))
  = if nextLikeBoundary tz T <=? now then 2 else 1.
Proof.
  intros Hv Hts Hts' HT Hnone Hb Hy. cbv zeta.
  assert (exists e,
            find_venue v (interactions (snd (likeVenue tz T v ts st))) = Some e /\
            likes e = 1 /\ dailyLikesUsed e = 1 /\
            lastLikeReset e = toISOString T) as (e & Hfind & Hlikes & Hused & Hstamp).
  { rewrite likeVenue_eq by assumption. cbn [snd]. cbn zeta.
    rewrite find_venue_reset_pass_None by exact Hnone. cbn [interactions].
    eexists. split.
    - rewrite find_venue_app, find_venue_filter_Boolean.
      rewrite find_venue_reset_pass_None by exact Hnone.
      rewrite find_venue_cons. cbn [is_venue venueId].
      rewrite String.eqb_refl. reflexivity.
    - repeat split. }
  set (st1 := snd (likeVenue tz T v ts st)) in *. clearbody st1.
  assert (fst (canLikeVenue tz now v st1) = (nextLikeBoundary tz T <=? now)) as Hcan.
  { rewrite canLikeVenue_after by exact Hv. rewrite Hfind, Hused, Hstamp.
    rewrite str_or_truthy by apply toISOString_truthy.
    rewrite shouldResetLikes_stamp by assumption.
    destruct (nextLikeBoundary tz T <=? now); reflexivity. }
  split; [exact Hcan|].
  rewrite canLikeVenue_eq in Hcan by exact Hv. cbn [fst] in Hcan.
  rewrite likeVenue_eq by assumption. cbn [snd]. cbn zeta.
  pose proof (likes_reset_pass tz now v (interactions st1)) as Hl.
  rewrite Hfind in Hl. cbn [option_map] in Hl. rewrite Hlikes in Hl.
  unfold getLikeCount. rewrite Hv. cbn [negb].
  destruct (find_venue v (reset_pass tz now (interactions st1))) as [e1|] eqn:E1;
    [|discriminate].
  cbn [option_map] in Hl. injection Hl as Hl.
  rewrite Hcan. destruct (nextLikeBoundary tz T <=? now); cbn [interactions].
  - rewrite (liked_state now v ts' _ _ _ e1 E1). cbn [likes]. lia.
  - rewrite E1. exact Hl.
Qed.

Lemma like_quota_window_witness :
  truthy "bar1" = true /\ truthy "21:00" = true /\ truthy "22:00" = true /\
  valid_time T0 /\
  find_venue "bar1" (interactions initialState) = None /\
  valid_time (likeBoundary 0 (T0 + msPerDay)) /\
  valid_time (likeBoundary 0 (T0 + msPerDay) - msPerDay) /\
  let st1 := snd (likeVenue 0 T0 "bar1" "21:00" initialState) in
  fst (canLikeVenue 0 (T0 + msPerDay) "bar1" st1)
  = (nextLikeBoundary 0 T0 <=? T0 + msPerDay) /\
  getLikeCount "bar1" (snd (likeVenue 0 (T0 + msPerDay) "bar1" "22:00" st1))
  = if nextLikeBoundary 0 T0 <=? T0 + msPerDay then 2 else 1.
Proof.
  assert (valid_time T0) as H1 by (cbv; split; discriminate).
  assert (valid_time (likeBoundary 0 (T0 + msPerDay))) as H2
    by (cbv; split; discriminate).
  assert (valid_time (likeBoundary 0 (T0 + msPerDay) - msPerDay)) as H3
    by (cbv; split; discriminate).
  split; [reflexivity|]. split; [reflexivity|]. split; [reflexivity|].
  split; [exact H1|]. split; [reflexivity|]. split; [exact H2|].
  split; [exact H3|].
  exact (like_quota_window 0 T0 (T0 + msPerDay) "bar1" "21:00" "22:00"
           initialState eq_refl eq_refl eq_refl H1 eq_refl H2 H3).
Defined.

(** ** The cooldown on a readable timestamp *)



(** ** Invariants *)

Lemma venue_ids_app l1 l2 : venue_ids (l1 ++ l2) = venue_ids l1 ++ venue_ids l2.
Proof. apply flat_map_app. Qed.

Lemma venue_ids_filter_Boolean l : venue_ids (filter Boolean l) = venue_ids l.
Proof.
  induction l as [|[r|] l IH]; cbn; [reflexivity | f_equal; exact IH | exact IH].
Qed.

Lemma venue_ids_map f l :
  (forall i, entry_id (f i) = entry_id i) ->
  venue_ids (map f l) = venue_ids l.
Proof.
  intros Hf. induction l as [|i l IH]; [reflexivity|].
  cbn [map venue_ids flat_map]. rewrite Hf. f_equal. exact IH.
Qed.

Lemma entry_id_reset_entry tz now i : entry_id (reset_entry tz now i) = entry_id i.
Proof. destruct i; reflexivity. Qed.

Lemma entry_id_visit_entry v a s i : entry_id (visit_entry v a s i) = entry_id i.
Proof.
  destruct i as [r|]; [|reflexivity]. cbn.
  destruct (venueId r =? v)%string; reflexivity.
Qed.

Lemma entry_id_like_entry v ts s b u i :
  entry_id (like_entry v ts s b u i) = entry_id i.
Proof.
  destruct i as [r|]; [|reflexivity]. cbn.
  destruct (venueId r =? v)%string; reflexivity.
Qed.

Lemma venue_ids_reset_pass tz now l : venue_ids (reset_pass tz now l) = venue_ids l.
Proof.
  unfold reset_pass. destruct (existsb _ l || existsb _ l); [|reflexivity].
  rewrite venue_ids_filter_Boolean.
  rewrite venue_ids_map by apply entry_id_reset_entry.
  apply venue_ids_filter_Boolean.
Qed.

Lemma find_venue_None_ids v l : find_venue v l = None <-> ~ In v (venue_ids l).
Proof.
  induction l as [|i l IH]; [cbn; tauto|].
  rewrite find_venue_cons. destruct i as [r|]; cbn [is_venue venue_ids flat_map entry_id].
  - cbn [app In]. destruct (String.eqb_spec (venueId r) v) as [E | E].
    + split; [discriminate | intros H; exfalso; apply H; left; exact E].
    + rewrite IH. tauto.
  - cbn [app]. exact IH.
Qed.

Section Keys.

Variables tz now : Z.

Lemma keyed_step (l : list (option VenueInteraction)) v r :
  NoDup (venue_ids l) /\ Forall (fun id => truthy id = true) (venue_ids l) ->
  truthy v = true -> find_venue v l = None -> venueId r = v ->
  NoDup (venue_ids (filter Boolean l ++ [Some r])) /\
  Forall (fun id => truthy id = true) (venue_ids (filter Boolean l ++ [Some r])).
Proof.
  intros [Hnd Hall] Hv Hnone Hr.
  rewrite venue_ids_app, venue_ids_filter_Boolean. cbn [venue_ids flat_map entry_id app].
  rewrite Hr. split.
  - apply NoDup_app; [exact Hnd | repeat constructor; intros [] |].
    intros x Hx [<- | []]. apply find_venue_None_ids in Hnone. exact (Hnone Hx).
  - apply Forall_app. split; [exact Hall | repeat constructor; exact Hv].
Qed.

Lemma perform_well_keyed c st : well_keyed st -> well_keyed (perform tz now c st).
Proof.
  unfold well_keyed. intros H.
  assert (NoDup (venue_ids (reset_pass tz now (interactions st))) /\
          Forall (fun id => truthy id = true)
            (venue_ids (reset_pass tz now (interactions st)))) as H1
    by (rewrite venue_ids_reset_pass; exact H).
  assert (NoDup (venue_ids (reset_pass tz now (reset_pass tz now (interactions st)))) /\
          Forall (fun id => truthy id = true)
            (venue_ids (reset_pass tz now (reset_pass tz now (interactions st)))))
    as H2 by (rewrite !venue_ids_reset_pass; exact H).
  destruct c as [v a | v ts | | v | v | v]; cbn [perform].
  - destruct (truthy v) eqn:Hv;
      [|rewrite incrementInteraction_rejects_empty by exact Hv; exact H].
    rewrite incrementInteraction_eq by exact Hv. cbn [snd]. cbn zeta.
    destruct (canInteractWithVenue tz now _); [|exact H2].
    destruct (find_venue v _) eqn:Ef; cbn [interactions].
    + rewrite venue_ids_filter_Boolean.
      rewrite venue_ids_map by apply entry_id_visit_entry. exact H2.
    + apply (keyed_step _ v); [exact H2 | exact Hv | exact Ef | reflexivity].
  - destruct (truthy v) eqn:Hv;
      [|rewrite likeVenue_rejects_empty by auto; exact H].
    destruct (truthy ts) eqn:Hts;
      [|rewrite likeVenue_rejects_empty by auto; exact H].
    rewrite likeVenue_eq by assumption. cbn [snd]. cbn zeta.
    destruct (find_venue v _) eqn:Ef; cbn [interactions].
    + destruct (_ <? DAILY_LIKE_LIMIT); cbn [interactions]; [|exact H1].
      rewrite venue_ids_filter_Boolean.
      rewrite venue_ids_map by apply entry_id_like_entry. exact H1.
    + apply (keyed_step _ v); [exact H1 | exact Hv | exact Ef | reflexivity].
  - rewrite resetInteractionsIfNeeded_eq. exact H1.
  - destruct (truthy v) eqn:Hv.
    + rewrite canInteract_eq by exact Hv. exact H1.
    + unfold canInteract. rewrite Hv. exact H.
  - destruct (truthy v) eqn:Hv.
    + rewrite canLikeVenue_eq by exact Hv. exact H1.
    + unfold canLikeVenue. rewrite Hv. exact H.
  - destruct (truthy v) eqn:Hv.
    + rewrite getInteractionCount_eq by exact Hv. exact H1.
    + unfold getInteractionCount. rewrite Hv. exact H.
Qed.

End Keys.

(** X7: one entry per venue.  Whatever actions are called, at whatever clock
    readings, a store in which no two entries share a venue identifier and no
    entry has the empty identifier stays such a store: an entry is only
    added for a non-empty identifier that [find] did not find. *)
Theorem run_well_keyed tz calls st :
  well_keyed st -> well_keyed (run tz calls st).
Proof.
  unfold run. revert st.
  induction calls as [|[now c] calls IH]; intros st H; [exact H|].
  cbn [fold_left fst snd]. apply IH, perform_well_keyed, H.
Qed.

Lemma run_well_keyed_witness :
  well_keyed initialState /\
  well_keyed
    (run 0 [(T0, CallLikeVenue "bar1" "21:00");
            (T0 + 500, CallIncrementInteraction "bar1" (Some "21:30"));
            (T0 + 1000, CallIncrementInteraction "bar2" None);
            (T0 + msPerDay, CallLikeVenue "bar2" "22:00")]%string
         initialState).
Proof.
  assert (well_keyed initialState) as H by (split; constructor).
  split; [exact H|]. apply (run_well_keyed 0). exact H.
Defined.

(** *** Properties of single entries that every action keeps *)

Section EntryInvariant.

Variables tz now : Z.
Variable P : option VenueInteraction -> Prop.

Hypothesis P_reset : forall i, P i -> P (reset_entry tz now i).
Hypothesis P_visit :
  forall v a i, P i -> P (visit_entry v a (toISOString now) i).
Hypothesis P_like :
  forall v ts b u i, P i -> P (like_entry v ts (toISOString now) b u i).
Hypothesis P_new_visit :
  forall v a,
    P (Some {| venueId := v; count := 1; lastReset := toISOString now;
               lastInteraction := toISOString now; arrivalTime := a; likes := 0;
               timestamp := toISOString now; lastLikeReset := toISOString now;
               dailyLikesUsed := 0; likeTimeSlot := None |}).
Hypothesis P_new_like :
  forall v ts,
    P (Some {| venueId := v; count := 0; lastReset := toISOString now;
               lastInteraction := ""; arrivalTime := None; likes := 1;
               timestamp := toISOString now; lastLikeReset := toISOString now;
               dailyLikesUsed := 1; likeTimeSlot := Some ts |}).

Lemma reset_pass_Forall l : Forall P l -> Forall P (reset_pass tz now l).
Proof.
  intros H. unfold reset_pass.
  destruct (existsb _ l || existsb _ l); [|exact H].
  apply Forall_filter_Boolean, Forall_map, Forall_filter_Boolean.
  revert H. apply Forall_impl. exact P_reset.
Qed.

Lemma perform_Forall c st :
  Forall P (interactions st) -> Forall P (interactions (perform tz now c st)).
Proof.
  intros H.
  pose proof (reset_pass_Forall _ H) as H1.
  pose proof (reset_pass_Forall _ H1) as H2.
  destruct c as [v a | v ts | | v | v | v]; cbn [perform].
  - destruct (truthy v) eqn:Hv;
      [|rewrite incrementInteraction_rejects_empty by exact Hv; exact H].
    rewrite incrementInteraction_eq by exact Hv. cbn [snd]. cbn zeta.
    destruct (canInteractWithVenue tz now _); [|exact H2].
    destruct (find_venue v _); cbn [interactions].
    + apply Forall_filter_Boolean, Forall_map.
      revert H2. apply Forall_impl. apply P_visit.
    + apply Forall_app. split; [apply Forall_filter_Boolean, H2|].
      constructor; [apply P_new_visit | constructor].
  - destruct (truthy v) eqn:Hv;
      [|rewrite likeVenue_rejects_empty by auto; exact H].
    destruct (truthy ts) eqn:Hts;
      [|rewrite likeVenue_rejects_empty by auto; exact H].
    rewrite likeVenue_eq by assumption. cbn [snd]. cbn zeta.
    destruct (find_venue v _); cbn [interactions].
    + destruct (_ <? DAILY_LIKE_LIMIT); cbn [interactions]; [|exact H1].
      apply Forall_filter_Boolean, Forall_map.
      revert H1. apply Forall_impl. apply P_like.
    + apply Forall_app. split; [apply Forall_filter_Boolean, H1|].
      constructor; [apply P_new_like | constructor].
  - rewrite resetInteractionsIfNeeded_eq. exact H1.
  - destruct (truthy v) eqn:Hv.
    + rewrite canInteract_eq by exact Hv. exact H1.
    + unfold canInteract. rewrite Hv. exact H.
  - destruct (truthy v) eqn:Hv.
    + rewrite canLikeVenue_eq by exact Hv. exact H1.
    + unfold canLikeVenue. rewrite Hv. exact H.
  - destruct (truthy v) eqn:Hv.
    + rewrite getInteractionCount_eq by exact Hv. exact H1.
    + unfold getInteractionCount. rewrite Hv. exact H.
Qed.

End EntryInvariant.

Lemma perform_counts_ok tz now c st :
  Forall counts_ok (interactions st) ->
  Forall counts_ok (interactions (perform tz now c st)).
Proof.
  apply perform_Forall.
  - intros [r|] H; [|exact I]. destruct H as (Hc & Hl & Ha).
    cbn [reset_entry counts_ok count likes arrivalTime].
    destruct (shouldReset tz now (lastReset r)).
    + split; [lia|]. split; [exact Hl | discriminate].
    + split; [exact Hc|]. split; [exact Hl | exact Ha].
  - intros v a [r|] H; [|exact I]. destruct H as (Hc & Hl & Ha).
    cbn [visit_entry]. destruct (venueId r =? v)%string.
    + cbn [counts_ok count likes arrivalTime].
      split; [lia|]. split; [exact Hl | intros _; lia].
    + split; [exact Hc|]. split; [exact Hl | exact Ha].
  - intros v ts b u [r|] H; [|exact I]. destruct H as (Hc & Hl & Ha).
    cbn [like_entry]. destruct (venueId r =? v)%string.
    + cbn [counts_ok count likes arrivalTime].
      split; [exact Hc|]. split; [lia | exact Ha].
    + split; [exact Hc|]. split; [exact Hl | exact Ha].
  - intros v a. cbn [counts_ok count likes arrivalTime].
    split; [lia|]. split; [lia | intros _; lia].
  - intros v ts. cbn [counts_ok count likes arrivalTime truthy_opt].
    split; [lia|]. split; [lia | discriminate].
Qed.

(** X8: counts stay meaningful.  Whatever actions are called, at whatever
    clock readings, every entry keeps a visit count and a like count that are
    not negative, and keeps a non-empty arrival slot only together with a
    positive visit count, if every entry had that before. *)
Theorem run_counts_ok tz calls st :
  Forall counts_ok (interactions st) ->
  Forall counts_ok (interactions (run tz calls st)).
Proof.
  unfold run. revert st.
  induction calls as [|[now c] calls IH]; intros st H; [exact H|].
  cbn [fold_left fst snd]. apply IH, perform_counts_ok, H.
Qed.

Lemma run_counts_ok_witness :
  Forall counts_ok (interactions initialState) /\
  Forall counts_ok
    (interactions
       (run 0 [(T0, CallIncrementInteraction "bar1" (Some "21:30"));
               (T0 + 1000, CallLikeVenue "bar1" "21:00");
               (T0 + msPerDay, CallGetInteractionCount "bar1")]%string
            initialState)).
Proof.
  assert (Forall counts_ok (interactions initialState)) as H by constructor.
  split; [exact H|]. apply (run_counts_ok 0). exact H.
Defined.

Lemma readable_stamp t : valid_time t -> readable (toISOString t).
Proof. intros H. unfold readable. rewrite Date_parse_toISOString by exact H. discriminate. Qed.

Lemma readable_str_or a b : readable a -> readable b -> readable (str_or a b).
Proof. unfold str_or. destruct (truthy a); auto. Qed.

Lemma perform_stamps_ok tz now c st :
  valid_time now ->
  Forall stamps_ok (interactions st) ->
  Forall stamps_ok (interactions (perform tz now c st)).
Proof.
  intros Hnow. pose proof (readable_stamp now Hnow) as Hr.
  apply perform_Forall.
  - intros [r|] H; [|exact I]. destruct H as (H1 & H2 & H3 & H4).
    cbn [reset_entry stamps_ok lastReset lastLikeReset timestamp lastInteraction].
    split; [destruct (shouldReset tz now (lastReset r)); assumption|].
    split; [|split; assumption].
    destruct (shouldResetLikes tz now _); [assumption|].
    apply readable_str_or; assumption.
  - intros v a [r|] H; [|exact I]. destruct H as (H1 & H2 & H3 & H4).
    cbn [visit_entry]. destruct (venueId r =? v)%string.
    + cbn [stamps_ok lastReset lastLikeReset timestamp lastInteraction].
      split; [exact H1|]. split; [exact H2|]. split; [exact Hr | right; exact Hr].
    + split; [exact H1|]. split; [exact H2|]. split; assumption.
  - intros v ts b u [r|] H; [|exact I]. destruct H as (H1 & H2 & H3 & H4).
    cbn [like_entry]. destruct (venueId r =? v)%string.
    + cbn [stamps_ok lastReset lastLikeReset timestamp lastInteraction].
      split; [exact H1|]. split; [destruct b; assumption|].
      split; [exact Hr | exact H4].
    + split; [exact H1|]. split; [exact H2|]. split; assumption.
  - intros v a.
    cbn [stamps_ok lastReset lastLikeReset timestamp lastInteraction].
    split; [exact Hr|]. split; [exact Hr|]. split; [exact Hr | right; exact Hr].
  - intros v ts.
    cbn [stamps_ok lastReset lastLikeReset timestamp lastInteraction].
    split; [exact Hr|]. split; [exact Hr|]. split; [exact Hr | left; reflexivity].
Qed.

(** X9: the store writes only timestamps it can read back.  If every
    timestamp of every entry is readable by [new Date] ([lastInteraction]
    may also be empty), it stays so whatever actions are called, at whatever
    valid clock readings. *)
Theorem run_stamps_ok tz calls st :
  Forall (fun c => valid_time (fst c)) calls ->
  Forall stamps_ok (interactions st) ->
  Forall stamps_ok (interactions (run tz calls st)).
Proof.
  unfold run. revert st.
  induction calls as [|[now c] calls IH]; intros st Hc H; [exact H|].
  inversion Hc as [|? ? Hnow Hrest]; subst.
  cbn [fold_left fst snd]. apply IH; [exact Hrest|].
  apply perform_stamps_ok; assumption.
Qed.

Lemma run_stamps_ok_witness :
  Forall (fun c => valid_time (fst c))
    [(T0, CallIncrementInteraction "bar1" (Some "21:30"%string));
     (T0 + msPerDay, CallLikeVenue "bar1" "21:00")] /\
  Forall stamps_ok (interactions initialState) /\
  Forall stamps_ok
    (interactions
       (run 0 [(T0, CallIncrementInteraction "bar1" (Some "21:30"%string));
               (T0 + msPerDay, CallLikeVenue "bar1" "21:00")]
            initialState)).
Proof.
  assert (Forall (fun c : Z * Call => valid_time (fst c))
            [(T0, CallIncrementInteraction "bar1" (Some "21:30"%string));
             (T0 + msPerDay, CallLikeVenue "bar1" "21:00")]) as H1
    by (repeat constructor; cbv; discriminate).
  assert (Forall stamps_ok (interactions initialState)) as H2 by constructor.
  split; [exact H1|]. split; [exact H2|].
  apply (run_stamps_ok 0); assumption.
Defined.

(** ** What visits and likes leave alone *)

Lemma total_likes_app (l : list (option VenueInteraction)) r acc :
  fold_left (fun total i =>
               total + num_or (match i with Some r => likes r | None => 0 end) 0)
    (l ++ [Some r]) acc
  = fold_left (fun total i =>
               total + num_or (match i with Some r => likes r | None => 0 end) 0)
      l acc + likes r.
Proof. rewrite fold_left_app. cbn. rewrite num_or_0. reflexivity. Qed.

Lemma total_likes_ext (l l' : list (option VenueInteraction)) :
  map (option_map likes) l = map (option_map likes) l' ->
  forall acc,
    fold_left (fun total i =>
                 total + num_or (match i with Some r => likes r | None => 0 end) 0)
      l acc
    = fold_left (fun total i =>
                 total + num_or (match i with Some r => likes r | None => 0 end) 0)
      l' acc.
Proof.
  revert l'. induction l as [|i l IH]; intros [|i' l'] H acc;
    try discriminate; [reflexivity|].
  cbn [map] in H. injection H as Hi Hl. cbn [fold_left].
  rewrite (IH l' Hl).
  destruct i as [r|], i' as [r'|]; try discriminate; [|reflexivity].
  cbn in Hi. injection Hi as Hlikes. rewrite Hlikes. reflexivity.
Qed.

Lemma likes_view_kept_fields (l : list (option VenueInteraction)) :
  map (option_map likes) l
  = map (option_map (fun k : string * Z * string * string => snd (fst (fst k))))
      (map kept_fields l).
Proof. rewrite map_map. apply map_ext. intros [r|]; reflexivity. Qed.

Lemma likes_view_reset_pass tz now l :
  map (option_map likes) (filter Boolean (reset_pass tz now l))
  = map (option_map likes) (filter Boolean l).
Proof.
  rewrite !likes_view_kept_fields, kept_fields_reset_pass. reflexivity.
Qed.

(** X10: a visit leaves every like alone.  Whether accepted or rejected,
    [incrementInteraction] changes neither [getLikeCount] of any entity nor
    [getTotalLikes]. *)
Theorem incrementInteraction_keeps_likes tz now v a st :
  let st' := snd (incrementInteraction tz now v a st) in
  (forall w, getLikeCount w st' = getLikeCount w st) /\
  getTotalLikes st' = getTotalLikes st.
Proof.
  cbv zeta.
  destruct (truthy v) eqn:Hv;
    [|rewrite incrementInteraction_rejects_empty by exact Hv; split; reflexivity].
  rewrite incrementInteraction_eq by exact Hv. cbn [snd]. cbn zeta.
  set (l2 := reset_pass tz now (reset_pass tz now (interactions st))).
  assert (forall w, option_map likes (find_venue w l2)
                    = option_map likes (find_venue w (interactions st))) as Hfind
    by (intros w; unfold l2; rewrite !likes_reset_pass; reflexivity).
  assert (map (option_map likes) (filter Boolean l2)
          = map (option_map likes) (filter Boolean (interactions st))) as Hview
    by (unfold l2; rewrite !likes_view_reset_pass; reflexivity).
  assert (forall l : list (option VenueInteraction),
            (forall w, match find_venue w l with Some r => likes r | None => 0 end
                       = match find_venue w l2 with Some r => likes r | None => 0 end) ->
            forall w, getLikeCount w {| interactions := l |} = getLikeCount w st)
    as Hcount.
  { intros l H w. unfold getLikeCount. cbn [interactions].
    destruct (truthy w); [|reflexivity]. cbn [negb]. rewrite (H w).
    specialize (Hfind w).
    destruct (find_venue w l2), (find_venue w (interactions st)); cbn in Hfind;
      congruence. }
  destruct (canInteractWithVenue tz now _).
  - destruct (find_venue v l2) as [e|] eqn:Ef.
    + split.
      * apply Hcount. intros w. rewrite find_venue_filter_Boolean.
        rewrite find_venue_map by apply is_venue_visit_entry.
        destruct (find_venue w l2) as [r|]; [|reflexivity].
        cbn. destruct (venueId r =? v)%string; reflexivity.
      * unfold getTotalLikes. cbn [interactions]. apply total_likes_ext.
        rewrite filter_Boolean_idem, <- Hview.
        rewrite filter_Boolean_map_all by apply Boolean_visit_entry.
        rewrite map_map. apply map_ext. intros [r|]; [|reflexivity].
        cbn. destruct (venueId r =? v)%string; reflexivity.
    + split.
      * apply Hcount. intros w. rewrite find_venue_app, find_venue_filter_Boolean.
        destruct (find_venue w l2) as [r|] eqn:Ew; [reflexivity|].
        rewrite find_venue_cons. cbn [is_venue venueId].
        destruct (v =? w)%string; reflexivity.
      * unfold getTotalLikes. cbn [interactions].
        rewrite filter_app, filter_Boolean_idem. cbn [filter Boolean].
        rewrite total_likes_app. cbn [likes]. rewrite Z.add_0_r.
        apply total_likes_ext, Hview.
  - split; [apply Hcount; reflexivity|].
    unfold getTotalLikes. cbn [interactions]. apply total_likes_ext, Hview.
Qed.

(** X11: a like leaves visit eligibility alone.  Whether accepted or
    rejected, [likeVenue] changes the answer of [canInteract] for no entity
    and at no clock reading; in particular liking an entity, new or not,
    never starts or restarts its visit cooldown. *)
Theorem likeVenue_keeps_canInteract tz now v ts st now' w :
  fst (canInteract tz now' w (snd (likeVenue tz now v ts st)))
  = fst (canInteract tz now' w st).
Proof.
  destruct (truthy w) eqn:Hw;
    [|unfold canInteract; rewrite Hw; reflexivity].
  rewrite !canInteract_eq by exact Hw. cbn [fst].
  rewrite !lastInteraction_reset_pass.
  destruct (truthy v) eqn:Hv;
    [|rewrite likeVenue_rejects_empty by auto; reflexivity].
  destruct (truthy ts) eqn:Hts;
    [|rewrite likeVenue_rejects_empty by auto; reflexivity].
  rewrite likeVenue_eq by assumption. cbn [snd]. cbn zeta.
  set (l1 := reset_pass tz now (interactions st)).
  assert (option_map lastInteraction (find_venue w l1)
          = option_map lastInteraction (find_venue w (interactions st))) as Hl1
    by apply lastInteraction_reset_pass.
  destruct (find_venue v l1) as [e|] eqn:Ef.
  - destruct (_ <? DAILY_LIKE_LIMIT); cbn [interactions]; [|rewrite Hl1; reflexivity].
    rewrite find_venue_filter_Boolean.
    rewrite find_venue_map by apply is_venue_like_entry.
    rewrite <- Hl1. destruct (find_venue w l1) as [r|]; [|reflexivity].
    cbn. destruct (venueId r =? v)%string; reflexivity.
  - cbn [interactions]. rewrite find_venue_app, find_venue_filter_Boolean.
    rewrite <- Hl1. destruct (find_venue w l1) as [r|] eqn:Ew; [reflexivity|].
    rewrite find_venue_cons. cbn [is_venue venueId].
    destruct (v =? w)%string; reflexivity.
Qed.

(** ** Bars visited *)

Lemma length_filter_map_le {A B} (p : B -> bool) (q : A -> bool) (f : A -> B) l :
  (forall i, p (f i) = true -> q i = true) ->
  (List.length (filter p (map f l)) <= List.length (filter q l))%nat.
Proof.
  intros H. induction l as [|i l IH]; [apply Nat.le_refl|]. cbn [map filter].
  destruct (p (f i)) eqn:E.
  - rewrite (H i E). cbn [List.length]. apply le_n_S, IH.
  - destruct (q i); cbn [List.length]; [apply le_S|]; exact IH.
Qed.

Lemma length_filter_map_ge {A B} (p : B -> bool) (q : A -> bool) (f : A -> B) l :
  (forall i, q i = true -> p (f i) = true) ->
  (List.length (filter q l) <= List.length (filter p (map f l)))%nat.
Proof.
  intros H. induction l as [|i l IH]; [apply Nat.le_refl|]. cbn [map filter].
  destruct (q i) eqn:E.
  - rewrite (H i E). cbn [List.length]. apply le_n_S, IH.
  - destruct (p (f i)); cbn [List.length]; [apply le_S|]; exact IH.
Qed.

Lemma filter_of_filter_Boolean (p : option VenueInteraction -> bool) l :
  p None = false -> filter p (filter Boolean l) = filter p l.
Proof.
  intros H. induction l as [|[r|] l IH]; cbn [filter Boolean].
  - reflexivity.
  - rewrite IH. reflexivity.
  - rewrite H. exact IH.
Qed.

(** X12: [getTotalBarsVisited] counts the entries with a non-empty
    identifier and a like or a current visit.  A reset pass can only lower
    it, and never below the number of entries with a non-empty identifier
    and at least one like: a venue that was only visited drops out of the
    total when its visit window elapses, a liked venue stays. *)
Theorem getTotalBarsVisited_reset tz now st :
  let st' := snd (resetInteractionsIfNeeded tz now st) in
  Z.of_nat (List.length (filter is_liked_bar (interactions st)))
  <= getTotalBarsVisited st' /\
  getTotalBarsVisited st' <= getTotalBarsVisited st.
Proof.
  cbv zeta. rewrite resetInteractionsIfNeeded_eq. cbn [snd].
  unfold getTotalBarsVisited. cbn [interactions]. unfold reset_pass.
  destruct (existsb _ _ || existsb _ _).
  - rewrite filter_Boolean_map by apply Boolean_reset_entry.
    rewrite <- (filter_of_filter_Boolean is_liked_bar (interactions st)) by reflexivity.
    rewrite <- (filter_of_filter_Boolean is_visited_bar (interactions st)) by reflexivity.
    split; apply inj_le.
    + apply length_filter_map_ge. intros [r|]; [|discriminate]. cbn.
      intros H. apply andb_prop in H. destruct H as [-> ->]. reflexivity.
    + apply length_filter_map_le. intros [r|]; [|discriminate]. cbn.
      destruct (truthy (venueId r)); [|discriminate]. cbn [andb].
      destruct (0 <? likes r); [reflexivity|]. cbn [orb].
      destruct (shouldReset tz now (lastReset r)); [discriminate | trivial].
  - split; [|apply Z.le_refl]. apply inj_le.
    rewrite <- (map_id (interactions st)) at 2.
    apply length_filter_map_ge. intros [r|]; [|discriminate]. cbn.
    intros H. apply andb_prop in H. destruct H as [-> ->]. reflexivity.
Qed.

(** ** The entries of one venue *)

Lemma filter_is_venue_None v l :
  find_venue v l = None -> filter (is_venue v) l = [].
Proof.
  induction l as [|i l IH]; [reflexivity|].
  rewrite find_venue_cons. cbn [filter].
  destruct (is_venue v i) eqn:E; [|exact IH].
  destruct i; [discriminate | discriminate].
Qed.

Lemma filter_is_venue_unique v l :
  NoDup (venue_ids l) ->
  filter (is_venue v) l
  = match find_venue v l with Some r => [Some r] | None => [] end.
Proof.
  induction l as [|i l IH]; [reflexivity|]. intros Hnd.
  rewrite find_venue_cons. cbn [filter].
  destruct i as [r|]; cbn [is_venue venue_ids flat_map entry_id app] in *.
  - inversion Hnd as [|? ? Hnot Hrest]; subst.
    destruct (String.eqb_spec (venueId r) v) as [E | E]; [|apply IH, Hrest].
    f_equal. apply filter_is_venue_None, find_venue_None_ids.
    rewrite <- E. exact Hnot.
  - apply IH, Hnd.
Qed.

(** X13: in a store with one entry per venue, [getAllInteractionsForVenue]
    returns the entry [find] finds and nothing else, and nothing for an
    unknown venue. *)
Theorem getAllInteractionsForVenue_unique v st :
  NoDup (venue_ids (interactions st)) ->
  getAllInteractionsForVenue v st
  = if truthy v then
      match find_venue v (interactions st) with
      | Some r => [Some r]
      | None => []
      end
    else [].
Proof.
  intros H. unfold getAllInteractionsForVenue.
  destruct (truthy v); [|reflexivity]. apply filter_is_venue_unique, H.
Qed.

Lemma getAllInteractionsForVenue_unique_witness :
  NoDup (venue_ids [sample_entry "bar1" 1 None 0; sample_entry "bar2" 0 None 2]) /\
  getAllInteractionsForVenue "bar2"
    {| interactions := [sample_entry "bar1" 1 None 0; sample_entry "bar2" 0 None 2] |}
  = if truthy "bar2" then
      match find_venue "bar2"
              [sample_entry "bar1" 1 None 0; sample_entry "bar2" 0 None 2] with
      | Some r => [Some r]
      | None => []
      end
    else [].
Proof.
  assert (NoDup (venue_ids [sample_entry "bar1" 1 None 0; sample_entry "bar2" 0 None 2]))
    as H.
  { cbn. constructor; [intros [E | []]; discriminate|].
    constructor; [intros [] | constructor]. }
  split; [exact H|].
  exact (getAllInteractionsForVenue_unique "bar2"
           {| interactions := [sample_entry "bar1" 1 None 0; sample_entry "bar2" 0 None 2] |}
           H).
Defined.

(** ** The hot time *)










(** ** Visits and likes per arrival slot *)















(** ** The detailed time slots *)

Section SortByKey.

Context {A : Type}.
Variable key : A -> Z.

Lemma sort_insert_key_sorted x l :
  StronglySorted (fun a b => key b <= key a) l ->
  StronglySorted (fun a b => key b <= key a)
    (sort_insert (fun a b => key b - key a) x l).
Proof.
  induction 1 as [|y l Hs IH Hy]; cbn; [repeat constructor|].
  destruct (Z.leb_spec (key y - key x) 0) as [Hle | Hgt].
  - constructor; [constructor; assumption|].
    constructor; [lia|]. revert Hy. apply Forall_impl. intros; lia.
  - constructor; [exact IH|].
    refine (Permutation_Forall (Permutation_sym (sort_insert_perm _ _ _)) _).
    constructor; [lia | exact Hy].
Qed.

Lemma sort_key_sorted l :
  StronglySorted (fun a b => key b <= key a) (sort (fun a b => key b - key a) l).
Proof.
  induction l as [|x l IH]; cbn; [constructor|].
  apply sort_insert_key_sorted, IH.
Qed.

Lemma sorted_firstn_skipn n (l : list A) a b :
  StronglySorted (fun a b => key b <= key a) l ->
  In a (firstn n l) -> In b (skipn n l) -> key b <= key a.
Proof.
  revert l. induction n as [|n IH]; intros l Hs Ha Hb; [destruct Ha|].
  destruct l as [|x l]; [destruct Ha|].
  inversion Hs as [|? ? Hs' Hx]; subst. cbn [firstn skipn] in Ha, Hb.
  destruct Ha as [<- | Ha].
  - apply (proj1 (Forall_forall _ _) Hx).
    rewrite <- (firstn_skipn n l). apply in_or_app. right. exact Hb.
  - exact (IH l Hs' Ha Hb).
Qed.

End SortByKey.

Lemma NoDup_map_eq {A B} (f : A -> B) l x y :
  NoDup (map f l) -> In x l -> In y l -> f x = f y -> x = y.
Proof.
  induction l as [|z l IH]; [intros _ []|]. cbn [map]. intros Hnd Hx Hy E.
  inversion Hnd as [|? ? Hnot Hrest]; subst.
  destruct Hx as [-> | Hx], Hy as [-> | Hy].
  - reflexivity.
  - exfalso. apply Hnot. rewrite E. apply in_map, Hy.
  - exfalso. apply Hnot. rewrite <- E. apply in_map, Hx.
  - exact (IH Hrest Hx Hy E).
Qed.

Lemma sum_counts_arrives_at s l : forall acc,
  fold_left
    (fun sum i => sum + num_or (match i with Some r => count r | None => 0 end) 0)
    (filter (arrives_at s) l) acc
  = acc + slot_visits s l.
Proof.
  induction l as [|i l IH]; intros acc; [cbn; lia|].
  cbn [filter slot_visits]. destruct i as [r|]; cbn [arrives_at]; [|apply IH].
  destruct (arrivalTime r) as [slot|]; [|apply IH].
  destruct (slot =? s)%string; [|apply IH].
  cbn [fold_left]. rewrite IH, num_or_0. lia.
Qed.

Lemma sum_likes_arrives_at s l : forall acc,
  fold_left
    (fun sum i => sum + num_or (match i with Some r => likes r | None => 0 end) 0)
    (filter (arrives_at s) l) acc
  = acc + slot_arrival_likes s l.
Proof.
  induction l as [|i l IH]; intros acc; [cbn; lia|].
  cbn [filter slot_arrival_likes]. destruct i as [r|]; cbn [arrives_at]; [|apply IH].
  destruct (arrivalTime r) as [slot|]; [|apply IH].
  destruct (slot =? s)%string; [|apply IH].
  cbn [fold_left]. rewrite IH, num_or_0. lia.
Qed.

Lemma TIME_SLOTS_truthy : Forall (fun s => truthy s = true) TIME_SLOTS.
Proof. repeat constructor. Qed.

Lemma TIME_SLOTS_NoDup : NoDup TIME_SLOTS.
Proof.
  unfold TIME_SLOTS.
  repeat (constructor;
          [cbn [In]; intros H;
           repeat (destruct H as [H | H]; [discriminate H|]); exact H|]).
  constructor.
Qed.

Lemma slot_row_truthy current entries s :
  truthy s = true ->
  slot_row current entries s
  = {| SlotRow.time := s;
       SlotRow.visits := slot_visits s entries;
       SlotRow.likes := slot_arrival_likes s entries;
       SlotRow.isCurrentHour := (s =? current)%string;
       SlotRow.isPeak := false |}.
Proof.
  intros H. unfold slot_row. rewrite H. cbn [negb]. cbv zeta.
  rewrite sum_counts_arrives_at, sum_likes_arrives_at. reflexivity.
Qed.

Lemma rows_of_time current entries slots :
  Forall (fun s => truthy s = true) slots ->
  map SlotRow.time (rows_of current entries slots) = slots.
Proof.
  unfold rows_of. induction 1 as [|s l Hs _ IH]; [reflexivity|].
  cbn [map]. rewrite slot_row_truthy by exact Hs. cbn [SlotRow.time].
  f_equal. exact IH.
Qed.

Lemma rows_of_has_time current entries slots :
  Forall (fun s => truthy s = true) slots ->
  Forall (fun r => has_time r = true) (rows_of current entries slots).
Proof.
  intros H. unfold rows_of. apply Forall_map. revert H. apply Forall_impl.
  intros s Hs. rewrite slot_row_truthy by exact Hs. exact Hs.
Qed.

Lemma filter_all {A} (p : A -> bool) l :
  Forall (fun r => p r = true) l -> filter p l = l.
Proof.
  induction 1 as [|r l Hr _ IH]; [reflexivity|].
  cbn [filter]. rewrite Hr, IH. reflexivity.
Qed.

Section Rows.

Variable rows : list SlotRow.t.
Hypothesis rows_has_time : Forall (fun r => has_time r = true) rows.
Hypothesis rows_NoDup_time : NoDup (map SlotRow.time rows).

Lemma top_in_rows r : In r (top_of rows) -> In r rows.
Proof.
  unfold top_of. rewrite (filter_all _ _ rows_has_time). intros H.
  apply (Permutation_in _
           (sort_perm (fun a b => SlotRow.visits b - SlotRow.visits a) rows)).
  rewrite <- (firstn_skipn 3). apply in_or_app. left. exact H.
Qed.

Lemma in_top_iff r :
  In r rows ->
  (in_top (top_of rows) r = true <-> In r (top_of rows) /\ 0 < SlotRow.visits r).
Proof.
  intros Hr. unfold in_top. rewrite existsb_exists. split.
  - intros (t & Ht & Hc). apply andb_prop in Hc. destruct Hc as [Et Hv].
    apply String.eqb_eq in Et. apply Z.ltb_lt in Hv.
    assert (t = r) as ->
      by (apply (NoDup_map_eq SlotRow.time rows);
          [exact rows_NoDup_time | apply top_in_rows, Ht | exact Hr | exact Et]).
    split; assumption.
  - intros [Ht Hv]. exists r. split; [exact Ht|].
    rewrite String.eqb_refl. apply Z.ltb_lt in Hv. rewrite Hv. reflexivity.
Qed.

Lemma marked_rows top :
  filter has_time (map (mark_peak top) rows) = map (mark_peak top) rows.
Proof.
  apply filter_all, Forall_map. revert rows_has_time. apply Forall_impl.
  intros r Hr. unfold mark_peak. rewrite Hr. exact Hr.
Qed.

Lemma marked_row_inv top row :
  In row (map (mark_peak top) rows) ->
  exists r, In r rows /\
            SlotRow.time row = SlotRow.time r /\
            SlotRow.visits row = SlotRow.visits r /\
            SlotRow.likes row = SlotRow.likes r /\
            SlotRow.isCurrentHour row = SlotRow.isCurrentHour r /\
            SlotRow.isPeak row = in_top top r.
Proof.
  intros H. apply in_map_iff in H. destruct H as (r & <- & Hr).
  exists r. split; [exact Hr|].
  unfold mark_peak. rewrite (proj1 (Forall_forall _ _) rows_has_time r Hr).
  repeat split.
Qed.

Lemma peaks_at_most_three :
  (List.length (filter SlotRow.isPeak (map (mark_peak (top_of rows)) rows)) <= 3)%nat.
Proof.
  assert (forall top l, Forall (fun r => has_time r = true) l ->
            List.length (filter SlotRow.isPeak (map (mark_peak top) l))
            = List.length (filter (in_top top) l)) as Hlen.
  { intros top l H. induction H as [|r l Hr _ IH]; [reflexivity|].
    cbn [map filter]. unfold mark_peak at 1. rewrite Hr. cbn [SlotRow.isPeak].
    destruct (in_top top r); cbn [List.length]; rewrite IH; reflexivity. }
  rewrite (Hlen _ _ rows_has_time).
  apply (Nat.le_trans _ (List.length (top_of rows))).
  - apply NoDup_incl_length.
    + apply NoDup_filter. exact (NoDup_map_inv _ _ rows_NoDup_time).
    + intros r Hr. apply filter_In in Hr. destruct Hr as [Hr Hp].
      apply (in_top_iff r Hr) in Hp. apply Hp.
  - unfold top_of. apply firstn_le_length.
Qed.

Lemma peak_dominates p q :
  In p rows -> In q rows ->
  in_top (top_of rows) p = true -> in_top (top_of rows) q = false ->
  SlotRow.visits q <= SlotRow.visits p.
Proof.
  intros Hp Hq Hpt Hqt. apply (in_top_iff p Hp) in Hpt. destruct Hpt as [Hptop Hpv].
  destruct (Z.le_gt_cases (SlotRow.visits q) 0) as [Hle | Hgt]; [lia|].
  assert (~ In q (top_of rows)) as Hnot.
  { intros Hin.
    assert (in_top (top_of rows) q = true) as E by (apply in_top_iff; auto; lia).
    congruence. }
  assert (In q (skipn 3 (sort (fun a b => SlotRow.visits b - SlotRow.visits a)
                           (filter has_time rows)))) as Hskip.
  { assert (In q (sort (fun a b => SlotRow.visits b - SlotRow.visits a)
                    (filter has_time rows))) as Hs.
    { rewrite (filter_all _ _ rows_has_time).
      exact (Permutation_in _ (Permutation_sym (sort_perm _ _)) Hq). }
    rewrite <- (firstn_skipn 3) in Hs. apply in_app_or in Hs.
    destruct Hs as [Hs | Hs]; [exact (False_ind _ (Hnot Hs)) | exact Hs]. }
  exact (sorted_firstn_skipn SlotRow.visits 3 _ p q
           (sort_key_sorted SlotRow.visits _) Hptop Hskip).
Qed.

End Rows.

Lemma getDetailedTimeSlotData_eq tz now v st :
  truthy v = true ->
  getDetailedTimeSlotData tz now v st
  = map (mark_peak
           (top_of (rows_of (currentTimeSlot tz now)
                      (filter (is_venue v) (interactions st)) TIME_SLOTS)))
      (rows_of (currentTimeSlot tz now)
         (filter (is_venue v) (interactions st)) TIME_SLOTS).
Proof.
  intros Hv. unfold getDetailedTimeSlotData. rewrite Hv. cbn [negb]. cbv zeta.
  apply (marked_rows (rows_of _ _ TIME_SLOTS)).
  apply rows_of_has_time, TIME_SLOTS_truthy.
Qed.

(** X17: the rows of [getDetailedTimeSlotData].  For an entity with a
    non-empty identifier there are always the fifteen half-hour slots from
    19:00 to 02:00, in that order, whatever the store holds; a row carries
    the visit counts and like counts summed over the entity's entries with
    that arrival slot, and is marked as the current one exactly when its
    label is the half-hour label of the local clock reading. *)
Theorem getDetailedTimeSlotData_rows tz now v st :
  truthy v = true ->
  let entries := filter (is_venue v) (interactions st) in
  let rows := getDetailedTimeSlotData tz now v st in
  map SlotRow.time rows = TIME_SLOTS /\
  forall row, In row rows ->
    SlotRow.visits row = slot_visits (SlotRow.time row) entries /\
    SlotRow.likes row = slot_arrival_likes (SlotRow.time row) entries /\
    SlotRow.isCurrentHour row
    = (SlotRow.time row =? currentTimeSlot tz now)%string.
Proof.
  intros Hv. cbv zeta. rewrite getDetailedTimeSlotData_eq by exact Hv.
  set (entries := filter (is_venue v) (interactions st)).
  set (rows0 := rows_of (currentTimeSlot tz now) entries TIME_SLOTS).
  pose proof (rows_of_has_time (currentTimeSlot tz now) entries TIME_SLOTS
                TIME_SLOTS_truthy) as Hht.
  fold rows0 in Hht.
  assert (forall r, In r rows0 ->
            SlotRow.visits r = slot_visits (SlotRow.time r) entries /\
            SlotRow.likes r = slot_arrival_likes (SlotRow.time r) entries /\
            SlotRow.isCurrentHour r
            = (SlotRow.time r =? currentTimeSlot tz now)%string) as Hrow.
  { intros r Hr. unfold rows0, rows_of in Hr. apply in_map_iff in Hr.
    destruct Hr as (s & <- & Hs).
    rewrite slot_row_truthy
      by exact (proj1 (Forall_forall _ _) TIME_SLOTS_truthy s Hs).
    repeat split. }
  split.
  - transitivity (map SlotRow.time rows0);
      [|apply rows_of_time, TIME_SLOTS_truthy].
    rewrite map_map. apply map_ext_in. intros r Hr.
    unfold mark_peak. rewrite (proj1 (Forall_forall _ _) Hht r Hr). reflexivity.
  - intros row Hin.
    destruct (marked_row_inv rows0 Hht _ row Hin) as (r & Hr & -> & -> & -> & -> & _).
    exact (Hrow r Hr).
Qed.

Lemma getDetailedTimeSlotData_rows_witness :
  truthy "bar1" = true /\
  let entries := filter (is_venue "bar1") (interactions tied_store) in
  let rows := getDetailedTimeSlotData 0 T0 "bar1" tied_store in
  map SlotRow.time rows = TIME_SLOTS /\
  forall row, In row rows ->
    SlotRow.visits row = slot_visits (SlotRow.time row) entries /\
    SlotRow.likes row = slot_arrival_likes (SlotRow.time row) entries /\
    SlotRow.isCurrentHour row
    = (SlotRow.time row =? currentTimeSlot 0 T0)%string.
Proof.
  split; [reflexivity|].
  exact (getDetailedTimeSlotData_rows 0 T0 "bar1" tied_store eq_refl).
Defined.

(** X18: the peaks of [getDetailedTimeSlotData].  At most three rows are
    marked as peak; a peak row has a positive number of visits; and no row
    that is not a peak has more visits than a row that is. *)
Theorem getDetailedTimeSlotData_peaks tz now v st :
  truthy v = true ->
  let rows := getDetailedTimeSlotData tz now v st in
  (List.length (filter SlotRow.isPeak rows) <= 3)%nat /\
  (forall p, In p rows -> SlotRow.isPeak p = true -> 0 < SlotRow.visits p) /\
  (forall p q, In p rows -> In q rows ->
               SlotRow.isPeak p = true -> SlotRow.isPeak q = false ->
               SlotRow.visits q <= SlotRow.visits p).
Proof.
  intros Hv. cbv zeta. rewrite getDetailedTimeSlotData_eq by exact Hv.
  set (rows0 := rows_of (currentTimeSlot tz now)
                  (filter (is_venue v) (interactions st)) TIME_SLOTS).
  assert (Forall (fun r => has_time r = true) rows0) as Hht
    by apply rows_of_has_time, TIME_SLOTS_truthy.
  assert (NoDup (map SlotRow.time rows0)) as Hnd.
  { unfold rows0. rewrite rows_of_time by apply TIME_SLOTS_truthy.
    apply TIME_SLOTS_NoDup. }
  split; [apply peaks_at_most_three; assumption|]. split.
  - intros p Hp Hpeak.
    destruct (marked_row_inv rows0 Hht _ p Hp) as (r & Hr & _ & -> & _ & _ & E).
    rewrite E in Hpeak. apply (in_top_iff rows0 Hht Hnd r Hr) in Hpeak. apply Hpeak.
  - intros p q Hp Hq Hpp Hqp.
    destruct (marked_row_inv rows0 Hht _ p Hp) as (r & Hr & _ & -> & _ & _ & E).
    destruct (marked_row_inv rows0 Hht _ q Hq) as (r' & Hr' & _ & -> & _ & _ & E').
    rewrite E in Hpp. rewrite E' in Hqp.
    exact (peak_dominates rows0 Hht Hnd r r' Hr Hr' Hpp Hqp).
Qed.

Lemma getDetailedTimeSlotData_peaks_witness :
  truthy "bar1" = true /\
  let rows := getDetailedTimeSlotData 0 T0 "bar1" tied_store in
  (List.length (filter SlotRow.isPeak rows) <= 3)%nat /\
  (forall p, In p rows -> SlotRow.isPeak p = true -> 0 < SlotRow.visits p) /\
  (forall p q, In p rows -> In q rows ->
               SlotRow.isPeak p = true -> SlotRow.isPeak q = false ->
               SlotRow.visits q <= SlotRow.visits p).
Proof.
  split; [reflexivity|].
  exact (getDetailedTimeSlotData_peaks 0 T0 "bar1" tied_store eq_refl).
Defined.

(** * The user profile store *)

Section ProfileFacts.

Import Profile.

(** ** Calendar days *)

Lemma fields_of_Day t u :
  Day t = Day u ->
  YearFromTime t = YearFromTime u
  /\ MonthFromTime t = MonthFromTime u
  /\ DateFromTime t = DateFromTime u.
Proof.
  intros H.
  assert (Hy : YearFromTime t = YearFromTime u)
    by (unfold YearFromTime; now rewrite H).
  assert (Hw : DayWithinYear t = DayWithinYear u)
    by (unfold DayWithinYear; now rewrite H, Hy).
  assert (Hl : InLeapYear t = InLeapYear u)
    by (unfold InLeapYear; now rewrite Hy).
  assert (Hm : MonthFromTime t = MonthFromTime u)
    by (unfold MonthFromTime; now rewrite Hl, Hw).
  repeat split; try assumption.
  unfold DateFromTime. now rewrite Hw, Hl, Hm.
Qed.

Lemma Day_of_fields t u :
  YearFromTime t = YearFromTime u ->
  MonthFromTime t = MonthFromTime u ->
  DateFromTime t = DateFromTime u ->
  Day t = Day u.
Proof.
  intros Hy Hm Hd.
  pose proof (MakeDay_fields t 0) as Ht.
  pose proof (MakeDay_fields u 0) as Hu.
  rewrite Hy, Hm, Hd in Ht. lia.
Qed.

Lemma same_fields_local_day tz a b :
  strict_eq (getFullYear tz (Some a)) (getFullYear tz (Some b))
  && strict_eq (getMonth tz (Some a)) (getMonth tz (Some b))
  && strict_eq (getDate tz (Some a)) (getDate tz (Some b))
  = (local_day tz a =? local_day tz b).
Proof.
  unfold getFullYear, getMonth, getDate, strict_eq, local_day, LocalTime.
  cbn [option_map].
  destruct (Z.eqb_spec (Day (a + tz)) (Day (b + tz))) as [E|N].
  - destruct (fields_of_Day _ _ E) as (Hy & Hm & Hd).
    rewrite Hy, Hm, Hd, !Z.eqb_refl. reflexivity.
  - destruct (Z.eqb_spec (YearFromTime (a + tz)) (YearFromTime (b + tz)));
      [|reflexivity].
    destruct (Z.eqb_spec (MonthFromTime (a + tz)) (MonthFromTime (b + tz)));
      [|reflexivity].
    destruct (Z.eqb_spec (DateFromTime (a + tz)) (DateFromTime (b + tz)));
      [|reflexivity].
    exfalso. apply N. now apply Day_of_fields.
Qed.

Lemma isSameDay_readable tz s1 s2 a b :
  Date_parse s1 = Some a -> Date_parse s2 = Some b ->
  isSameDay tz s1 s2 = (local_day tz a =? local_day tz b).
Proof.
  intros H1 H2. unfold isSameDay. rewrite H1, H2.
  apply same_fields_local_day.
Qed.

Lemma readable_truthy s l : Date_parse s = Some l -> truthy s = true.
Proof.
  intros H. destruct s as [|c s]; [|reflexivity].
  rewrite Date_parse_empty in H. discriminate.
Qed.

Lemma hasPassedMidnight_readable tz now s l :
  Date_parse s = Some l ->
  hasPassedMidnight tz now (Some s) = negb (local_day tz l =? local_day tz now).
Proof.
  intros H. unfold hasPassedMidnight. cbn [truthy_opt].
  rewrite (readable_truthy _ _ H). cbn [negb]. rewrite H.
  rewrite <- same_fields_local_day. unfold strict_neq.
  destruct (strict_eq (getDate tz (Some l)) (getDate tz (Some now)));
    destruct (strict_eq (getMonth tz (Some l)) (getMonth tz (Some now)));
    destruct (strict_eq (getFullYear tz (Some l)) (getFullYear tz (Some now)));
    reflexivity.
Qed.

(** X19: [isSameDay] on two readable date strings holds exactly when the two
    instants fall on the same calendar day of the local time zone. *)
Theorem isSameDay_local_day tz s1 s2 a b :
  Date_parse s1 = Some a -> Date_parse s2 = Some b ->
  (isSameDay tz s1 s2 = true <-> Day (a + tz) = Day (b + tz)).
Proof.
  intros H1 H2. rewrite (isSameDay_readable tz _ _ _ _ H1 H2).
  unfold local_day. apply Z.eqb_eq.
Qed.

Lemma isSameDay_local_day_witness :
  Date_parse "2024-11-02T23:30:00.000Z"%string = Some 1730590200000
  /\ Date_parse "2024-11-03T04:30:00.000Z"%string = Some 1730608200000
  /\ (isSameDay (-18000000) "2024-11-02T23:30:00.000Z"%string "2024-11-03T04:30:00.000Z"%string
      = true
      <-> Day (1730590200000 + -18000000) = Day (1730608200000 + -18000000)).
Proof.
  assert (H1 : Date_parse "2024-11-02T23:30:00.000Z"%string = Some 1730590200000)
    by (vm_compute; reflexivity).
  assert (H2 : Date_parse "2024-11-03T04:30:00.000Z"%string = Some 1730608200000)
    by (vm_compute; reflexivity).
  split; [exact H1|]. split; [exact H2|].
  exact (isSameDay_local_day (-18000000) _ _ _ _ H1 H2).
Defined.

(** X20: [hasPassedMidnight] is true when no date is recorded; on a readable
    recorded date it is true exactly when the clock reading falls on another
    calendar day of the local time zone, earlier or later. *)
Theorem hasPassedMidnight_local_day tz now s l :
  Date_parse s = Some l ->
  hasPassedMidnight tz now None = true
  /\ (hasPassedMidnight tz now (Some s) = true
      <-> Day (l + tz) <> Day (now + tz)).
Proof.
  intros H. split; [reflexivity|].
  rewrite (hasPassedMidnight_readable tz now _ _ H). unfold local_day.
  destruct (Z.eqb_spec (Day (l + tz)) (Day (now + tz))); cbn; split;
    congruence.
Qed.

Lemma hasPassedMidnight_local_day_witness :
  Date_parse "2024-11-02T23:30:00.000Z"%string = Some 1730590200000
  /\ hasPassedMidnight 0 1730592000000 None = true
  /\ (hasPassedMidnight 0 1730592000000 (Some "2024-11-02T23:30:00.000Z"%string) = true
      <-> Day (1730590200000 + 0) <> Day (1730592000000 + 0)).
Proof.
  assert (H1 : Date_parse "2024-11-02T23:30:00.000Z"%string = Some 1730590200000)
    by (vm_compute; reflexivity).
  split; [exact H1|].
  exact (hasPassedMidnight_local_day 0 1730592000000 _ _ H1).
Defined.

(** ** Nights out *)

Lemma XP_VALUES_pos type : 0 < XP_VALUES type.
Proof. destruct type; reflexivity. Qed.

Lemma canIncrementNightsOut_stamp tz t now' st p :
  profile st = Some p -> last_night_out_date p = Some (toISOString t) ->
  valid_time t -> valid_time now' ->
  canIncrementNightsOut tz now' st = negb (local_day tz t =? local_day tz now').
Proof.
  intros Hp Hl Ht Hn. unfold canIncrementNightsOut. rewrite Hp, Hl.
  rewrite toISOString_truthy. cbn [negb orb].
  rewrite (isSameDay_readable tz _ _ t now')
    by (apply Date_parse_toISOString; assumption).
  reflexivity.
Qed.

Lemma incrementNightsOut_eq tz now later aid st :
  incrementNightsOut tz now later aid st
  = if canIncrementNightsOut tz now st
    then
      awardXP later aid complete_night_out "Completed a night out" None
        (updateProfile
           (fun q =>
              with_last_night_out_date (Some (toISOString now))
                (with_nights_out
                   (match profile st with
                    | Some p => nights_out p
                    | None => 0
                    end + 1) q)) st)
    else st.
Proof.
  unfold incrementNightsOut, canIncrementNightsOut.
  destruct (profile st) as [p|] eqn:Hp; [reflexivity|].
  unfold updateProfile. rewrite Hp. unfold awardXP. rewrite Hp. reflexivity.
Qed.

(** X21: [incrementNightsOut] counts at most one night out per calendar day
    of the local time zone.  When [canIncrementNightsOut] is false the call
    changes nothing.  When it is true the call adds one night out and 20 XP
    and stamps the profile; from then on [canIncrementNightsOut] is true
    exactly on the other calendar days, and a further call on the same day
    changes nothing. *)
Theorem incrementNightsOut_once_a_day tz now later aid st p :
  profile st = Some p -> valid_time now ->
  (canIncrementNightsOut tz now st = false ->
   incrementNightsOut tz now later aid st = st)
  /\ (canIncrementNightsOut tz now st = true ->
      let st1 := incrementNightsOut tz now later aid st in
      exists p1,
        profile st1 = Some p1
        /\ nights_out p1 = nights_out p + 1
        /\ xp p1 = xp p + 20
        /\ last_night_out_date p1 = Some (toISOString now)
        /\ forall now', valid_time now' ->
             (canIncrementNightsOut tz now' st1 = true
              <-> Day (now + tz) <> Day (now' + tz))
             /\ (Day (now' + tz) = Day (now + tz) ->
                 forall later' aid',
                   incrementNightsOut tz now' later' aid' st1 = st1)).
Proof.
  intros Hp Hv. rewrite incrementNightsOut_eq. split; intros Hc; rewrite Hc.
  - reflexivity.
  - destruct st as [pr ld up rd]. cbn [profile] in Hp. subst pr.
    cbv zeta. unfold updateProfile, awardXP.
    cbn -[toISOString with_last_night_out_date with_nights_out num_or
          canIncrementNightsOut incrementNightsOut].
    eexists. split; [reflexivity|].
    split; [reflexivity|].
    split; [cbn; now rewrite num_or_0|].
    split; [reflexivity|].
    intros now' Hv'.
    match goal with
    | |- (canIncrementNightsOut _ _ ?s = true <-> _) /\ _ => set (st1 := s)
    end.
    assert (Hs : canIncrementNightsOut tz now' st1
                 = negb (local_day tz now =? local_day tz now')).
    { eapply canIncrementNightsOut_stamp; try eassumption; reflexivity. }
    unfold local_day in Hs. split.
    + rewrite Hs. destruct (Z.eqb_spec (Day (now + tz)) (Day (now' + tz)));
        cbn; split; congruence.
    + intros Hd later' aid'. rewrite incrementNightsOut_eq, Hs, Hd, Z.eqb_refl.
      reflexivity.
Qed.

Lemma incrementNightsOut_once_a_day_witness :
  profile new_state = Some new_profile
  /\ valid_time T0
  /\ (canIncrementNightsOut 0 T0 new_state = false ->
      incrementNightsOut 0 T0 (T0 + 250) "k3x9q1m0z" new_state = new_state)
  /\ (canIncrementNightsOut 0 T0 new_state = true ->
      let st1 := incrementNightsOut 0 T0 (T0 + 250) "k3x9q1m0z" new_state in
      exists p1,
        profile st1 = Some p1
        /\ nights_out p1 = nights_out new_profile + 1
        /\ xp p1 = xp new_profile + 20
        /\ last_night_out_date p1 = Some (toISOString T0)
        /\ forall now', valid_time now' ->
             (canIncrementNightsOut 0 now' st1 = true
              <-> Day (T0 + 0) <> Day (now' + 0))
             /\ (Day (now' + 0) = Day (T0 + 0) ->
                 forall later' aid',
                   incrementNightsOut 0 now' later' aid' st1 = st1)).
Proof.
  assert (Hv : valid_time T0) by (cbv; split; discriminate).
  split; [reflexivity|]. split; [exact Hv|].
  exact (incrementNightsOut_once_a_day 0 T0 (T0 + 250) "k3x9q1m0z" new_state
           new_profile eq_refl Hv).
Defined.

(** ** Awarding XP *)

Lemma awardXP_None now aid type desc venueId st :
  profile st = None -> awardXP now aid type desc venueId st = st.
Proof. intros H. unfold awardXP. now rewrite H. Qed.

Lemma updateProfile_None f st : profile st = None -> updateProfile f st = st.
Proof. intros H. unfold updateProfile. now rewrite H. Qed.

Lemma updateProfile_Some f st p :
  profile st = Some p -> profile (updateProfile f st) = Some (f p).
Proof. intros H. unfold updateProfile. rewrite H. reflexivity. Qed.

(** What one award does to the fields of the profile. *)
Lemma awardXP_fields now aid type desc venueId st p :
  profile st = Some p ->
  exists p',
    profile (awardXP now aid type desc venueId st) = Some p'
    /\ xp p' = xp p + XP_VALUES type
    /\ xp_activities p'
       = xp_activities p
         ++ [{| XPActivity.id := aid;
                XPActivity.type := type;
                XPActivity.xpAwarded := XP_VALUES type;
                XPActivity.timestamp := toISOString now;
                XPActivity.description := desc |}]
    /\ visited_bars p'
       = match type, venueId with
         | visit_new_bar, Some v =>
             if new_venue venueId p then visited_bars p ++ [v]
             else visited_bars p
         | _, _ => visited_bars p
         end
    /\ bars_hit p'
       = match type with
         | visit_new_bar =>
             if new_venue venueId p then bars_hit p + 1 else bars_hit p
         | _ => bars_hit p
         end
    /\ photos_taken p'
       = match type with
         | photo_taken => photos_taken p + 1
         | _ => photos_taken p
         end
    /\ nights_out p' = nights_out p
    /\ last_night_out_date p' = last_night_out_date p
    /\ drunk_scale_ratings p' = drunk_scale_ratings p
    /\ last_drunk_scale_date p' = last_drunk_scale_date p.
Proof.
  intros Hp. destruct st as [pr ld up rd]. cbn [profile] in Hp. subst pr.
  unfold awardXP, updateProfile. cbn [profile].
  destruct (Z.eqb_spec (XP_VALUES type) 0) as [E|_];
    [pose proof (XP_VALUES_pos type); lia|].
  destruct type;
    try (eexists; cbn -[toISOString]; rewrite ?num_or_0;
         repeat split; reflexivity).
  destruct venueId as [v|];
    [|eexists; cbn -[toISOString]; rewrite ?num_or_0;
      repeat split; reflexivity].
  unfold new_venue.
  destruct (truthy v && negb (existsb (String.eqb v) (visited_bars p)));
    eexists; cbn -[toISOString]; rewrite ?num_or_0; repeat split; reflexivity.
Qed.

Lemma xp_recorded_app l1 l2 :
  xp_recorded (l1 ++ l2) = xp_recorded l1 + xp_recorded l2.
Proof.
  induction l1 as [|a l1 IH]; [reflexivity|].
  change (xp_recorded ((a :: l1) ++ l2))
    with (XPActivity.xpAwarded a + xp_recorded (l1 ++ l2)).
  change (xp_recorded (a :: l1))
    with (XPActivity.xpAwarded a + xp_recorded l1).
  lia.
Qed.

Lemma awarded_refl st : awarded [] st st.
Proof.
  unfold awarded. destruct (profile st); [|reflexivity].
  rewrite app_nil_r. cbn. split; [reflexivity|lia].
Qed.

Lemma awarded_trans l1 l2 a b c :
  awarded l1 a b -> awarded l2 b c -> awarded (l1 ++ l2) a c.
Proof.
  unfold awarded.
  destruct (profile a) as [pa|], (profile b) as [pb|], (profile c) as [pc|];
    try tauto.
  - intros [H1 H2] [H3 H4]. rewrite H3, H1, app_assoc, H4, H2, xp_recorded_app.
    split; [reflexivity|lia].
  - intros -> ->. reflexivity.
Qed.

Lemma awarded_updateProfile f st :
  (forall p, xp (f p) = xp p /\ xp_activities (f p) = xp_activities p) ->
  awarded [] st (updateProfile f st).
Proof.
  intros Hf. unfold awarded.
  destruct (profile st) as [p|] eqn:Hp.
  - rewrite (updateProfile_Some f st p Hp). destruct (Hf p) as [Hx Ha].
    rewrite Hx, Ha, app_nil_r. cbn. split; [reflexivity|lia].
  - rewrite (updateProfile_None f st Hp), Hp. reflexivity.
Qed.

Lemma awarded_awardXP now aid type desc venueId st :
  exists l,
    awarded l st (awardXP now aid type desc venueId st) /\ positive_awards l.
Proof.
  destruct (profile st) as [p|] eqn:Hp.
  - destruct (awardXP_fields now aid type desc venueId st p Hp)
      as (p' & Hp' & Hx & Ha & _).
    eexists. split.
    + unfold awarded. rewrite Hp, Hp'. split; [exact Ha|].
      rewrite Hx. cbn. lia.
    + constructor; [apply XP_VALUES_pos|constructor].
  - exists []. rewrite (awardXP_None _ _ _ _ _ _ Hp).
    split; [apply awarded_refl|constructor].
Qed.

Lemma awarded_update_award f now aid type desc venueId st :
  (forall p, xp (f p) = xp p /\ xp_activities (f p) = xp_activities p) ->
  exists l,
    awarded l st (awardXP now aid type desc venueId (updateProfile f st))
    /\ positive_awards l.
Proof.
  intros Hf.
  destruct (awarded_awardXP now aid type desc venueId (updateProfile f st))
    as (l & Hl & Hpos).
  exists l. split; [|exact Hpos].
  exact (awarded_trans [] l _ _ _ (awarded_updateProfile f st Hf) Hl).
Qed.

Lemma awarded_none st : exists l, awarded l st st /\ positive_awards l.
Proof. exists []. split; [apply awarded_refl|constructor]. Qed.

Lemma awarded_update f st :
  (forall p, xp (f p) = xp p /\ xp_activities (f p) = xp_activities p) ->
  exists l, awarded l st (updateProfile f st) /\ positive_awards l.
Proof.
  intros Hf. exists []. split; [now apply awarded_updateProfile|constructor].
Qed.

Lemma awarded_checkAndReset tz now st :
  exists l,
    awarded l st (checkAndResetDrunkScaleIfNeeded tz now st)
    /\ positive_awards l.
Proof.
  unfold checkAndResetDrunkScaleIfNeeded.
  destruct (profile st) as [p|]; [|apply awarded_none].
  destruct (hasPassedMidnight tz now (last_drunk_scale_date p));
    [|apply awarded_none].
  apply awarded_update. intros q. split; reflexivity.
Qed.

Lemma perform_awarded tz a st :
  exists l, awarded l st (perform tz a st) /\ positive_awards l.
Proof.
  destruct a; cbn [perform].
  - apply awarded_awardXP.
  - rewrite incrementNightsOut_eq.
    destruct (canIncrementNightsOut tz now st); [|apply awarded_none].
    apply awarded_update_award. intros q. split; reflexivity.
  - unfold incrementBarsHit.
    destruct (profile st) as [p|]; [|apply awarded_none].
    apply awarded_update_award. intros q. split; reflexivity.
  - unfold incrementPhotosTaken.
    destruct (profile st) as [p|]; [|apply awarded_none].
    apply awarded_update_award. intros q. split; reflexivity.
  - unfold addDrunkScaleRating.
    destruct (profile st) as [p|]; [|apply awarded_none].
    apply awarded_update_award. intros q. split; reflexivity.
  - apply awarded_checkAndReset.
  - unfold canSubmitDrunkScale.
    destruct (profile st) as [p|]; cbn [snd]; [|apply awarded_none].
    apply awarded_checkAndReset.
  - unfold setProfilePicture. apply awarded_update.
    intros q. split; reflexivity.
  - exists []. split; [|constructor]. unfold awarded, setProfileReady.
    cbn [profile]. destruct (profile st); [|reflexivity].
    rewrite app_nil_r. cbn. split; [reflexivity|lia].
Qed.

(** X22: Along any sequence of the local actions, at any clock readings,
    the activity log is only extended at its end, every new activity records
    a positive amount, and the XP total rises by exactly the sum the new
    activities record; without a profile nothing is recorded and no profile
    appears. *)
Theorem run_xp_ledger tz calls st :
  exists l,
    awarded l st (run tz calls st) /\ positive_awards l.
Proof.
  revert st. induction calls as [|a calls IH]; intros st.
  - apply awarded_none.
  - destruct (perform_awarded tz a st) as (l1 & H1 & P1).
    destruct (IH (perform tz a st)) as (l2 & H2 & P2).
    exists (l1 ++ l2). split.
    + exact (awarded_trans _ _ _ _ _ H1 H2).
    + apply Forall_app. split; assumption.
Qed.

(** ** Visited bars *)

Lemma visited_ok_updateProfile f st :
  (forall p, visited_bars (f p) = visited_bars p
             /\ bars_hit p <= bars_hit (f p)) ->
  visited_ok st -> visited_ok (updateProfile f st).
Proof.
  intros Hf. unfold visited_ok.
  destruct (profile st) as [p|] eqn:Hp.
  - rewrite (updateProfile_Some f st p Hp). destruct (Hf p) as [Hv Hb].
    rewrite Hv. intros [Hn Hl]. split; [exact Hn|lia].
  - now rewrite (updateProfile_None f st Hp), Hp.
Qed.

Lemma new_venue_not_In v p :
  new_venue (Some v) p = true -> ~ In v (visited_bars p).
Proof.
  unfold new_venue. intros H Hin.
  apply andb_prop in H. destruct H as [_ H].
  apply negb_true_iff in H.
  assert (He : existsb (String.eqb v) (visited_bars p) = true).
  { apply existsb_exists. exists v. split; [exact Hin|apply String.eqb_refl]. }
  congruence.
Qed.

Lemma NoDup_snoc {A : Type} (l : list A) (x : A) :
  NoDup l -> ~ In x l -> NoDup (l ++ [x]).
Proof.
  intros Hl Hx. induction Hl as [|y l Hy Hl IH]; cbn.
  - constructor; [intros []|constructor].
  - constructor.
    + rewrite in_app_iff. intros [H|[H|[]]]; [contradiction|].
      subst. apply Hx. now left.
    + apply IH. intros H. apply Hx. now right.
Qed.

Lemma visited_ok_awardXP now aid type desc venueId st :
  visited_ok st -> visited_ok (awardXP now aid type desc venueId st).
Proof.
  unfold visited_ok. destruct (profile st) as [p|] eqn:Hp.
  - destruct (awardXP_fields now aid type desc venueId st p Hp)
      as (p' & Hp' & _ & _ & Hv & Hb & _).
    rewrite Hp', Hv, Hb. intros [Hn Hl].
    destruct type; try (split; [exact Hn|lia]).
    destruct venueId as [v|]; [|split; [exact Hn|cbn; lia]].
    destruct (new_venue (Some v) p) eqn:Hnew; [|split; [exact Hn|lia]].
    split.
    + apply NoDup_snoc; [exact Hn|now apply new_venue_not_In].
    + rewrite length_app. cbn [List.length]. lia.
  - now rewrite (awardXP_None _ _ _ _ _ _ Hp), Hp.
Qed.

Lemma visited_ok_checkAndReset tz now st :
  visited_ok st -> visited_ok (checkAndResetDrunkScaleIfNeeded tz now st).
Proof.
  intros H. unfold checkAndResetDrunkScaleIfNeeded.
  destruct (profile st) as [p|]; [|exact H].
  destruct (hasPassedMidnight tz now (last_drunk_scale_date p)); [|exact H].
  apply visited_ok_updateProfile; [|exact H].
  intros q. split; [reflexivity|cbn; lia].
Qed.

Lemma perform_visited_ok tz a st :
  visited_ok st -> visited_ok (perform tz a st).
Proof.
  intros H. destruct a; cbn [perform].
  - now apply visited_ok_awardXP.
  - rewrite incrementNightsOut_eq.
    destruct (canIncrementNightsOut tz now st); [|exact H].
    apply visited_ok_awardXP, visited_ok_updateProfile; [|exact H].
    intros q. split; [reflexivity|cbn; lia].
  - unfold incrementBarsHit.
    destruct (profile st) as [p|] eqn:Hp; [|exact H].
    apply visited_ok_awardXP.
    unfold visited_ok in *. rewrite Hp in H.
    rewrite (updateProfile_Some _ st p Hp). cbn. rewrite num_or_0.
    destruct H as [Hn Hl]. split; [exact Hn|lia].
  - unfold incrementPhotosTaken.
    destruct (profile st) as [p|]; [|exact H].
    apply visited_ok_awardXP, visited_ok_updateProfile; [|exact H].
    intros q. split; [reflexivity|cbn; lia].
  - unfold addDrunkScaleRating.
    destruct (profile st) as [p|]; [|exact H].
    apply visited_ok_awardXP, visited_ok_updateProfile; [|exact H].
    intros q. split; [reflexivity|cbn; lia].
  - now apply visited_ok_checkAndReset.
  - unfold canSubmitDrunkScale.
    destruct (profile st) as [p|]; cbn [snd]; [|exact H].
    now apply visited_ok_checkAndReset.
  - unfold setProfilePicture. apply visited_ok_updateProfile; [|exact H].
    intros q. split; [reflexivity|cbn; lia].
  - exact H.
Qed.

(** X23: If the visited bars are listed once each and are all counted in
    [bars_hit], this stays so along any sequence of the local actions. *)
Theorem run_visited_ok tz calls st :
  visited_ok st -> visited_ok (run tz calls st).
Proof.
  revert st. induction calls as [|a calls IH]; intros st H; [exact H|].
  cbn. apply IH. now apply perform_visited_ok.
Qed.

Lemma run_visited_ok_witness :
  visited_ok new_state
  /\ visited_ok
       (run 0 [AwardXP T0 "k3x9q1m0z" visit_new_bar "Visited" (Some "bar1");
               IncrementBarsHit (T0 + 250) "q8w2e4r6t";
               AwardXP (T0 + 900) "z1x3c5v7b" visit_new_bar "Visited"
                 (Some "bar1")]%string
          new_state).
Proof.
  assert (H : visited_ok new_state).
  { cbn. split; [constructor|lia]. }
  split; [exact H|].
  exact (run_visited_ok 0 _ new_state H).
Defined.

(** X24: Awarding [visit_new_bar] XP with a venue lists the venue and counts
    it in [bars_hit] only if it is not listed yet; a second award for the
    same venue gives the 15 XP again but changes neither the list nor
    [bars_hit]. *)
Theorem awardXP_visit_counts_once now1 aid1 d1 now2 aid2 d2 v st p :
  profile st = Some p -> truthy v = true ->
  let st1 := awardXP now1 aid1 visit_new_bar d1 (Some v) st in
  let st2 := awardXP now2 aid2 visit_new_bar d2 (Some v) st1 in
  exists p1 p2,
    profile st1 = Some p1 /\ profile st2 = Some p2
    /\ In v (visited_bars p1)
    /\ bars_hit p1
       = bars_hit p
         + (if existsb (String.eqb v) (visited_bars p) then 0 else 1)
    /\ visited_bars p2 = visited_bars p1
    /\ bars_hit p2 = bars_hit p1
    /\ xp p2 = xp p1 + 15.
Proof.
  intros Hp Hv st1 st2.
  destruct (awardXP_fields now1 aid1 visit_new_bar d1 (Some v) st p Hp)
    as (p1 & Hp1 & _ & _ & Hv1 & Hb1 & _).
  fold st1 in Hp1.
  destruct (awardXP_fields now2 aid2 visit_new_bar d2 (Some v) st1 p1 Hp1)
    as (p2 & Hp2 & Hx2 & _ & Hv2 & Hb2 & _).
  fold st2 in Hp2.
  assert (Hin : In v (visited_bars p1)).
  { rewrite Hv1. unfold new_venue. rewrite Hv. cbn [andb].
    destruct (existsb (String.eqb v) (visited_bars p)) eqn:E; cbn [negb].
    - apply existsb_exists in E. destruct E as (w & Hw & Ev).
      apply String.eqb_eq in Ev. now subst w.
    - apply in_or_app. right. now left. }
  assert (Hold : new_venue (Some v) p1 = false).
  { unfold new_venue. rewrite Hv. cbn [andb]. apply negb_false_iff.
    apply existsb_exists. exists v. split; [exact Hin|apply String.eqb_refl]. }
  rewrite Hold in Hv2, Hb2.
  exists p1, p2. repeat split; try assumption.
  rewrite Hb1. unfold new_venue. rewrite Hv. cbn [andb].
  destruct (existsb (String.eqb v) (visited_bars p)); cbn [negb]; lia.
Qed.

Lemma awardXP_visit_counts_once_witness :
  profile new_state = Some new_profile
  /\ truthy "bar1" = true
  /\ (let st1 :=
        awardXP T0 "k3x9q1m0z" visit_new_bar "Visited" (Some "bar1"%string)
          new_state in
      let st2 :=
        awardXP (T0 + 900) "z1x3c5v7b" visit_new_bar "Visited again"
          (Some "bar1"%string) st1 in
      exists p1 p2,
        profile st1 = Some p1 /\ profile st2 = Some p2
        /\ In "bar1"%string (visited_bars p1)
        /\ bars_hit p1
           = bars_hit new_profile
             + (if existsb (String.eqb "bar1") (visited_bars new_profile)
                then 0 else 1)
        /\ visited_bars p2 = visited_bars p1
        /\ bars_hit p2 = bars_hit p1
        /\ xp p2 = xp p1 + 15).
Proof.
  split; [reflexivity|]. split; [reflexivity|].
  exact (awardXP_visit_counts_once T0 "k3x9q1m0z" "Visited" (T0 + 900)
           "z1x3c5v7b" "Visited again" "bar1" new_state new_profile
           eq_refl eq_refl).
Defined.

(** ** Counters *)

(** X25: One call of [incrementPhotosTaken] raises [photos_taken] by two:
    once by its own update and once more by the [photo_taken] award it then
    makes, which also gives 10 XP. *)
Theorem incrementPhotosTaken_counts_twice later aid st p :
  profile st = Some p ->
  exists p1,
    profile (incrementPhotosTaken later aid st) = Some p1
    /\ photos_taken p1 = photos_taken p + 2
    /\ xp p1 = xp p + 10.
Proof.
  intros Hp. unfold incrementPhotosTaken. rewrite Hp.
  set (f := with_photos_taken (num_or (photos_taken p) 0 + 1)).
  pose proof (updateProfile_Some f st p Hp) as Hu.
  destruct (awardXP_fields later aid photo_taken "Took a photo" None _ _ Hu)
    as (p1 & Hp1 & Hx & _ & _ & _ & Hph & _).
  exists p1. split; [exact Hp1|]. split.
  - rewrite Hph. unfold f. cbn. rewrite num_or_0. lia.
  - rewrite Hx. reflexivity.
Qed.

Lemma incrementPhotosTaken_counts_twice_witness :
  profile new_state = Some new_profile
  /\ exists p1,
       profile (incrementPhotosTaken T0 "k3x9q1m0z" new_state) = Some p1
       /\ photos_taken p1 = photos_taken new_profile + 2
       /\ xp p1 = xp new_profile + 10.
Proof.
  split; [reflexivity|].
  exact (incrementPhotosTaken_counts_twice T0 "k3x9q1m0z" new_state
           new_profile eq_refl).
Defined.

(** X26: [incrementBarsHit] raises [bars_hit] by one and gives 15 XP, and
    lists no venue: [visited_bars] stays as it is. *)
Theorem incrementBarsHit_lists_no_venue later aid st p :
  profile st = Some p ->
  exists p1,
    profile (incrementBarsHit later aid st) = Some p1
    /\ bars_hit p1 = bars_hit p + 1
    /\ visited_bars p1 = visited_bars p
    /\ xp p1 = xp p + 15.
Proof.
  intros Hp. unfold incrementBarsHit. rewrite Hp.
  set (f := with_bars_hit (num_or (bars_hit p) 0 + 1)).
  pose proof (updateProfile_Some f st p Hp) as Hu.
  destruct (awardXP_fields later aid visit_new_bar "Visited a new bar" None
              _ _ Hu)
    as (p1 & Hp1 & Hx & _ & Hv & Hb & _).
  exists p1. split; [exact Hp1|]. split; [|split].
  - rewrite Hb. unfold f. cbn. now rewrite num_or_0.
  - rewrite Hv. reflexivity.
  - rewrite Hx. reflexivity.
Qed.

Lemma incrementBarsHit_lists_no_venue_witness :
  profile new_state = Some new_profile
  /\ exists p1,
       profile (incrementBarsHit T0 "k3x9q1m0z" new_state) = Some p1
       /\ bars_hit p1 = bars_hit new_profile + 1
       /\ visited_bars p1 = visited_bars new_profile
       /\ xp p1 = xp new_profile + 15.
Proof.
  split; [reflexivity|].
  exact (incrementBarsHit_lists_no_venue T0 "k3x9q1m0z" new_state
           new_profile eq_refl).
Defined.

(** ** The drunk scale *)

Lemma canSubmitDrunkScale_eq tz now st p :
  profile st = Some p ->
  canSubmitDrunkScale tz now st
  = (hasPassedMidnight tz now (last_drunk_scale_date p),
     if hasPassedMidnight tz now (last_drunk_scale_date p)
     then updateProfile (with_last_drunk_scale_date None) st
     else st).
Proof.
  intros Hp. unfold canSubmitDrunkScale, checkAndResetDrunkScaleIfNeeded.
  rewrite Hp. reflexivity.
Qed.

(** X27: [canSubmitDrunkScale] is a query that writes.  It answers whether
    midnight has passed since the recorded submission date; when the answer is
    no the store is unchanged, when it is yes the recorded date is erased and
    nothing else changes.  Asked again at the same clock reading it gives
    the same answer and leaves the store as it is. *)
Theorem canSubmitDrunkScale_effect tz now st p :
  profile st = Some p ->
  let r := canSubmitDrunkScale tz now st in
  fst r = hasPassedMidnight tz now (last_drunk_scale_date p)
  /\ (fst r = false -> snd r = st)
  /\ (fst r = true ->
      snd r = updateProfile (with_last_drunk_scale_date None) st
      /\ option_map last_drunk_scale_date (profile (snd r)) = Some None)
  /\ canSubmitDrunkScale tz now (snd r) = r.
Proof.
  intros Hp r. unfold r. rewrite (canSubmitDrunkScale_eq tz now st p Hp).
  cbn [fst snd].
  destruct (hasPassedMidnight tz now (last_drunk_scale_date p)) eqn:E.
  - split; [reflexivity|]. split; [discriminate|].
    pose proof (updateProfile_Some (with_last_drunk_scale_date None) st p Hp)
      as Hu.
    split; [intros _; split; [reflexivity|now rewrite Hu]|].
    rewrite (canSubmitDrunkScale_eq tz now _ _ Hu). cbn.
    f_equal. destruct st as [pr ld up rd]. cbn [profile] in Hp. subst pr.
    reflexivity.
  - split; [reflexivity|]. split; [reflexivity|]. split; [discriminate|].
    rewrite (canSubmitDrunkScale_eq tz now st p Hp), E. reflexivity.
Qed.

Lemma canSubmitDrunkScale_effect_witness :
  profile new_state = Some new_profile
  /\ (let r := canSubmitDrunkScale 0 T0 new_state in
      fst r = hasPassedMidnight 0 T0 (last_drunk_scale_date new_profile)
      /\ (fst r = false -> snd r = new_state)
      /\ (fst r = true ->
          snd r = updateProfile (with_last_drunk_scale_date None) new_state
          /\ option_map last_drunk_scale_date (profile (snd r)) = Some None)
      /\ canSubmitDrunkScale 0 T0 (snd r) = r).
Proof.
  split; [reflexivity|].
  exact (canSubmitDrunkScale_effect 0 T0 new_state new_profile eq_refl).
Defined.

(** X28: [addDrunkScaleRating] appends the rating, stamps the submission
    date and gives 25 XP, whatever [canSubmitDrunkScale] would answer.  After
    it [canSubmitDrunkScale] answers yes exactly at clock readings on another
    calendar day of the local time zone, and on the same day it leaves the
    store unchanged. *)
Theorem addDrunkScaleRating_once_a_day tz now later aid desc rating st p :
  profile st = Some p -> valid_time now ->
  let st1 := addDrunkScaleRating now later aid desc rating st in
  exists p1,
    profile st1 = Some p1
    /\ drunk_scale_ratings p1 = drunk_scale_ratings p ++ [rating]
    /\ last_drunk_scale_date p1 = Some (toISOString now)
    /\ xp p1 = xp p + 25
    /\ forall now',
         (fst (canSubmitDrunkScale tz now' st1) = true
          <-> Day (now + tz) <> Day (now' + tz))
         /\ (Day (now' + tz) = Day (now + tz) ->
             snd (canSubmitDrunkScale tz now' st1) = st1).
Proof.
  intros Hp Hv st1. unfold st1, addDrunkScaleRating. rewrite Hp.
  set (f := fun q => with_last_drunk_scale_date (Some (toISOString now))
                       (with_drunk_scale_ratings
                          (drunk_scale_ratings p ++ [rating]) q)).
  pose proof (updateProfile_Some f st p Hp) as Hu.
  destruct (awardXP_fields later aid drunk_scale_submission desc None _ _ Hu)
    as (p1 & Hp1 & Hx & _ & _ & _ & _ & _ & _ & Hr & Hl).
  exists p1. split; [exact Hp1|].
  split; [rewrite Hr; reflexivity|].
  split; [rewrite Hl; reflexivity|].
  split; [rewrite Hx; reflexivity|].
  intros now'.
  assert (Hh : hasPassedMidnight tz now' (last_drunk_scale_date p1)
               = negb (local_day tz now =? local_day tz now')).
  { rewrite Hl. apply hasPassedMidnight_readable.
    apply Date_parse_toISOString. exact Hv. }
  rewrite (canSubmitDrunkScale_eq tz now' _ p1 Hp1), Hh.
  cbn [fst snd]. unfold local_day.
  destruct (Z.eqb_spec (Day (now + tz)) (Day (now' + tz))) as [E|N]; cbn [negb].
  - split; [split; [discriminate|congruence]|reflexivity].
  - split; [split; [now intros _|reflexivity]|].
    intros E. congruence.
Qed.

Lemma addDrunkScaleRating_once_a_day_witness :
  profile new_state = Some new_profile
  /\ valid_time T0
  /\ (let st1 :=
        addDrunkScaleRating T0 (T0 + 250) "k3x9q1m0z"
          "Submitted drunk scale rating: 3/5" 3 new_state in
      exists p1,
        profile st1 = Some p1
        /\ drunk_scale_ratings p1 = drunk_scale_ratings new_profile ++ [3]
        /\ last_drunk_scale_date p1 = Some (toISOString T0)
        /\ xp p1 = xp new_profile + 25
        /\ forall now',
             (fst (canSubmitDrunkScale 0 now' st1) = true
              <-> Day (T0 + 0) <> Day (now' + 0))
             /\ (Day (now' + 0) = Day (T0 + 0) ->
                 snd (canSubmitDrunkScale 0 now' st1) = st1)).
Proof.
  assert (Hv : valid_time T0) by (cbv; split; discriminate).
  split; [reflexivity|]. split; [exact Hv|].
  exact (addDrunkScaleRating_once_a_day 0 T0 (T0 + 250) "k3x9q1m0z"
           "Submitted drunk scale rating: 3/5" 3 new_state new_profile
           eq_refl Hv).
Defined.

(** ** XP for a check-in *)

(** X29: When the timer of [debouncedAwardXP] fires for a venue with a
    non-empty identifier, the profile gets 10 XP for the check-in and, if the
    store reported a new bar or the profile does not list the venue, 15 XP
    more; afterwards the venue is listed, and it is appended and counted in
    [bars_hit] only if it was not listed before. *)
Theorem debouncedAwardXP_fire_effect now aid1 aid2 v isNewBar st p :
  profile st = Some p -> truthy v = true ->
  let listed := existsb (String.eqb v) (visited_bars p) in
  exists p1,
    profile (debouncedAwardXP_fire now aid1 aid2 v isNewBar st) = Some p1
    /\ In v (visited_bars p1)
    /\ visited_bars p1
       = (if listed then visited_bars p else visited_bars p ++ [v])
    /\ bars_hit p1 = bars_hit p + (if listed then 0 else 1)
    /\ xp p1 = xp p + 10 + (if isNewBar || negb listed then 15 else 0).
Proof.
  intros Hp Hv listed. unfold debouncedAwardXP_fire. rewrite Hp.
  fold listed.
  destruct (awardXP_fields now aid1 check_in "Checked in at venue" (Some v)
              st p Hp)
    as (p0 & Hp0 & Hx0 & _ & Hv0 & Hb0 & _).
  cbn in Hx0.
  assert (Hin : listed = true -> In v (visited_bars p)).
  { unfold listed. intros E. apply existsb_exists in E.
    destruct E as (w & Hw & Ev). apply String.eqb_eq in Ev. now subst w. }
  destruct (isNewBar || negb listed) eqn:Hc.
  - destruct (awardXP_fields now aid2 visit_new_bar "Visited a new bar"
                (Some v) _ p0 Hp0)
      as (p1 & Hp1 & Hx1 & _ & Hv1 & Hb1 & _).
    cbn in Hx1. unfold new_venue in Hv1, Hb1.
    rewrite Hv, Hv0 in Hv1, Hb1. cbn [andb] in Hv1, Hb1.
    fold listed in Hv1, Hb1.
    exists p1. split; [exact Hp1|]. rewrite Hv1, Hb1, Hx1, ?Hb0, ?Hv0, ?Hx0.
    destruct listed; cbn [negb].
    + repeat split; try lia. now apply Hin.
    + repeat split; try lia. apply in_or_app. right. now left.
  - exists p0. split; [exact Hp0|]. rewrite Hv0, Hb0, Hx0.
    destruct listed; [|destruct isNewBar; discriminate].
    repeat split; try lia. now apply Hin.
Qed.

Lemma debouncedAwardXP_fire_effect_witness :
  profile new_state = Some new_profile
  /\ truthy "bar1" = true
  /\ (let listed := existsb (String.eqb "bar1") (visited_bars new_profile) in
      exists p1,
        profile
          (debouncedAwardXP_fire T0 "k3x9q1m0z" "z1x3c5v7b" "bar1" false
             new_state) = Some p1
        /\ In "bar1"%string (visited_bars p1)
        /\ visited_bars p1
           = (if listed then visited_bars new_profile
              else visited_bars new_profile ++ ["bar1"%string])
        /\ bars_hit p1 = bars_hit new_profile + (if listed then 0 else 1)
        /\ xp p1
           = xp new_profile + 10 + (if false || negb listed then 15 else 0)).
Proof.
  split; [reflexivity|]. split; [reflexivity|].
  exact (debouncedAwardXP_fire_effect T0 "k3x9q1m0z" "z1x3c5v7b" "bar1" false
           new_state new_profile eq_refl eq_refl).
Defined.

End ProfileFacts.

(** * Debounced calls *)

Section DebounceFacts.

Import Debounce.

Variables Args Env State : Type.
Variable func : Env -> Args -> State -> State.
Variable wait : Z.

(** Once the timer has fired, a burst has no further call, and nothing
    happens. *)
Lemma run_fired trace : forall t u a x,
  in_order u trace -> burst wait t trace -> t + wait <= u ->
  run func wait trace (None, x) = (None, x)
  /\ last_call t a trace = (t, a).
Proof.
  induction trace as [|e trace IH]; intros t u a x Ho Hb Hu.
  - split; reflexivity.
  - destruct Ho as [Hle Ho]. destruct e as [now args|now env].
    + destruct Hb as [Hlt _]. cbn [time_of] in Hle. lia.
    + cbn [burst] in Hb. cbn [time_of] in Hle, Ho.
      apply (IH t now a x Ho Hb). lia.
Qed.

(** While the timer is pending it holds the arguments of the last call, and
    [func] has not run; when it fires, [func] runs on them. *)
Lemma run_pending trace : forall t u a st,
  in_order u trace -> burst wait t trace ->
  run func wait trace (Some (t + wait, a), st)
  = (Some (fst (last_call t a trace) + wait, snd (last_call t a trace)), st)
  \/ exists env,
       run func wait trace (Some (t + wait, a), st)
       = (None, func env (snd (last_call t a trace)) st).
Proof.
  induction trace as [|e trace IH]; intros t u a st Ho Hb.
  - left. reflexivity.
  - destruct Ho as [Hle Ho]. destruct e as [now args|now env].
    + destruct Hb as [_ Hb]. cbn [time_of] in Ho.
      exact (IH now now args st Ho Hb).
    + cbn [burst] in Hb. cbn [time_of] in Hle, Ho.
      cbn [run fold_left step fst snd last_call].
      destruct (Z.leb_spec (t + wait) now) as [Hdue|Hdue].
      * right. exists env.
        destruct (run_fired trace t now a (func env a st) Ho Hb Hdue)
          as [Hr Hl].
        unfold run in Hr. rewrite Hr, Hl. reflexivity.
      * exact (IH t now a st Ho Hb).
Qed.

(** X30: In a burst of calls of a debounced function, each less than [wait]
    after the one before, [func] runs exactly once, on the arguments of the
    last call, whenever the event loop handles timers in between; the
    earlier calls of the burst are dropped. *)
Theorem debounce_burst t a trace u env (s : option (Z * Args) * State) :
  in_order t (trace ++ [Elapse u env]) ->
  burst wait t trace ->
  fst (last_call t a trace) + wait <= u ->
  exists env',
    run func wait (Invoke t a :: trace ++ [Elapse u env]) s
    = (None, func env' (snd (last_call t a trace)) (snd s)).
Proof.
  intros Ho Hb Hu.
  assert (Ho' : in_order t trace).
  { clear Hb Hu. revert t Ho.
    induction trace as [|e trace IH]; intros t Ho; [exact I|].
    destruct Ho as [Hle Ho]. split; [exact Hle|]. now apply IH. }
  assert (Hrun : run func wait (Invoke t a :: trace ++ [Elapse u env]) s
                 = step func wait (Elapse u env)
                     (run func wait trace (Some (t + wait, a), snd s))).
  { unfold run. cbn [fold_left]. rewrite fold_left_app. reflexivity. }
  rewrite Hrun.
  destruct (run_pending trace t t a (snd s) Ho' Hb) as [Hr|[env' Hr]];
    rewrite Hr; cbn [step fst snd].
  - exists env. destruct (Z.leb_spec (fst (last_call t a trace) + wait) u);
      [reflexivity|lia].
  - exists env'. reflexivity.
Qed.

End DebounceFacts.

Lemma debounce_burst_witness :
  Debounce.in_order T0
    ([Debounce.Elapse (T0 + 100) (T0 + 100, ("k3x9q1m0z"%string, "z1x3c5v7b"%string));
      Debounce.Invoke (T0 + 200) ("bar2"%string, true)]
     ++ [Debounce.Elapse (T0 + 500) (T0 + 500, ("q8w2e4r6t"%string, "m5n7b9v1c"%string))])
  /\ Debounce.burst debouncedAwardXP_wait T0
       [Debounce.Elapse (T0 + 100) (T0 + 100, ("k3x9q1m0z"%string, "z1x3c5v7b"%string));
        Debounce.Invoke (T0 + 200) ("bar2"%string, true)]
  /\ fst (Debounce.last_call T0 ("bar1"%string, true)
            [Debounce.Elapse (T0 + 100) (T0 + 100, ("k3x9q1m0z"%string, "z1x3c5v7b"%string));
             Debounce.Invoke (T0 + 200) ("bar2"%string, true)])
     + debouncedAwardXP_wait <= T0 + 500
  /\ exists env',
       Debounce.run debouncedAwardXP_func debouncedAwardXP_wait
         (Debounce.Invoke T0 ("bar1"%string, true)
          :: [Debounce.Elapse (T0 + 100) (T0 + 100, ("k3x9q1m0z"%string, "z1x3c5v7b"%string));
              Debounce.Invoke (T0 + 200) ("bar2"%string, true)]
             ++ [Debounce.Elapse (T0 + 500)
                   (T0 + 500, ("q8w2e4r6t"%string, "m5n7b9v1c"%string))])
         (None, Profile.new_state)
       = (None,
          debouncedAwardXP_func env'
            (snd (Debounce.last_call T0 ("bar1"%string, true)
                    [Debounce.Elapse (T0 + 100)
                       (T0 + 100, ("k3x9q1m0z"%string, "z1x3c5v7b"%string));
                     Debounce.Invoke (T0 + 200) ("bar2"%string, true)]))
            (snd (@None (Z * (string * bool)), Profile.new_state))).
Proof.
  assert (H1 : Debounce.in_order T0
    ([Debounce.Elapse (T0 + 100) (T0 + 100, ("k3x9q1m0z"%string, "z1x3c5v7b"%string));
      Debounce.Invoke (T0 + 200) ("bar2"%string, true)]
     ++ [Debounce.Elapse (T0 + 500) (T0 + 500, ("q8w2e4r6t"%string, "m5n7b9v1c"%string))])).
  { cbn. unfold T0. lia. }
  assert (H2 : Debounce.burst debouncedAwardXP_wait T0
       [Debounce.Elapse (T0 + 100) (T0 + 100, ("k3x9q1m0z"%string, "z1x3c5v7b"%string));
        Debounce.Invoke (T0 + 200) ("bar2"%string, true)]).
  { cbn. unfold T0, debouncedAwardXP_wait. lia. }
  assert (H3 : fst (Debounce.last_call T0 ("bar1"%string, true)
            [Debounce.Elapse (T0 + 100) (T0 + 100, ("k3x9q1m0z"%string, "z1x3c5v7b"%string));
             Debounce.Invoke (T0 + 200) ("bar2"%string, true)])
     + debouncedAwardXP_wait <= T0 + 500).
  { cbn. unfold T0, debouncedAwardXP_wait. lia. }
  split; [exact H1|]. split; [exact H2|]. split; [exact H3|].
  exact (debounce_burst _ _ _ debouncedAwardXP_func debouncedAwardXP_wait
           T0 ("bar1"%string, true) _ _ _ (None, Profile.new_state) H1 H2 H3).
Defined.
